(** * homesecurityFrontend: a shallow embedding of the admin console

  The development follows the three source files:
  - [src/lib/api.ts]: the session token in [localStorage], the [request]
    wrapper around [fetch], and the query parameters of the API calls;
  - the fingerprint helper ([sha256Hex], [getDeviceFingerprint]);
  - [src/ui/MapPreview.tsx] and [src/ui/App.tsx]: the React component is
    a state record, its event handlers, effects and promise continuations
    are transitions of one step function.

  JavaScript strings are modelled by their UTF-8 bytes ([string]), JavaScript
  numbers by binary64 floats ([float]), [undefined]/[null] by [None].  The
  platform is modelled where the code's behaviour depends on it: SHA-256
  and [JSON.parse] in full, timers and pending promises as part of the
  state.  [new Date(v)] is modelled for the date-only form [YYYY-MM-DD];
  what the browser makes of any other text, which depends on its parser
  and its time zone, is a function held in the state.  Module [App] is
  the dashboard of a signed-in or signed-out page; module [Forms] adds the
  login and change-password forms around it. *)

From Stdlib Require Import ZArith NArith List String Ascii Lia Floats Bool.
From stdpp Require Import gmap strings.
Import ListNotations.

#[local] Set Warnings "-register-all".
Local Open Scope string_scope.

(** ** JavaScript primitives used by the sources *)
Module Js.

(** [Boolean(s)] for a string: only the empty string is falsy. *)
Definition truthy_string (s : string) : bool :=
  match s with
  | EmptyString => false
  | String _ _ => true
  end.

(** [Boolean(x)] for a number: [+0], [-0] and [NaN] are falsy. *)
Definition truthy_number (x : float) : bool :=
  negb (PrimFloat.is_zero x || PrimFloat.is_nan x).

(** [Boolean(v)] for a value that may be [undefined] or [null]. *)
Definition truthy_opt {A} (truthy : A -> bool) (v : option A) : bool :=
  match v with
  | Some a => truthy a
  | None => false
  end.

(** [x || y] where both sides have the same type up to [undefined]:
    the left operand when it is truthy, the right operand otherwise
    (whatever the right operand is). *)
Definition or_else {A} (truthy : A -> bool) (x y : option A) : option A :=
  if truthy_opt truthy x then x else y.

(** [x || d] with a default that is always defined. *)
Definition or_default {A} (truthy : A -> bool) (x : option A) (d : A) : A :=
  match x with
  | Some a => if truthy a then a else d
  | None => d
  end.

(** [s.padStart(n, c)] for a one-character filler. *)
Definition padStart (n : nat) (c : ascii) (s : string) : string :=
  string_of_list_ascii (repeat c (n - String.length s)) ++ s.

(** [parts.join(sep)]. *)
Definition join (sep : string) (parts : list string) : string :=
  String.concat sep parts.

(** Decimal digits of a non-negative integer, as [String(n)] prints an
    integer-valued number below 2^53. *)
Definition digit_char (d : N) : ascii := ascii_of_N (48 + d).

Fixpoint decimal_aux (fuel : nat) (n : N) (acc : string) : string :=
  match fuel with
  | O => acc
  | S f =>
      let acc' := String (digit_char (n mod 10)) acc in
      if (n <? 10)%N then acc' else decimal_aux f (n / 10)%N acc'
  end.

Definition decimal (n : N) : string :=
  decimal_aux (S (N.to_nat (N.log2 n))) n "".

End Js.

(** ** SHA-256 (FIPS 180-4), the digest behind [crypto.subtle.digest] *)
Module SHA256.
Local Open Scope Z_scope.

Definition mask32 : Z := 0xffffffff.
Definition wrap (x : Z) : Z := Z.land x mask32.
Definition add32 (x y : Z) : Z := wrap (x + y).
Definition rotr (n x : Z) : Z :=
  Z.lor (Z.shiftr x n) (wrap (Z.shiftl x (32 - n))).
Definition shr (n x : Z) : Z := Z.shiftr x n.

Definition choose (x y z : Z) : Z :=
  Z.lxor (Z.land x y) (Z.land (Z.lxor x mask32) z).
Definition majority (x y z : Z) : Z :=
  Z.lxor (Z.lxor (Z.land x y) (Z.land x z)) (Z.land y z).
Definition big_sigma0 (x : Z) : Z :=
  Z.lxor (Z.lxor (rotr 2 x) (rotr 13 x)) (rotr 22 x).
Definition big_sigma1 (x : Z) : Z :=
  Z.lxor (Z.lxor (rotr 6 x) (rotr 11 x)) (rotr 25 x).
Definition small_sigma0 (x : Z) : Z :=
  Z.lxor (Z.lxor (rotr 7 x) (rotr 18 x)) (shr 3 x).
Definition small_sigma1 (x : Z) : Z :=
  Z.lxor (Z.lxor (rotr 17 x) (rotr 19 x)) (shr 10 x).

(** The constants are not tabulated but derived as FIPS 180-4 defines
    them: the first 32 bits of the fractional parts of the cube roots (for
    the rounds) and square roots (for the initial hash) of the first
    primes. *)
Definition is_prime (p : nat) : bool :=
  forallb (fun d => negb (Nat.eqb (Nat.modulo p d) 0)) (seq 2 (p - 2)).

Definition primes : list Z :=
  Eval vm_compute in map Z.of_nat (List.filter is_prime (seq 2 310)).

Fixpoint cube_root_from (bit : nat) (n r : Z) : Z :=
  match bit with
  | O => r
  | S b =>
      let c := r + 2 ^ Z.of_nat b in
      if c * c * c <=? n then cube_root_from b n c else cube_root_from b n r
  end.

Definition cube_root (n : Z) : Z := cube_root_from 40 n 0.

Definition round_constants : list Z :=
  Eval vm_compute in map (fun p => wrap (cube_root (p * 2 ^ 96))) primes.

(** The eight working words. *)
Record Hash := mkHash {
  ha : Z; hb : Z; hc : Z; hd : Z; he : Z; hf : Z; hg : Z; hh : Z }.

Definition root_word (k : nat) : Z := wrap (Z.sqrt (nth k primes 0 * 2 ^ 64)).

Definition initial_hash : Hash :=
  Eval vm_compute in
    mkHash (root_word 0) (root_word 1) (root_word 2) (root_word 3)
           (root_word 4) (root_word 5) (root_word 6) (root_word 7).

(** Padding: the byte 0x80, zero bytes up to 56 modulo 64, then the bit
    length as a 64-bit big-endian integer. *)
Definition big_endian (width : nat) (x : Z) : list Z :=
  map (fun i => Z.land (Z.shiftr x (8 * Z.of_nat i)) 0xff) (rev (seq 0 width)).

Definition pad (msg : list Z) : list Z :=
  let len := Z.of_nat (length msg) in
  msg ++ [0x80] ++ repeat 0 (Z.to_nat ((55 - len) mod 64))
      ++ big_endian 8 (8 * len).

Fixpoint words_of_bytes (bs : list Z) : list Z :=
  match bs with
  | b0 :: b1 :: b2 :: b3 :: rest =>
      (Z.shiftl b0 24 + Z.shiftl b1 16 + Z.shiftl b2 8 + b3) :: words_of_bytes rest
  | _ => []
  end.

(** The message schedule: sixteen words of the block, then 48 derived ones. *)
Definition schedule_next (ws : list Z) : Z :=
  let t := length ws in
  let at_ k := nth (t - k) ws 0 in
  add32 (add32 (small_sigma1 (at_ 2%nat)) (at_ 7%nat))
        (add32 (small_sigma0 (at_ 15%nat)) (at_ 16%nat)).

Fixpoint extend (n : nat) (ws : list Z) : list Z :=
  match n with
  | O => ws
  | S n' => extend n' (ws ++ [schedule_next ws])
  end.

Definition schedule (block : list Z) : list Z := extend 48 block.

Definition round (h : Hash) (kw : Z * Z) : Hash :=
  let t1 := add32 (add32 (add32 (hh h) (big_sigma1 (he h)))
                         (add32 (choose (he h) (hf h) (hg h)) (fst kw)))
                  (snd kw) in
  let t2 := add32 (big_sigma0 (ha h)) (majority (ha h) (hb h) (hc h)) in
  mkHash (add32 t1 t2) (ha h) (hb h) (hc h) (add32 (hd h) t1) (he h) (hf h) (hg h).

Definition compress (h : Hash) (block : list Z) : Hash :=
  let r := fold_left round (combine round_constants (schedule block)) h in
  mkHash (add32 (ha h) (ha r)) (add32 (hb h) (hb r))
         (add32 (hc h) (hc r)) (add32 (hd h) (hd r))
         (add32 (he h) (he r)) (add32 (hf h) (hf r))
         (add32 (hg h) (hg r)) (add32 (hh h) (hh r)).

Fixpoint process (nblocks : nat) (ws : list Z) (h : Hash) : Hash :=
  match nblocks with
  | O => h
  | S n => process n (skipn 16 ws) (compress h (firstn 16 ws))
  end.

Definition hash_words (h : Hash) : list Z :=
  [ha h; hb h; hc h; hd h; he h; hf h; hg h; hh h].

(** The 32 digest bytes of a byte sequence. *)
Definition digest (msg : list Z) : list Z :=
  let ws := words_of_bytes (pad msg) in
  let h := process (length ws / 16) ws initial_hash in
  flat_map (big_endian 4) (hash_words h).

End SHA256.

(** ** The fingerprint helper *)
Module Fingerprint.

(** [new TextEncoder().encode(input)]: the UTF-8 bytes of the string. *)
Definition encode (input : string) : list Z :=
  map (fun c => Z.of_N (N_of_ascii c)) (list_ascii_of_string input).

Definition hex_digit (d : Z) : ascii :=
  if (d <? 10)%Z then ascii_of_N (48 + Z.to_N d) else ascii_of_N (87 + Z.to_N d).

(** [b.toString(16)] for an element of a [Uint8Array] (0 to 255): no
    leading zero, lowercase digits. *)
Definition toString16 (b : Z) : string :=
  if (b <? 16)%Z then String (hex_digit b) ""
  else String (hex_digit (b / 16)) (String (hex_digit (b mod 16)) "").

(** The characters [0-9a-f]. *)
Definition is_lower_hex (c : ascii) : bool :=
  let n := N_of_ascii c in
  (((48 <=? n) && (n <=? 57)) || ((97 <=? n) && (n <=? 102)))%N.

(** [sha256Hex]: digest, then two lowercase hex digits per byte. *)
Definition sha256Hex (input : string) : string :=
  Js.join "" (map (fun b => Js.padStart 2 "0" (toString16 b))
                  (SHA256.digest (encode input))).

(** The two characters written for a byte are two, and from [0-9a-f]. *)
Definition hex_pair_ok (b : Z) : bool :=
  let s := Js.padStart 2 "0" (toString16 b) in
  Nat.eqb (String.length s) 2
  && forallb is_lower_hex (list_ascii_of_string s).

Section Signals.
(** [String(x)] on a number is left to the platform. *)
Variable Number_toString : float -> string.

(** What [getDeviceFingerprint] reads from [navigator], [screen] and
    [Intl]; an absent property is [None]. *)
Record Signals := {
  userAgent : option string;
  language : option string;
  hardwareConcurrency : option float;
  deviceMemory : option float;
  screen_width : float;
  screen_height : float;
  timeZone : option string }.

(** [String(x || "")] for an optional number. *)
Definition number_or_empty (x : option float) : string :=
  match x with
  | Some v => if Js.truthy_number v then Number_toString v else ""
  | None => ""
  end.

Definition parts (sig : Signals) : list string :=
  [ Js.or_default Js.truthy_string (userAgent sig) "";
    Js.or_default Js.truthy_string (language sig) "";
    number_or_empty (hardwareConcurrency sig);
    number_or_empty (deviceMemory sig);
    Number_toString (screen_width sig) ++ "x" ++ Number_toString (screen_height sig);
    Js.or_default Js.truthy_string (timeZone sig) "" ].

Definition getDeviceFingerprint (sig : Signals) : string :=
  sha256Hex (Js.join "|" (parts sig)).
End Signals.

End Fingerprint.


(** ** JSON texts and [JSON.parse] *)
Module Json.

(** A number literal [-m.fff e xx] kept exactly: its value is
    [mantissa * 10 ^ exp10], negated when [neg]. *)
Record Decimal := mkDecimal { neg : bool; mantissa : N; exp10 : Z }.

Inductive Value :=
| Null
| Bool (b : bool)
| Number (d : Decimal)
| Str (s : string)
| Array (items : list Value)
| Object (fields : list (string * Value)).

(** *** Lexer: one character at a time *)

Inductive Token :=
| LBrace | RBrace | LBracket | RBracket | Colon | Comma
| Scalar (v : Value).

Inductive NumPhase :=
| AfterMinus | IntZero | IntDigits | AfterDot | FracDigits
| AfterE | AfterESign | ExpDigits.

Record NumAcc := mkNumAcc {
  n_neg : bool; n_mant : N; n_scale : N; n_eneg : bool; n_exp : N }.

Inductive Lex :=
| Idle
| InLiteral (rest : string) (v : Value)
| InString (acc : list ascii)
| InEscape (acc : list ascii)
| InUnicode (acc : list ascii) (todo : nat) (code : N)
| InNumber (p : NumPhase) (a : NumAcc).

Definition code (c : ascii) : N := N_of_ascii c.

Definition is_ws (c : ascii) : bool :=
  let n := code c in
  ((n =? 32) || (n =? 9) || (n =? 10) || (n =? 13))%N.

Definition digit_of (c : ascii) : option N :=
  let n := code c in
  if ((48 <=? n) && (n <=? 57))%N then Some (n - 48)%N else None.

Definition hex_of (c : ascii) : option N :=
  let n := code c in
  if ((48 <=? n) && (n <=? 57))%N then Some (n - 48)%N
  else if ((97 <=? n) && (n <=? 102))%N then Some (n - 87)%N
  else if ((65 <=? n) && (n <=? 70))%N then Some (n - 55)%N
  else None.

Definition finish_number (a : NumAcc) : Value :=
  Number (mkDecimal (n_neg a) (n_mant a)
            ((if n_eneg a then - Z.of_N (n_exp a) else Z.of_N (n_exp a))
             - Z.of_N (n_scale a))%Z).

Definition push_int (a : NumAcc) (d : N) : NumAcc :=
  mkNumAcc (n_neg a) (n_mant a * 10 + d) (n_scale a) (n_eneg a) (n_exp a).
Definition push_frac (a : NumAcc) (d : N) : NumAcc :=
  mkNumAcc (n_neg a) (n_mant a * 10 + d) (n_scale a + 1) (n_eneg a) (n_exp a).
Definition push_exp (a : NumAcc) (d : N) : NumAcc :=
  mkNumAcc (n_neg a) (n_mant a) (n_scale a) (n_eneg a) (n_exp a * 10 + d).
Definition negative_exp (a : NumAcc) : NumAcc :=
  mkNumAcc (n_neg a) (n_mant a) (n_scale a) true (n_exp a).
Definition fresh_number (negative : bool) : NumAcc :=
  mkNumAcc negative 0 0 false 0.

(** The bytes of one UTF-16 code unit written by a [\uXXXX] escape.  A
    low surrogate that follows an escaped high surrogate is merged with it
    into the four bytes of the code point; [acc] is the string so far,
    last byte first. *)
Definition byte (n : N) : ascii := ascii_of_N n.

Definition utf8_unit (u : N) : list ascii :=
  if (u <? 128)%N then [byte u]
  else if (u <? 2048)%N then [byte (192 + u / 64); byte (128 + u mod 64)]
  else [byte (224 + u / 4096); byte (128 + (u / 64) mod 64); byte (128 + u mod 64)].

Definition push_unit (acc : list ascii) (u : N) : list ascii :=
  let plain := (rev (utf8_unit u) ++ acc)%list in
  if ((56320 <=? u) && (u <=? 57343))%N then
    match acc with
    | b3 :: b2 :: b1 :: acc' =>
        if ((code b1 =? 237) && (160 <=? code b2) && (code b2 <=? 175))%N then
          let high := (53248 + (code b2 mod 64) * 64 + code b3 mod 64)%N in
          let cp := (65536 + (high - 55296) * 1024 + (u - 56320))%N in
          byte (128 + cp mod 64) :: byte (128 + (cp / 64) mod 64)
            :: byte (128 + (cp / 4096) mod 64) :: byte (240 + cp / 262144) :: acc'
        else plain
    | _ => plain
    end
  else plain.

Definition idle (c : ascii) : option (Lex * list Token) :=
  if is_ws c then Some (Idle, [])
  else if (c =? "{")%char then Some (Idle, [LBrace])
  else if (c =? "}")%char then Some (Idle, [RBrace])
  else if (c =? "[")%char then Some (Idle, [LBracket])
  else if (c =? "]")%char then Some (Idle, [RBracket])
  else if (c =? ":")%char then Some (Idle, [Colon])
  else if (c =? ",")%char then Some (Idle, [Comma])
  else if (code c =? 34)%N then Some (InString [], [])
  else if (c =? "-")%char then Some (InNumber AfterMinus (fresh_number true), [])
  else if (c =? "0")%char then Some (InNumber IntZero (fresh_number false), [])
  else if (c =? "t")%char then Some (InLiteral "rue" (Bool true), [])
  else if (c =? "f")%char then Some (InLiteral "alse" (Bool false), [])
  else if (c =? "n")%char then Some (InLiteral "ull" Null, [])
  else match digit_of c with
       | Some d => Some (InNumber IntDigits (push_int (fresh_number false) d), [])
       | None => None
       end.

(** A number ends at the first character that cannot continue it; that
    character is then read afresh. *)
Definition end_number (a : NumAcc) (c : ascii) : option (Lex * list Token) :=
  match idle c with
  | Some (st, toks) => Some (st, Scalar (finish_number a) :: toks)
  | None => None
  end.

Definition is_e (c : ascii) : bool := ((c =? "e") || (c =? "E"))%char.

Definition in_number (p : NumPhase) (a : NumAcc) (c : ascii)
  : option (Lex * list Token) :=
  match p with
  | AfterMinus =>
      match digit_of c with
      | Some 0%N => Some (InNumber IntZero a, [])
      | Some d => Some (InNumber IntDigits (push_int a d), [])
      | None => None
      end
  | IntZero =>
      if (c =? ".")%char then Some (InNumber AfterDot a, [])
      else if is_e c then Some (InNumber AfterE a, [])
      else end_number a c
  | IntDigits =>
      match digit_of c with
      | Some d => Some (InNumber IntDigits (push_int a d), [])
      | None =>
          if (c =? ".")%char then Some (InNumber AfterDot a, [])
          else if is_e c then Some (InNumber AfterE a, [])
          else end_number a c
      end
  | AfterDot =>
      match digit_of c with
      | Some d => Some (InNumber FracDigits (push_frac a d), [])
      | None => None
      end
  | FracDigits =>
      match digit_of c with
      | Some d => Some (InNumber FracDigits (push_frac a d), [])
      | None => if is_e c then Some (InNumber AfterE a, []) else end_number a c
      end
  | AfterE =>
      if (c =? "+")%char then Some (InNumber AfterESign a, [])
      else if (c =? "-")%char then Some (InNumber AfterESign (negative_exp a), [])
      else match digit_of c with
           | Some d => Some (InNumber ExpDigits (push_exp a d), [])
           | None => None
           end
  | AfterESign =>
      match digit_of c with
      | Some d => Some (InNumber ExpDigits (push_exp a d), [])
      | None => None
      end
  | ExpDigits =>
      match digit_of c with
      | Some d => Some (InNumber ExpDigits (push_exp a d), [])
      | None => end_number a c
      end
  end.

Definition in_escape (acc : list ascii) (c : ascii) : option (Lex * list Token) :=
  if (code c =? 34)%N then Some (InString (c :: acc), [])
  else if (c =? "\")%char then Some (InString (c :: acc), [])
  else if (c =? "/")%char then Some (InString (c :: acc), [])
  else if (c =? "b")%char then Some (InString (byte 8 :: acc), [])
  else if (c =? "f")%char then Some (InString (byte 12 :: acc), [])
  else if (c =? "n")%char then Some (InString (byte 10 :: acc), [])
  else if (c =? "r")%char then Some (InString (byte 13 :: acc), [])
  else if (c =? "t")%char then Some (InString (byte 9 :: acc), [])
  else if (c =? "u")%char then Some (InUnicode acc 4 0, [])
  else None.

Definition lex_step (st : Lex) (c : ascii) : option (Lex * list Token) :=
  match st with
  | Idle => idle c
  | InLiteral rest v =>
      match rest with
      | String c' rest' =>
          if (c =? c')%char then
            match rest' with
            | EmptyString => Some (Idle, [Scalar v])
            | _ => Some (InLiteral rest' v, [])
            end
          else None
      | EmptyString => None
      end
  | InString acc =>
      if (code c =? 34)%N then
        Some (Idle, [Scalar (Str (string_of_list_ascii (rev acc)))])
      else if (c =? "\")%char then Some (InEscape acc, [])
      else if (code c <? 32)%N then None
      else Some (InString (c :: acc), [])
  | InEscape acc => in_escape acc c
  | InUnicode acc todo u =>
      match hex_of c with
      | Some h =>
          let u' := (u * 16 + h)%N in
          match todo with
          | S (S k) => Some (InUnicode acc (S k) u', [])
          | _ => Some (InString (push_unit acc u'), [])
          end
      | None => None
      end
  | InNumber p a => in_number p a c
  end.

(** At the end of the text only a complete number may be pending. *)
Definition lex_end (st : Lex) : option (list Token) :=
  match st with
  | Idle => Some []
  | InNumber (IntZero | IntDigits | FracDigits | ExpDigits) a =>
      Some [Scalar (finish_number a)]
  | _ => None
  end.

Fixpoint lex (st : Lex) (text : string) : option (list Token) :=
  match text with
  | EmptyString => lex_end st
  | String c rest =>
      match lex_step st c with
      | Some (st', toks) =>
          match lex st' rest with
          | Some more => Some (toks ++ more)%list
          | None => None
          end
      | None => None
      end
  end.

(** *** Parser: a stack of the containers that are still open *)

Inductive Frame :=
| FArray (items_rev : list Value)
| FObject (fields_rev : list (string * Value)) (key : option string).

Inductive Mode :=
| WantValue
| WantValueOrClose
| WantKeyOrClose
| WantKey
| WantColon
| AfterValue
| Finished (v : Value).

Definition close_value (v : Value) (stack : list Frame) : option (Mode * list Frame) :=
  match stack with
  | [] => Some (Finished v, [])
  | FArray items :: below => Some (AfterValue, FArray (v :: items) :: below)
  | FObject fields (Some k) :: below =>
      Some (AfterValue, FObject ((k, v) :: fields) None :: below)
  | FObject _ None :: _ => None
  end.

Definition open_value (t : Token) (stack : list Frame) : option (Mode * list Frame) :=
  match t with
  | Scalar v => close_value v stack
  | LBracket => Some (WantValueOrClose, FArray [] :: stack)
  | LBrace => Some (WantKeyOrClose, FObject [] None :: stack)
  | _ => None
  end.

Definition close_array (stack : list Frame) : option (Mode * list Frame) :=
  match stack with
  | FArray items :: below => close_value (Array (rev items)) below
  | _ => None
  end.

Definition close_object (stack : list Frame) : option (Mode * list Frame) :=
  match stack with
  | FObject fields None :: below => close_value (Object (rev fields)) below
  | _ => None
  end.

Definition read_key (t : Token) (stack : list Frame) : option (Mode * list Frame) :=
  match t, stack with
  | Scalar (Str k), FObject fields None :: below =>
      Some (WantColon, FObject fields (Some k) :: below)
  | _, _ => None
  end.

Definition feed (st : Mode * list Frame) (t : Token) : option (Mode * list Frame) :=
  let (mode, stack) := st in
  match mode with
  | WantValue => open_value t stack
  | WantValueOrClose =>
      match t with
      | RBracket => close_array stack
      | _ => open_value t stack
      end
  | WantKeyOrClose =>
      match t with
      | RBrace => close_object stack
      | _ => read_key t stack
      end
  | WantKey => read_key t stack
  | WantColon =>
      match t with
      | Colon => Some (WantValue, stack)
      | _ => None
      end
  | AfterValue =>
      match t, stack with
      | Comma, FArray _ :: _ => Some (WantValue, stack)
      | Comma, FObject _ _ :: _ => Some (WantKey, stack)
      | RBracket, _ => close_array stack
      | RBrace, _ => close_object stack
      | _, _ => None
      end
  | Finished _ => None
  end.

Fixpoint feed_all (st : Mode * list Frame) (toks : list Token) : option Value :=
  match toks with
  | [] => match st with
          | (Finished v, _) => Some v
          | _ => None
          end
  | t :: rest =>
      match feed st t with
      | Some st' => feed_all st' rest
      | None => None
      end
  end.

(** [JSON.parse(text)]: [None] stands for the [SyntaxError] it throws. *)
Definition parse (text : string) : option Value :=
  match lex Idle text with
  | Some toks => feed_all (WantValue, []) toks
  | None => None
  end.

(** [o[k]] on a parsed object: of repeated members the last one counts. *)
Definition member (k : string) (fields : list (string * Value)) : option Value :=
  match find (fun kv => String.eqb (fst kv) k) (rev fields) with
  | Some kv => Some (snd kv)
  | None => None
  end.

(** A literal denotes the number zero when all its digits are zero, or when
    its value is at most 2^-1075, half the least positive binary64 number
    (round to nearest, ties to even). *)
Definition is_zero (d : Decimal) : bool :=
  ((mantissa d =? 0)%N
   || ((exp10 d <? 0) && (Z.of_N (mantissa d) * 2 ^ 1075 <=? 10 ^ (- exp10 d))))%Z.

(** [Boolean(v)] for a parsed value. *)
Definition truthy (v : Value) : bool :=
  match v with
  | Null => false
  | Bool b => b
  | Number d => negb (is_zero d)
  | Str s => Js.truthy_string s
  | Array _ | Object _ => true
  end.

End Json.

(** ** [src/lib/api.ts] *)
Module Api.

(** *** The session token: one slot of [localStorage] *)

Definition getToken (localStorage : gmap string string) : option string :=
  localStorage !! "adminToken".

Definition setToken (token : option string) (localStorage : gmap string string)
  : gmap string string :=
  match token with
  | Some t =>
      if negb (Js.truthy_string t) then delete "adminToken" localStorage
      else <["adminToken" := t]> localStorage
  | None => delete "adminToken" localStorage
  end.

(** *** [request] *)

(** The headers [request] sends: the content type, then the caller's
    headers spread over it, then the bearer token when one is stored. *)
Definition headers (localStorage : gmap string string)
    (options_headers : gmap string string) : gmap string string :=
  let base := options_headers ∪ {["content-type" := "application/json"]} in
  match getToken localStorage with
  | Some t => if Js.truthy_string t then <["authorization" := "Bearer " ++ t]> base else base
  | None => base
  end.

(** What [fetch] resolved with: the status line and the body text. *)
Record Response := mkResponse { status : N; text : string }.

(** [res.ok]: the status is in the range 200 to 299. *)
Definition ok (res : Response) : bool :=
  ((200 <=? status res) && (status res <=? 299))%N.

Inductive Thrown :=
| SyntaxError              (* thrown by [JSON.parse] *)
| Error (msg : Json.Value) (* [new Error(msg)]; its message is [String(msg)],
                              which is [msg] itself when [msg] is a string *).

Inductive Outcome :=
| Return (data : Json.Value)
| Throw (e : Thrown).

(** [data?.error]: [undefined] unless [data] is an object with that member. *)
Definition error_of (data : Json.Value) : option Json.Value :=
  match data with
  | Json.Object fields => Json.member "error" fields
  | _ => None
  end.

(** [text ? JSON.parse(text) : null]; [None] when [JSON.parse] throws. *)
Definition body_data (text : string) : option Json.Value :=
  if Js.truthy_string text then Json.parse text else Some Json.Null.

(** [request], from the point where [fetch] and [res.text()] have resolved. *)
Definition request (res : Response) : Outcome :=
  match body_data (text res) with
  | None => Throw SyntaxError
  | Some data =>
      if negb (ok res) then
        Throw (Error (Js.or_default Json.truthy (error_of data)
                        (Json.Str ("HTTP " ++ Js.decimal (status res)))))
      else Return data
  end.

(** *** The calls of the [api] object that the dashboard issues *)

Inductive Call :=
| Summary
| ListDevices (query : list (string * string))
| GetLocationLogs (deviceId : string) (query : list (string * string)).

(** [if (v) sp.set(name, v)] on [URLSearchParams]. *)
Definition set_if (name : string) (v : option string) : list (string * string) :=
  match v with
  | Some s => if Js.truthy_string s then [(name, s)] else []
  | None => []
  end.

Definition summary : Call := Summary.

Definition listDevices (q : string) (sinceIso untilIso : option string) : Call :=
  ListDevices ([("q", q)] ++ set_if "since" sinceIso ++ set_if "until" untilIso)%list.

Definition getLocationLogs (deviceId : string) (sinceIso untilIso : option string) : Call :=
  GetLocationLogs deviceId (set_if "since" sinceIso ++ set_if "until" untilIso)%list.

End Api.

(** ** [src/ui/MapPreview.tsx] *)
Module MapPreview.

Record Props := mkProps {
  lat : option float;
  lng : option float;
  timestamp : option string;
  address : option string }.

(** The popup text: both coordinates, then the time line and the address
    line when the property is truthy. *)
Record Popup := mkPopup {
  popup_lat : float;
  popup_lng : float;
  popup_time : option string;
  popup_address : option string }.

(** What the Leaflet objects show: the view, the marker, and the popup
    bound to the marker if any. *)
Record Leaflet := mkLeaflet {
  center : float * float;
  zoom : N;
  marker : float * float;
  popup : option Popup }.

Definition truthy_or_none (v : option string) : option string :=
  if Js.truthy_opt Js.truthy_string v then v else None.

(** The body of the effect on [[props.lat, props.lng, props.timestamp,
    props.address]], once the map exists. *)
Definition MapPreview (props : Props) : Leaflet :=
  match lat props, lng props with
  | Some la, Some ln =>
      mkLeaflet (la, ln) 15 (la, ln)
        (Some (mkPopup la ln (truthy_or_none (timestamp props))
                 (truthy_or_none (address props))))
  | _, _ => mkLeaflet (0%float, 0%float) 2 (0%float, 0%float) None
  end.

End MapPreview.

(** ** [new Date(v).toISOString()] on the value of a date box *)
Module DateInput.

Definition digit (c : ascii) : option N := Json.digit_of c.

Definition number (ds : list ascii) : option N :=
  fold_left (fun acc c =>
               match acc, digit c with
               | Some n, Some d => Some (n * 10 + d)%N
               | _, _ => None
               end) ds (Some 0%N).

Definition leap (y : N) : bool :=
  ((y mod 4 =? 0) && (negb (y mod 100 =? 0) || (y mod 400 =? 0)))%N.

Definition days_in_month (y m : N) : N :=
  if (m =? 2)%N then (if leap y then 29 else 28)%N
  else if ((m =? 4) || (m =? 6) || (m =? 9) || (m =? 11))%N then 30%N
  else 31%N.

(** A day of the calendar written [YYYY-MM-DD]: the value
    [<input type="date">] has for a day of a year of four digits. *)
Definition valid (v : string) : bool :=
  match list_ascii_of_string v with
  | [y1; y2; y3; y4; s1; m1; m2; s2; d1; d2] =>
      match number [y1; y2; y3; y4], number [m1; m2], number [d1; d2] with
      | Some y, Some m, Some d =>
          ((s1 =? "-")%char && (s2 =? "-")%char
           && (1 <=? m)%N && (m <=? 12)%N && (1 <=? d)%N && (d <=? days_in_month y m)%N)
      | _, _, _ => false
      end
  | _ => false
  end.

(** What the date parser of V8 makes of a text.  The date-only form of
    ECMAScript, four digits, two and two with dashes between, is read as a
    day in UTC when the month is 1 to 12 and the day 1 to 31, whatever the
    month, and is an invalid date otherwise.  Every other text goes to the
    legacy parser, which reads it in the local time zone. *)
Inductive Read :=
| Day (y m d : N)
| Invalid
| Other.

Definition read (v : string) : Read :=
  match list_ascii_of_string v with
  | [y1; y2; y3; y4; s1; m1; m2; s2; d1; d2] =>
      match number [y1; y2; y3; y4], number [m1; m2], number [d1; d2] with
      | Some y, Some m, Some d =>
          if ((s1 =? "-")%char && (s2 =? "-")%char)
          then if ((1 <=? m) && (m <=? 12) && (1 <=? d) && (d <=? 31))%N
               then Day y m d else Invalid
          else Other
      | _, _, _ => Other
      end
  | _ => Other
  end.

(** [MakeDay]: a day past the end of its month counts on into the next
    month.  With a day of at most 31 that is one month at most, and never
    out of December. *)
Definition roll (y m d : N) : N * N * N :=
  if (d <=? days_in_month y m)%N then (y, m, d)
  else (y, m + 1, d - days_in_month y m)%N.

Definition two_digits (n : N) : string :=
  String (Js.digit_char (n / 10)) (String (Js.digit_char (n mod 10)) "").

Definition four_digits (n : N) : string :=
  String (Js.digit_char (n / 1000))
    (String (Js.digit_char (n / 100 mod 10)) (two_digits (n mod 100))).

(** [toISOString] of midnight UTC of a day of the years 0 to 9999. *)
Definition midnight (ymd : N * N * N) : string :=
  four_digits (fst (fst ymd)) ++ "-" ++ two_digits (snd (fst ymd)) ++ "-"
  ++ two_digits (snd ymd) ++ "T00:00:00.000Z".

(** [new Date(v).toISOString()]; [None] is the [RangeError] of an invalid
    date.  [legacy] is what the browser gives for a text that is not in the
    date-only form. *)
Definition toISOString (legacy : string -> option string) (v : string) : option string :=
  match read v with
  | Day y m d => Some (midnight (roll y m d))
  | Invalid => None
  | Other => legacy v
  end.

End DateInput.

(** ** [src/ui/App.tsx] *)
Module App.

(** *** Data *)

Record LastLocation := mkLastLocation {
  loc_lat : float;
  loc_lng : float;
  loc_address : option string;
  loc_timestamp : option string }.

Inductive Status := ACTIVE | OFFLINE | REINSTALLED.

Record Device := mkDevice {
  deviceId : string;
  deviceName : string;
  model : string;
  osVersion : string;
  installDate : string;
  lastSeen : option string;
  status : Status;
  lastLocation : option LastLocation }.

Record LocationLog := mkLocationLog {
  _id : string;
  log_deviceId : string;
  lat : float;
  lng : float;
  address : option string;
  timestamp : string;
  createdAt : string }.

Record Summary := mkSummary { total : float; online : float; offline : float }.

(** *** The component's state variables ([useState]) *)

Record Ui := mkUi {
  token : option string;
  error : option string;
  summary : option Summary;
  q : string;
  since : string;
  until : string;
  devices : list Device;
  selected : option Device;
  locationLogs : list LocationLog;
  selectedLocation : option LocationLog;
  loadingLogs : bool }.

(** *** The world around the component *)

(** Where a running [load()] was started, which decides its [catch]. *)
Inductive Origin := FromAuthEffect | FromDebounce.

(** An [async] function suspended at an [await] on an API call, with the
    variables its continuation still needs. *)
Inductive Task :=
| AwaitSummary (o : Origin) (q since until : string)
| AwaitDevices (o : Origin)
| AwaitLogs.

(** What an awaited call settles with. *)
Inductive Reply :=
| Summarized (v : Summary)
| DeviceList (ds : list Device)
| LogList (logs : list LocationLog)
| Rejected (name message : string).

(** A timeout set by the debounce effect; its callback runs the [load] of
    the render that set it, which reads that render's [q], [since], [until]. *)
Record Timer := mkTimer {
  timer_id : nat;
  deadline : nat;
  t_q : string;
  t_since : string;
  t_until : string }.

Record Request := mkRequest {
  request_id : nat;
  call : Api.Call;
  authorization : option string }.

Record State := mkState {
  ui : Ui;
  localStorage : gmap string string;
  now : nat;                    (* milliseconds *)
  timers : list Timer;          (* pending timeouts, oldest first *)
  cleanup : option nat;         (* the timer the debounce effect will clear *)
  pending : list (nat * Task);  (* calls in flight *)
  sent : list Request;          (* every call issued so far, oldest first *)
  next_id : nat;
  legacy_date : string -> option string
                                (* [new Date(v).toISOString()] of this browser
                                   for a text not in the date-only form *) }.

Notation "s |> f" := (f s) (at level 45, left associativity, only parsing).

Definition with_ui (f : Ui -> Ui) (s : State) : State :=
  mkState (f (ui s)) (localStorage s) (now s) (timers s) (cleanup s)
          (pending s) (sent s) (next_id s) (legacy_date s).

(** The setters returned by [useState]. *)
Definition setTokenState (v : option string) : State -> State :=
  with_ui (fun u => mkUi v (error u) (summary u) (q u) (since u) (until u)
             (devices u) (selected u) (locationLogs u) (selectedLocation u) (loadingLogs u)).
Definition setError (v : option string) : State -> State :=
  with_ui (fun u => mkUi (token u) v (summary u) (q u) (since u) (until u)
             (devices u) (selected u) (locationLogs u) (selectedLocation u) (loadingLogs u)).
Definition setSummary (v : option Summary) : State -> State :=
  with_ui (fun u => mkUi (token u) (error u) v (q u) (since u) (until u)
             (devices u) (selected u) (locationLogs u) (selectedLocation u) (loadingLogs u)).
Definition setQ (v : string) : State -> State :=
  with_ui (fun u => mkUi (token u) (error u) (summary u) v (since u) (until u)
             (devices u) (selected u) (locationLogs u) (selectedLocation u) (loadingLogs u)).
Definition setSince (v : string) : State -> State :=
  with_ui (fun u => mkUi (token u) (error u) (summary u) (q u) v (until u)
             (devices u) (selected u) (locationLogs u) (selectedLocation u) (loadingLogs u)).
Definition setUntil (v : string) : State -> State :=
  with_ui (fun u => mkUi (token u) (error u) (summary u) (q u) (since u) v
             (devices u) (selected u) (locationLogs u) (selectedLocation u) (loadingLogs u)).
Definition setDevices (v : list Device) : State -> State :=
  with_ui (fun u => mkUi (token u) (error u) (summary u) (q u) (since u) (until u)
             v (selected u) (locationLogs u) (selectedLocation u) (loadingLogs u)).
Definition setSelected (v : option Device) : State -> State :=
  with_ui (fun u => mkUi (token u) (error u) (summary u) (q u) (since u) (until u)
             (devices u) v (locationLogs u) (selectedLocation u) (loadingLogs u)).
Definition setLocationLogs (v : list LocationLog) : State -> State :=
  with_ui (fun u => mkUi (token u) (error u) (summary u) (q u) (since u) (until u)
             (devices u) (selected u) v (selectedLocation u) (loadingLogs u)).
Definition setSelectedLocation (v : option LocationLog) : State -> State :=
  with_ui (fun u => mkUi (token u) (error u) (summary u) (q u) (since u) (until u)
             (devices u) (selected u) (locationLogs u) v (loadingLogs u)).
Definition setLoadingLogs (v : bool) : State -> State :=
  with_ui (fun u => mkUi (token u) (error u) (summary u) (q u) (since u) (until u)
             (devices u) (selected u) (locationLogs u) (selectedLocation u) v).

(** [setToken] of [api.ts], acting on the browser's storage. *)
Definition setToken (v : option string) (s : State) : State :=
  mkState (ui s) (Api.setToken v (localStorage s)) (now s) (timers s) (cleanup s)
          (pending s) (sent s) (next_id s) (legacy_date s).

(** Issuing a call: [request] reads the stored token for the header, the
    caller suspends as [k] until the call settles. *)
Definition issue (c : Api.Call) (k : Task) (s : State) : State :=
  let id := next_id s in
  mkState (ui s) (localStorage s) (now s) (timers s) (cleanup s)
          (pending s ++ [(id, k)])
          (sent s ++ [mkRequest id c (Api.headers (localStorage s) ∅ !! "authorization")])
          (S id) (legacy_date s).

(** [setTimeout(callback, ms)], returning the new timer's id in [cleanup]. *)
Definition setTimeout (ms : nat) (r : Ui) (s : State) : State :=
  let id := next_id s in
  mkState (ui s) (localStorage s) (now s)
          (timers s ++ [mkTimer id (now s + ms) (q r) (since r) (until r)])
          (Some id) (pending s) (sent s) (S id) (legacy_date s).

(** [clearTimeout(t)]: a timer that already fired is unknown, nothing happens. *)
Definition clearTimeout (t : nat) (s : State) : State :=
  mkState (ui s) (localStorage s) (now s)
          (List.filter (fun tm => negb (Nat.eqb (timer_id tm) t)) (timers s))
          (cleanup s) (pending s) (sent s) (next_id s) (legacy_date s).

Definition no_cleanup (s : State) : State :=
  mkState (ui s) (localStorage s) (now s) (timers s) None
          (pending s) (sent s) (next_id s) (legacy_date s).

(** *** [load] *)

Definition authed (u : Ui) : bool := Js.truthy_opt Js.truthy_string (token u).

(** [load()] up to [await api.summary()]. *)
Definition load (o : Origin) (q since until : string) (s : State) : State :=
  issue Api.summary (AwaitSummary o q since until) s.

(** The two [catch] handlers: the effect on [[authed]] shows
    [String(e.message || e)], the debounce timer swallows the error. *)
Definition load_rejected (o : Origin) (name message : string) (s : State) : State :=
  match o with
  | FromAuthEffect =>
      s |> setError (Some (if Js.truthy_string message then message else name))
  | FromDebounce => s
  end.

(** [v ? new Date(v).toISOString() : undefined]; the outer [None] is the
    [RangeError] of an invalid date. *)
Definition iso (legacy : string -> option string) (v : string) : option (option string) :=
  if Js.truthy_string v then
    match DateInput.toISOString legacy v with
    | Some i => Some (Some i)
    | None => None
    end
  else Some None.

(** [load()] from the summary to [await api.listDevices(...)]; the
    [RangeError] of an invalid date carries V8's message. *)
Definition load_summarized (o : Origin) (q since until : string) (v : Summary)
    (s : State) : State :=
  let s := s |> setSummary (Some v) in
  match iso (legacy_date s) since, iso (legacy_date s) until with
  | Some sinceIso, Some untilIso =>
      s |> issue (Api.listDevices q sinceIso untilIso) (AwaitDevices o)
  | _, _ => s |> load_rejected o "RangeError" "Invalid time value"
  end.

(** [load()] after the device list arrived. *)
Definition load_listed (ds : list Device) (s : State) : State :=
  s |> setDevices ds.

(** *** [logout] *)

Definition logout (s : State) : State :=
  s |> setToken None
    |> setTokenState None
    |> setDevices []
    |> setSelected None
    |> setLocationLogs []
    |> setSelectedLocation None.

(** *** [loadLocationLogs] *)

(** Up to [await api.getLocationLogs(deviceId)]. *)
Definition loadLocationLogs (deviceId : string) (s : State) : State :=
  s |> setLoadingLogs true
    |> setSelectedLocation None
    |> issue (Api.getLocationLogs deviceId None None) AwaitLogs.

(** The rest of the [try] block, then [finally]. *)
Definition loadLocationLogs_resolved (logs : list LocationLog) (s : State) : State :=
  let s := s |> setLocationLogs logs in
  let s := match logs with
           | first :: _ => s |> setSelectedLocation (Some first)
           | [] => s
           end in
  s |> setLoadingLogs false.

(** The [catch] block, then [finally]. *)
Definition loadLocationLogs_rejected (message : string) (s : State) : State :=
  s |> setError (Some (if Js.truthy_string message then message
                       else "Failed to load location logs"))
    |> setLocationLogs []
    |> setLoadingLogs false.

(** *** The three effects; [r] is the render that runs them *)

Definition effect_authed (r : Ui) (s : State) : State :=
  if negb (authed r) then s
  else s |> load FromAuthEffect (q r) (since r) (until r).

Definition effect_debounce (r : Ui) (s : State) : State :=
  let s := match cleanup s with
           | Some t => s |> clearTimeout t
           | None => s
           end in
  if negb (authed r) then s |> no_cleanup
  else s |> setTimeout 350 r.

(** [selected?.deviceId] *)
Definition selected_id (u : Ui) : option string := deviceId <$> selected u.

Definition effect_selected (r : Ui) (s : State) : State :=
  match selected_id r with
  | Some id =>
      if Js.truthy_string id then s |> loadLocationLogs id
      else s |> setLocationLogs [] |> setSelectedLocation None
  | None => s |> setLocationLogs [] |> setSelectedLocation None
  end.

(** What the three effects depend on: [authed], the search inputs, and
    [selected?.deviceId]. *)
Definition deps (u : Ui) : bool * (string * string * string) * option string :=
  (authed u, (q u, since u, until u), selected_id u).

(** After a render React runs the effects whose dependencies differ from
    those of the previous render [prev], in the order of their hooks. *)
Definition commit (prev : Ui) (s : State) : State :=
  let r := ui s in
  let s := if bool_decide (authed prev = authed r) then s else s |> effect_authed r in
  let s := if bool_decide ((q prev, since prev, until prev) = (q r, since r, until r))
           then s else s |> effect_debounce r in
  if bool_decide (selected_id prev = selected_id r) then s else s |> effect_selected r.

(** The first render: the token is read from storage, every effect runs.
    The component is mounted in a browser, which has its storage and its
    way with dates. *)
Definition initial_ui (storage : gmap string string) : Ui :=
  mkUi (Api.getToken storage) None None "" "" "" [] None [] None false.

Definition mount (legacy : string -> option string) (storage : gmap string string)
  : State :=
  let r := initial_ui storage in
  mkState r storage 0 [] None [] [] 0 legacy
    |> effect_authed r |> effect_debounce r |> effect_selected r.

(** *** What is rendered for the selected device *)

(** The four properties passed to [<MapPreview>]. *)
Definition props (u : Ui) (d : Device) : MapPreview.Props :=
  MapPreview.mkProps
    (Js.or_else Js.truthy_number (lat <$> selectedLocation u) (loc_lat <$> lastLocation d))
    (Js.or_else Js.truthy_number (lng <$> selectedLocation u) (loc_lng <$> lastLocation d))
    (Js.or_else Js.truthy_string (timestamp <$> selectedLocation u)
       (lastLocation d ≫= loc_timestamp))
    (Js.or_else Js.truthy_string (selectedLocation u ≫= address)
       (lastLocation d ≫= loc_address)).

(** The map properties when no log entry is selected: those of the
    device's own [lastLocation]. *)
Definition last_known (d : Device) : MapPreview.Props :=
  MapPreview.mkProps
    (loc_lat <$> lastLocation d) (loc_lng <$> lastLocation d)
    (lastLocation d ≫= loc_timestamp) (lastLocation d ≫= loc_address).

(** The body of the "Location History" box. *)
Inductive LogsBody :=
| LoadingLogs
| NoLogs
| Rows (rows : list LocationLog).

Definition logs_body (u : Ui) : LogsBody :=
  if loadingLogs u then LoadingLogs
  else match locationLogs u with
       | [] => NoLogs
       | rows => Rows rows
       end.

(** The detail column: the device, the map properties, the number in the
    "Location History (n entries)" heading, and the box below it. *)
Record Detail := mkDetail {
  shown : Device;
  map_props : MapPreview.Props;
  entries : nat;
  body : LogsBody }.

Definition render (u : Ui) : option Detail :=
  if authed u then
    match selected u with
    | Some d => Some (mkDetail d (props u d) (length (locationLogs u)) (logs_body u))
    | None => None
    end
  else None.

(** *** Events *)

Inductive Event :=
| ChangeQ (v : string)
| ChangeSince (v : string)
| ChangeUntil (v : string)
| ClickDevice (i : nat)       (* the i-th row of the device list *)
| ClickLog (i : nat)          (* the i-th row of the location history *)
| ClickLogout
| Elapse (ms : nat)           (* time passes; the timeouts that are due run *)
| Settle (id : nat) (r : Reply).

(** A timeout callback: [load().catch(() => {})]. *)
Definition fire (s : State) (tm : Timer) : State :=
  s |> load FromDebounce (t_q tm) (t_since tm) (t_until tm).

Definition elapse (ms : nat) (s : State) : State :=
  let t := now s + ms in
  let due := List.filter (fun tm => Nat.leb (deadline tm) t) (timers s) in
  let later := List.filter (fun tm => negb (Nat.leb (deadline tm) t)) (timers s) in
  fold_left fire due
    (mkState (ui s) (localStorage s) t later (cleanup s)
             (pending s) (sent s) (next_id s) (legacy_date s)).

Definition task_of (id : nat) (s : State) : option Task :=
  snd <$> find (fun p => Nat.eqb (fst p) id) (pending s).

Definition forget (id : nat) (s : State) : State :=
  mkState (ui s) (localStorage s) (now s) (timers s) (cleanup s)
          (List.filter (fun p => negb (Nat.eqb (fst p) id)) (pending s))
          (sent s) (next_id s) (legacy_date s).

(** The continuation of a suspended function for a reply of the type its
    call is declared to return, or a rejection. *)
Definition resume (k : Task) (r : Reply) : option (State -> State) :=
  match k, r with
  | AwaitSummary o q since until, Summarized v => Some (load_summarized o q since until v)
  | AwaitSummary o _ _ _, Rejected name message => Some (load_rejected o name message)
  | AwaitDevices _, DeviceList ds => Some (load_listed ds)
  | AwaitDevices o, Rejected name message => Some (load_rejected o name message)
  | AwaitLogs, LogList logs => Some (loadLocationLogs_resolved logs)
  | AwaitLogs, Rejected _ message => Some (loadLocationLogs_rejected message)
  | _, _ => None
  end.

Definition settle (id : nat) (r : Reply) (s : State) : State :=
  match task_of id s with
  | Some k =>
      match resume k r with
      | Some continue => s |> forget id |> continue
      | None => s
      end
  | None => s
  end.

(** The handlers; an element that is not rendered cannot be used. *)
Definition handle (e : Event) (s : State) : State :=
  let u := ui s in
  match e with
  | ChangeQ v => if authed u then s |> setQ v else s
  | ChangeSince v => if authed u then s |> setSince v else s
  | ChangeUntil v => if authed u then s |> setUntil v else s
  | ClickDevice i =>
      match devices u !! i with
      | Some d => if authed u then s |> setSelected (Some d) else s
      | None => s
      end
  | ClickLog i =>
      match render u with
      | Some (mkDetail _ _ _ (Rows rows)) =>
          match rows !! i with
          | Some l => s |> setSelectedLocation (Some l)
          | None => s
          end
      | _ => s
      end
  | ClickLogout => if authed u then s |> logout else s
  | Elapse ms => s |> elapse ms
  | Settle id r => s |> settle id r
  end.

(** One event: its handler, then the effects of the render that follows.
    The render between the two is not observed on its own. *)
Definition step (s : State) (e : Event) : State :=
  commit (ui s) (handle e s).

Definition run (s : State) (es : list Event) : State :=
  fold_left step es s.

(** The [listDevices] calls among the requests issued so far. *)
Definition listDevices_calls (s : State) : list (list (string * string)) :=
  flat_map (fun r => match call r with
                     | Api.ListDevices query => [query]
                     | _ => []
                     end) (sent s).

Definition summary_calls (s : State) : nat :=
  length (List.filter (fun r => match call r with Api.Summary => true | _ => false end) (sent s)).

End App.

(** ** Bursts of changes to the search inputs *)
Module Burst.
Import App.

(** One edit of the text box or of one of the two date boxes. *)
Inductive Change :=
| NewQ (v : string)
| NewSince (v : string)
| NewUntil (v : string).

Definition event_of (c : Change) : Event :=
  match c with
  | NewQ v => ChangeQ v
  | NewSince v => ChangeSince v
  | NewUntil v => ChangeUntil v
  end.

(** The values of [q], [since] and [until]. *)
Definition inputs (u : Ui) : string * string * string := (q u, since u, until u).

Definition changed (c : Change) (i : string * string * string)
  : string * string * string :=
  match c with
  | NewQ v => (v, snd (fst i), snd i)
  | NewSince v => (fst (fst i), v, snd i)
  | NewUntil v => (fst (fst i), snd (fst i), v)
  end.

(** The events of the changes that follow the first one, each after its gap. *)
Fixpoint events (rest : list (nat * Change)) : list Event :=
  match rest with
  | [] => []
  | (gap, c) :: more => Elapse gap :: event_of c :: events more
  end.

(** Every gap is shorter than the debounce window and every change is a
    change: it leaves the inputs different from what they were. *)
Fixpoint rapid (cur : string * string * string) (rest : list (nat * Change)) : Prop :=
  match rest with
  | [] => True
  | (gap, c) :: more =>
      gap < 350 /\ changed c cur <> cur /\ rapid (changed c cur) more
  end.

(** The inputs after the last change. *)
Fixpoint final (cur : string * string * string) (rest : list (nat * Change))
  : string * string * string :=
  match rest with
  | [] => cur
  | (_, c) :: more => final (changed c cur) more
  end.

(** The only timeout that can be pending is the one the debounce effect
    is going to clear. *)
Definition own_timer (s : State) : Prop :=
  Forall (fun tm => cleanup s = Some (timer_id tm)) (timers s).

(** The calls in flight were numbered before [next_id]. *)
Definition fresh_ids (s : State) : Prop :=
  Forall (fun p => fst p < next_id s) (pending s).

(** Both conditions on the numbering of timeouts and calls. *)
Definition numbering_ok (s : State) : Prop := own_timer s /\ fresh_ids s.

(** The states the dashboard can be in: it is mounted on some storage and
    then takes events. *)
Inductive reachable : State -> Prop :=
| reachable_mount (legacy : string -> option string) (storage : gmap string string) :
    reachable (mount legacy storage)
| reachable_step (s : State) (e : Event) : reachable s -> reachable (step s e).

(** The [load()] that a timer started, suspended at [await api.summary()]. *)
Definition load_started (id : nat) (i : string * string * string) : nat * Task :=
  (id, AwaitSummary FromDebounce (fst (fst i)) (snd (fst i)) (snd i)).

(** The handler of a change. *)
Definition set_inputs (c : Change) (s : State) : State :=
  match c with
  | NewQ v => setQ v s
  | NewSince v => setSince v s
  | NewUntil v => setUntil v s
  end.

(** The component's variables with the three inputs replaced. *)
Definition with_inputs (i : string * string * string) (u : Ui) : Ui :=
  mkUi (token u) (error u) (summary u) (fst (fst i)) (snd (fst i)) (snd i)
       (devices u) (selected u) (locationLogs u) (selectedLocation u) (loadingLogs u).

(** The timeout set at time [t] by a render with inputs [i]. *)
Definition timer_for (id t : nat) (i : string * string * string) : Timer :=
  mkTimer id (t + 350) (fst (fst i)) (snd (fst i)) (snd i).

(** The state [s] with other variables [u], at time [t], in which the
    timeout [tm] is pending and is the one the effect will clear. *)
Definition armed (s : State) (u : Ui) (t : nat) (tm : Timer) (next : nat) : State :=
  mkState u (localStorage s) t [tm] (Some (timer_id tm)) (pending s) (sent s) next
          (legacy_date s).

End Burst.

(** ** Sample data for the worked scenarios *)
Module Sample.
Import App.

Definition home : LastLocation := mkLastLocation 1 2 None None.

Definition phone : Device :=
  mkDevice "A" "Phone" "P8" "14" "2024-01-01" None ACTIVE (Some home).

Definition tablet : Device :=
  mkDevice "B" "Tablet" "T2" "13" "2024-01-01" None OFFLINE (Some home).

Definition L1 : LocationLog :=
  mkLocationLog "L1" "A" 10 20 None "2024-01-02T00:00:00Z" "2024-01-02T00:00:05Z".

Definition L2 : LocationLog :=
  mkLocationLog "L2" "A" 11 21 (Some "Main St") "2024-01-01T00:00:00Z" "2024-01-01T00:00:05Z".

(** A device whose last known location has an address. *)
Definition desk : LastLocation := mkLastLocation 5 6 (Some "Office") None.

Definition laptop : Device :=
  mkDevice "C" "Laptop" "L5" "11" "2024-01-01" None ACTIVE (Some desk).

(** An entry on the equator. *)
Definition L0 : LocationLog :=
  mkLocationLog "L0" "A" 0 20 None "2024-01-03T00:00:00Z" "2024-01-03T00:00:05Z".

Definition counts : Summary := mkSummary 2 1 1.

(** A browser in the UTC time zone, as far as the scenarios go: its legacy
    parser reads a day of a year of five digits as midnight of that day,
    and makes nothing of the other texts that are tried. *)
Definition browser (v : string) : option string :=
  if String.eqb v "12345-01-01" then Some "+012345-01-01T00:00:00.000Z" else None.

(** A signed-in dashboard after its first loads: request 0 is the summary
    of the load started on mount, 2 its device list, 3 the summary of the
    load started by the first debounce timer, 4 its device list. *)
Definition signed_in : State :=
  run (mount browser (<["adminToken" := "tok"]> ∅))
      [ Settle 0 (Summarized counts); Settle 2 (DeviceList [phone; tablet]);
        Elapse 350;
        Settle 3 (Summarized counts); Settle 4 (DeviceList [phone; tablet]) ].

(** The phone is selected and its two log entries are shown (request 5). *)
Definition phone_open : State :=
  run signed_in [ClickDevice 0; Settle 5 (LogList [L1; L2])].

(** Two searches in flight: request 7 lists the devices for "Pho",
    request 10, issued later, those for "Tab". *)
Definition two_searches : State :=
  run signed_in
    [ ChangeQ "Pho"; Elapse 350; Settle 6 (Summarized counts);
      ChangeQ "Tab"; Elapse 350; Settle 9 (Summarized counts) ].

(** The double quote, and a JSON text with one string member. *)
Definition quote : string := String (ascii_of_N 34) "".

Definition object_with (key value : string) : string :=
  "{" ++ quote ++ key ++ quote ++ ":" ++ quote ++ value ++ quote ++ "}".

End Sample.

(** ** What can be observed of a running dashboard *)
Module Watch.
Import App.

Definition is_logs_call (r : Request) : bool :=
  match call r with
  | Api.GetLocationLogs _ _ => true
  | _ => false
  end.

(** The [getLocationLogs] calls among the requests issued so far. *)
Definition logs_calls (s : State) : list Request := List.filter is_logs_call (sent s).

(** At most one timeout is pending, and it is the one the debounce effect
    is going to clear. *)
Definition one_timer (s : State) : Prop :=
  timers s = [] \/ exists tm, timers s = [tm] /\ cleanup s = Some (timer_id tm).

(** The calls in flight have distinct ids below [next_id], and the loading
    flag is only up while a [getLocationLogs] call is in flight. *)
Definition loading_backed (s : State) : Prop :=
  NoDup (map fst (pending s))
  /\ Forall (fun p => fst p < next_id s) (pending s)
  /\ (loadingLogs (ui s) = true -> exists id, In (id, AwaitLogs) (pending s)).




(** The stored token and the token state. *)
Definition session (s : State) : gmap string string * option string :=
  (localStorage s, token (ui s)).

(** The two agree: equal when the dashboard is shown, both falsy when the
    login form is shown. *)
Definition session_in_step (s : State) : Prop :=
  (authed (ui s) = true /\ Api.getToken (localStorage s) = token (ui s))
  \/ (authed (ui s) = false
      /\ Js.truthy_opt Js.truthy_string (Api.getToken (localStorage s)) = false).

End Watch.

(** ** The date filters as [load] sends them *)
Module Filter.

(** A date box contributes nothing when empty, and otherwise the start of
    its day in UTC. *)
Definition date_param (name value : string) : list (string * string) :=
  if Js.truthy_string value then [(name, value ++ "T00:00:00.000Z")] else [].

(** An empty date box, or one that holds a day of the calendar of a year
    of four digits. *)
Definition date_box (value : string) : bool :=
  negb (Js.truthy_string value) || DateInput.valid value.

End Filter.

(** ** The paths [api.ts] requests *)
(** Strings stand for their UTF-8 bytes, as in the fingerprint helper, so
    escaping a character is escaping each of its bytes. *)
Module Url.

Definition alphanumeric (c : ascii) : bool :=
  let n := N_of_ascii c in
  (((48 <=? n) && (n <=? 57)) || ((65 <=? n) && (n <=? 90))
   || ((97 <=? n) && (n <=? 122)))%N.

Definition one_of (set : string) (c : ascii) : bool :=
  existsb (Ascii.eqb c) (list_ascii_of_string set).

Definition upper_hex (d : N) : ascii :=
  if (d <? 10)%N then ascii_of_N (48 + d) else ascii_of_N (55 + d).

(** [%XX] for one byte. *)
Definition percent (c : ascii) : string :=
  String "%" (String (upper_hex (N_of_ascii c / 16))
                (String (upper_hex (N_of_ascii c mod 16)) "")).

(** [encodeURIComponent]: letters, digits and [- _ . ! ~ * ' ( )] stay,
    every other byte is escaped. *)
Definition component_char (c : ascii) : string :=
  if alphanumeric c || one_of "-_.!~*'()" c then String c "" else percent c.

Fixpoint encodeURIComponent (s : string) : string :=
  match s with
  | EmptyString => ""
  | String c rest => component_char c ++ encodeURIComponent rest
  end.

(** The serializer of [URLSearchParams]: letters, digits and [* - . _]
    stay, a space becomes [+], every other byte is escaped. *)
Definition form_char (c : ascii) : string :=
  if alphanumeric c || one_of "*-._" c then String c ""
  else if Ascii.eqb c " " then "+"
  else percent c.

Fixpoint form_encode (s : string) : string :=
  match s with
  | EmptyString => ""
  | String c rest => form_char c ++ form_encode rest
  end.

(** [sp.toString()]. *)
Definition toString (sp : list (string * string)) : string :=
  Js.join "&" (map (fun p => form_encode (fst p) ++ "=" ++ form_encode (snd p)) sp).

(** The path each call hands to [request]. *)
Definition path (c : Api.Call) : string :=
  match c with
  | Api.Summary => "/api/admin/devices/summary"
  | Api.ListDevices sp => "/api/admin/devices?" ++ toString sp
  | Api.GetLocationLogs deviceId sp =>
      let query := toString sp in
      "/api/admin/devices/" ++ encodeURIComponent deviceId ++ "/logs"
      ++ (if Js.truthy_string query then "?" ++ query else "")
  end.

(** [api.getDevice], which the dashboard does not call. *)
Definition getDevice (deviceId : string) : string :=
  "/api/admin/devices/" ++ encodeURIComponent deviceId.

(** [API_BASE], from the build's environment. *)
Definition API_BASE (VITE_API_BASE : option string) : string :=
  Js.or_default Js.truthy_string VITE_API_BASE "http://localhost:8080".

(** The first argument of [fetch]. *)
Definition url (VITE_API_BASE : option string) (c : Api.Call) : string :=
  API_BASE VITE_API_BASE ++ path c.

(** The characters that end a path segment or separate parameters. *)
Definition delimiter (c : ascii) : bool := one_of "/?#&=+ " c.

(** Reading back what [component_char] wrote, to see that nothing is lost. *)
Definition unhex (c : ascii) : option N :=
  let n := N_of_ascii c in
  if ((48 <=? n) && (n <=? 57))%N then Some (n - 48)%N
  else if ((65 <=? n) && (n <=? 70))%N then Some (n - 55)%N
  else None.

Definition read_char (s : string) : option (ascii * string) :=
  match s with
  | EmptyString => None
  | String c rest =>
      if Ascii.eqb c "%" then
        match rest with
        | String h (String l rest') =>
            match unhex h, unhex l with
            | Some a, Some b => Some (ascii_of_N (16 * a + b), rest')
            | _, _ => None
            end
        | _ => None
        end
      else Some (c, rest)
  end.

End Url.

(** ** The two forms of [App.tsx]: [onLogin] and [onChangePassword] *)
Module Forms.
Import App.

(** The object a form hands to [JSON.stringify] for the body of its POST. *)
Inductive Body :=
| Credentials (email password fingerprint : string)  (* [api.login] *)
| Passwords (oldPassword newPassword : string).      (* [api.changePassword] *)

Definition post_path (b : Body) : string :=
  match b with
  | Credentials _ _ _ => "/api/admin/auth/login"
  | Passwords _ _ => "/api/admin/auth/change-password"
  end.

Record Post := mkPost {
  post_id : nat;
  post_body : Body;
  post_authorization : option string }.

(** A submit handler suspended at an [await], with the variables of the
    render it was created in that its continuation still reads. *)
Inductive Step :=
| LoginFingerprint (email password q since until : string)
                             (* at [await getDeviceFingerprint()] *)
| LoginReply (q since until : string)    (* at [await api.login(...)] *)
| LoginSummary (q since until : string)  (* in [await load()], at [await api.summary()] *)
| LoginDevices                           (* in [await load()], at [await api.listDevices(...)] *)
| PasswordReply.                         (* at [await api.changePassword(...)] *)

(** What an awaited promise settles with. *)
Inductive Answer :=
| Fingerprint (hex : string)
| Session (token : string)   (* [resp.token] of [login] and of [changePassword] *)
| Counters (v : Summary)
| Devices (ds : list Device)
| Failure (name message : string).

(** The page: the dashboard of module [App], the four state variables of
    the forms, the suspended submit handlers and the POSTs issued. *)
Record Page := mkPage {
  app : State;
  email : string;
  password : string;
  oldPassword : string;
  newPassword : string;
  waiting : list (nat * Step);
  posted : list Post }.

Definition with_app (f : State -> State) (p : Page) : Page :=
  mkPage (f (app p)) (email p) (password p) (oldPassword p) (newPassword p)
         (waiting p) (posted p).

Definition setEmail (v : string) (p : Page) : Page :=
  mkPage (app p) v (password p) (oldPassword p) (newPassword p) (waiting p) (posted p).
Definition setPassword (v : string) (p : Page) : Page :=
  mkPage (app p) (email p) v (oldPassword p) (newPassword p) (waiting p) (posted p).
Definition setOldPassword (v : string) (p : Page) : Page :=
  mkPage (app p) (email p) (password p) v (newPassword p) (waiting p) (posted p).
Definition setNewPassword (v : string) (p : Page) : Page :=
  mkPage (app p) (email p) (password p) (oldPassword p) v (waiting p) (posted p).

(** The next number is taken, for a promise or a call. *)
Definition numbered (s : State) : State :=
  mkState (ui s) (localStorage s) (now s) (timers s) (cleanup s)
          (pending s) (sent s) (S (next_id s)) (legacy_date s).

(** A GET issued by [request] whose caller is a submit handler. *)
Definition send (c : Api.Call) (s : State) : State :=
  mkState (ui s) (localStorage s) (now s) (timers s) (cleanup s) (pending s)
          (sent s ++ [mkRequest (next_id s) c
                        (Api.headers (localStorage s) ∅ !! "authorization")])
          (S (next_id s)) (legacy_date s).

(** The handler suspends as [k] on a promise that is not a call. *)
Definition suspend (k : Step) (p : Page) : Page :=
  mkPage (numbered (app p)) (email p) (password p) (oldPassword p) (newPassword p)
         (waiting p ++ [(next_id (app p), k)]) (posted p).

(** [request(path, { method: "POST", body })], the handler suspending as [k]. *)
Definition post (b : Body) (k : Step) (p : Page) : Page :=
  mkPage (numbered (app p)) (email p) (password p) (oldPassword p) (newPassword p)
         (waiting p ++ [(next_id (app p), k)])
         (posted p ++ [mkPost (next_id (app p)) b
                         (Api.headers (localStorage (app p)) ∅ !! "authorization")]).

(** A call of [load()] awaited by [onLogin], the handler suspending as [k]. *)
Definition get (c : Api.Call) (k : Step) (p : Page) : Page :=
  mkPage (send c (app p)) (email p) (password p) (oldPassword p) (newPassword p)
         (waiting p ++ [(next_id (app p), k)]) (posted p).

(** *** [onLogin] *)

(** [catch (err) { setError(err.message || "Login failed") }] *)
Definition onLogin_rejected (message : string) : Page -> Page :=
  with_app (setError (Some (if Js.truthy_string message then message
                            else "Login failed"))).

(** Up to [await getDeviceFingerprint()]. *)
Definition onLogin (p : Page) : Page :=
  let u := ui (app p) in
  p |> with_app (setError None)
    |> suspend (LoginFingerprint (email p) (password p) (q u) (since u) (until u)).

(** Up to [await api.login(...)]. *)
Definition onLogin_fingerprinted (email password q since until fingerprint : string)
    (p : Page) : Page :=
  p |> post (Credentials email password fingerprint) (LoginReply q since until).

(** From the reply to [await api.summary()] inside [await load()]. *)
Definition onLogin_answered (q since until token : string) (p : Page) : Page :=
  p |> with_app (App.setToken (Some token))
    |> with_app (setTokenState (Some token))
    |> setEmail ""
    |> setPassword ""
    |> get Api.summary (LoginSummary q since until).

(** [load()] from the summary to [await api.listDevices(...)]. *)
Definition onLogin_summarized (q since until : string) (v : Summary) (p : Page) : Page :=
  let p := p |> with_app (setSummary (Some v)) in
  match iso (legacy_date (app p)) since, iso (legacy_date (app p)) until with
  | Some sinceIso, Some untilIso =>
      p |> get (Api.listDevices q sinceIso untilIso) LoginDevices
  | _, _ => p |> onLogin_rejected "Invalid time value"
  end.

(** The end of [load()] and of [onLogin]. *)
Definition onLogin_listed (ds : list Device) : Page -> Page :=
  with_app (setDevices ds).

(** *** [onChangePassword] *)

(** Up to [await api.changePassword(...)]. *)
Definition onChangePassword (p : Page) : Page :=
  p |> with_app (setError None)
    |> post (Passwords (oldPassword p) (newPassword p)) PasswordReply.

Definition onChangePassword_answered (token : string) (p : Page) : Page :=
  p |> with_app (App.setToken (Some token))
    |> with_app (setTokenState (Some token))
    |> setOldPassword ""
    |> setNewPassword "".

(** [catch (err) { setError(err.message || "Change password failed") }] *)
Definition onChangePassword_rejected (message : string) : Page -> Page :=
  with_app (setError (Some (if Js.truthy_string message then message
                            else "Change password failed"))).

(** *** Events *)

Inductive Event :=
| Dashboard (e : App.Event)      (* an event of the dashboard *)
| ChangeEmail (v : string)
| ChangePassword (v : string)
| ChangeOldPassword (v : string)
| ChangeNewPassword (v : string)
| SubmitLogin
| SubmitChangePassword
| Settled (id : nat) (a : Answer).

Definition task_of (id : nat) (p : Page) : option Step :=
  snd <$> find (fun w => Nat.eqb (fst w) id) (waiting p).

Definition forget (id : nat) (p : Page) : Page :=
  mkPage (app p) (email p) (password p) (oldPassword p) (newPassword p)
         (List.filter (fun w => negb (Nat.eqb (fst w) id)) (waiting p)) (posted p).

(** The continuation of a suspended handler for what its promise is
    declared to resolve with, or a rejection. *)
Definition resume (k : Step) (a : Answer) : option (Page -> Page) :=
  match k, a with
  | LoginFingerprint email password q since until, Fingerprint hex =>
      Some (onLogin_fingerprinted email password q since until hex)
  | LoginReply q since until, Session token => Some (onLogin_answered q since until token)
  | LoginSummary q since until, Counters v => Some (onLogin_summarized q since until v)
  | LoginDevices, Devices ds => Some (onLogin_listed ds)
  | PasswordReply, Session token => Some (onChangePassword_answered token)
  | PasswordReply, Failure _ message => Some (onChangePassword_rejected message)
  | _, Failure _ message => Some (onLogin_rejected message)
  | _, _ => None
  end.

Definition settle (id : nat) (a : Answer) (p : Page) : Page :=
  match task_of id p with
  | Some k =>
      match resume k a with
      | Some continue => p |> forget id |> continue
      | None => p
      end
  | None => p
  end.

(** The handlers; the login form is rendered when [authed] is false, the
    dashboard with the password form when it is true. *)
Definition handle (e : Event) (p : Page) : Page :=
  let signed_in := authed (ui (app p)) in
  match e with
  | Dashboard e => p |> with_app (App.handle e)
  | ChangeEmail v => if signed_in then p else p |> setEmail v
  | ChangePassword v => if signed_in then p else p |> setPassword v
  | ChangeOldPassword v => if signed_in then p |> setOldPassword v else p
  | ChangeNewPassword v => if signed_in then p |> setNewPassword v else p
  | SubmitLogin => if signed_in then p else p |> onLogin
  | SubmitChangePassword => if signed_in then p |> onChangePassword else p
  | Settled id a => p |> settle id a
  end.

(** One event: its handler, then the effects of the render that follows,
    which are those of the dashboard. *)
Definition step (p : Page) (e : Event) : Page :=
  handle e p |> with_app (commit (ui (app p))).

Definition run (p : Page) (es : list Event) : Page :=
  fold_left step es p.

Definition mount (legacy : string -> option string) (storage : gmap string string)
  : Page :=
  mkPage (App.mount legacy storage) "" "" "" "" [] [].

(** The states the page can be in. *)
Inductive reachable : Page -> Prop :=
| reachable_mount (legacy : string -> option string) (storage : gmap string string) :
    reachable (mount legacy storage)
| reachable_step (p : Page) (e : Event) : reachable p -> reachable (step p e).

(** What was asked of the server by GET, without the numbering. *)
Definition asked (p : Page) : list (Api.Call * option string) :=
  map (fun r => (call r, authorization r)) (sent (app p)).

End Forms.

(** * Properties *)

(** ** Sanity checks of the platform models *)

Example sha256_abc :
  Fingerprint.sha256Hex "abc"
  = "ba7816bf8f01cfea414140de5dae2223b00361a396177a9cb410ff61f20015ad".
Proof. vm_compute. reflexivity. Qed.

Example sha256_empty :
  Fingerprint.sha256Hex ""
  = "e3b0c44298fc1c149afbf4c8996fb92427ae41e4649b934ca495991b7852b855".
Proof. vm_compute. reflexivity. Qed.

Example sha256_two_blocks :
  Fingerprint.sha256Hex "abcdbcdecdefdefgefghfghighijhijkijkljklmklmnlmnomnopnopq"
  = "248d6a61d20638b8e5c026930c3e6039a33ce45964ff2167f6ecedd419db06c1".
Proof. vm_compute. reflexivity. Qed.

Example parse_nested :
  Json.parse " [1, 2.50e-3, true, null, {}, [[]]] "
  = Some (Json.Array
            [ Json.Number (Json.mkDecimal false 1 0);
              Json.Number (Json.mkDecimal false 250 (-5));
              Json.Bool true; Json.Null; Json.Object []; Json.Array [Json.Array []] ]).
Proof. vm_compute. reflexivity. Qed.

Example parse_rejects :
  map Json.parse ["01"; "1 2"; "[1,]"; "{,}"; "-"; "1."; "nul"; "truefalse"; "[}"; "{1:2}"]
  = repeat None 10.
Proof. vm_compute. reflexivity. Qed.

Example number_zero_threshold :
  map (fun t => Json.truthy <$> Json.parse t)
      ["0.000e5"; "-0"; "1e-400"; "2.4703282292062327e-324";
       "2.4703282292062328e-324"; "5e-324"; "1e400"]
  = [Some false; Some false; Some false; Some false; Some true; Some true; Some true].
Proof. vm_compute. reflexivity. Qed.

Example date_values :
  map (DateInput.toISOString Sample.browser)
      ["2024-02-29"; "2023-02-29"; "2023-04-31"; "0001-12-31";
       "2024-13-01"; "2024-02-32"; "2024-00-10"; "tomorrow"; "12345-01-01"]
  = [Some "2024-02-29T00:00:00.000Z"; Some "2023-03-01T00:00:00.000Z";
     Some "2023-05-01T00:00:00.000Z"; Some "0001-12-31T00:00:00.000Z";
     None; None; None; None; Some "+012345-01-01T00:00:00.000Z"].
Proof. vm_compute. reflexivity. Qed.

(** The two conversions of a [load()], case by case. *)
Ltac iso_cases since until :=
  match goal with
  | |- context [App.iso ?legacy since] =>
      destruct (App.iso legacy since); destruct (App.iso legacy until)
  end.

(** ** Dates *)

Lemma digit_char_digit (c : ascii) (d : N) :
  DateInput.digit c = Some d -> Js.digit_char d = c /\ (d < 10)%N.
Proof. destruct c as [[] [] [] [] [] [] [] []]; cbv; intros [= <-]; by split. Qed.

Lemma two_digits_number (a b : ascii) (n : N) :
  DateInput.number [a; b] = Some n -> DateInput.two_digits n = String a (String b "").
Proof.
  unfold DateInput.number. cbn [fold_left].
  destruct (DateInput.digit a) as [x|] eqn:Ha; [|discriminate].
  destruct (DateInput.digit b) as [y|] eqn:Hb; [|discriminate].
  intros [= <-].
  destruct (digit_char_digit a x Ha) as [<- Hx].
  destruct (digit_char_digit b y Hb) as [<- Hy].
  unfold DateInput.two_digits.
  assert (H1 : (((0 * 10 + x) * 10 + y) / 10 = x)%N)
    by (symmetry; apply (N.div_unique _ _ _ y); lia).
  assert (H2 : (((0 * 10 + x) * 10 + y) mod 10 = y)%N)
    by (symmetry; apply (N.mod_unique _ _ x); lia).
  by rewrite H1, H2.
Qed.

Lemma four_digits_number (a b c d : ascii) (n : N) :
  DateInput.number [a; b; c; d] = Some n ->
  DateInput.four_digits n = String a (String b (String c (String d ""))).
Proof.
  unfold DateInput.number. cbn [fold_left].
  destruct (DateInput.digit a) as [x|] eqn:Ha; [|discriminate].
  destruct (DateInput.digit b) as [y|] eqn:Hb; [|discriminate].
  destruct (DateInput.digit c) as [z|] eqn:Hc; [|discriminate].
  destruct (DateInput.digit d) as [w|] eqn:Hd; [|discriminate].
  intros [= <-].
  destruct (digit_char_digit a x Ha) as [<- Hx].
  destruct (digit_char_digit b y Hb) as [<- Hy].
  destruct (digit_char_digit c z Hc) as [<- Hz].
  destruct (digit_char_digit d w Hd) as [<- Hw].
  unfold DateInput.four_digits, DateInput.two_digits.
  set (n := ((((0 * 10 + x) * 10 + y) * 10 + z) * 10 + w)%N).
  assert (H1 : (n / 1000 = x)%N)
    by (symmetry; apply (N.div_unique _ _ _ (y * 100 + z * 10 + w)); subst n; lia).
  assert (H2 : (n / 100 = x * 10 + y)%N)
    by (symmetry; apply (N.div_unique _ _ _ (z * 10 + w)); subst n; lia).
  assert (H3 : ((x * 10 + y) mod 10 = y)%N)
    by (symmetry; apply (N.mod_unique _ _ x); lia).
  assert (H4 : (n mod 100 = z * 10 + w)%N)
    by (symmetry; apply (N.mod_unique _ _ (x * 10 + y)); subst n; lia).
  assert (H5 : ((z * 10 + w) / 10 = z)%N)
    by (symmetry; apply (N.div_unique _ _ _ w); lia).
  assert (H6 : ((z * 10 + w) mod 10 = w)%N)
    by (symmetry; apply (N.mod_unique _ _ z); lia).
  by rewrite H1, H2, H3, H4, H5, H6.
Qed.

Lemma days_in_month_31 (y m : N) : (DateInput.days_in_month y m <= 31)%N.
Proof.
  unfold DateInput.days_in_month.
  destruct (m =? 2)%N; [destruct (DateInput.leap y); lia|].
  destruct ((m =? 4) || (m =? 6) || (m =? 9) || (m =? 11))%N; lia.
Qed.

(** A day of the calendar is midnight UTC of that day, written as it was. *)
Lemma toISOString_valid (legacy : string -> option string) (v : string) :
  DateInput.valid v = true ->
  DateInput.toISOString legacy v = Some (v ++ "T00:00:00.000Z").
Proof.
  unfold DateInput.valid, DateInput.toISOString, DateInput.read.
  destruct v as [|y1 [|y2 [|y3 [|y4 [|s1 [|m1 [|m2 [|s2 [|d1 [|d2 [|x v]]]]]]]]]]];
    cbn [list_ascii_of_string]; try discriminate.
  destruct (DateInput.number [y1; y2; y3; y4]) as [y|] eqn:Hy; [|discriminate].
  destruct (DateInput.number [m1; m2]) as [m|] eqn:Hm; [|discriminate].
  destruct (DateInput.number [d1; d2]) as [d|] eqn:Hd; [|discriminate].
  intros H. repeat (apply andb_prop in H; destruct H as [H ?]).
  match goal with Hs : (s1 =? "-")%char = true |- _ => rewrite Hs end.
  match goal with Hs : (s2 =? "-")%char = true |- _ => rewrite Hs end.
  match goal with Hd' : (d <=? DateInput.days_in_month y m)%N = true |- _ =>
    pose proof Hd' as Hdim; apply N.leb_le in Hd' end.
  assert (H31 : (d <=? 31)%N = true)
    by (apply N.leb_le; pose proof (days_in_month_31 y m); lia).
  match goal with Hm' : (1 <=? m)%N = true |- _ => rewrite Hm' end.
  match goal with Hm' : (m <=? 12)%N = true |- _ => rewrite Hm' end.
  match goal with Hd' : (1 <=? d)%N = true |- _ => rewrite Hd' end.
  rewrite H31. cbn [andb]. unfold DateInput.roll. rewrite Hdim.
  unfold DateInput.midnight. cbn [fst snd].
  rewrite (four_digits_number _ _ _ _ _ Hy), (two_digits_number _ _ _ Hm),
    (two_digits_number _ _ _ Hd).
  apply Ascii.eqb_eq in H. subst s1.
  match goal with Hs : (s2 =? "-")%char = true |- _ => apply Ascii.eqb_eq in Hs; subst s2 end.
  reflexivity.
Qed.

(** ** The session token *)
Section Session.
Variable storage : gmap string string.

Lemma getToken_setToken_some (t : string) :
  Js.truthy_string t = true ->
  Api.getToken (Api.setToken (Some t) storage) = Some t.
Proof.
  intros Ht. unfold Api.getToken, Api.setToken. rewrite Ht. simpl.
  apply lookup_insert_eq.
Qed.

Lemma getToken_setToken_falsy (v : option string) :
  Js.truthy_opt Js.truthy_string v = false ->
  Api.getToken (Api.setToken v storage) = None.
Proof.
  intros Hv. unfold Api.getToken, Api.setToken.
  destruct v as [t|]; simpl in *; [rewrite Hv; simpl|]; apply lookup_delete_eq.
Qed.

Lemma setToken_other_keys (v : option string) (k : string) :
  k <> "adminToken" -> Api.setToken v storage !! k = storage !! k.
Proof.
  intros Hk. unfold Api.setToken.
  destruct v as [t|]; [destruct (Js.truthy_string t); simpl|].
  - by rewrite lookup_insert_ne.
  - by rewrite lookup_delete_ne.
  - by rewrite lookup_delete_ne.
Qed.
End Session.

Lemma truthy_string_nonempty (t : string) : t <> "" -> Js.truthy_string t = true.
Proof. destruct t; [congruence | reflexivity]. Qed.

(** C7, as the code has it.  A non-empty token written with [setToken] is
    what [getToken] returns afterwards, also as the first render after a
    reload reads it; writing [null] leaves [getToken] returning [null]; the
    empty string is falsy and clears the slot like [null]; no other key of
    the storage is touched. *)
Theorem session_read_after_write (storage : gmap string string) (t : string) :
  t <> "" ->
  Api.getToken (Api.setToken (Some t) storage) = Some t
  /\ Api.getToken (Api.setToken None storage) = None
  /\ Api.getToken (Api.setToken (Some "") storage) = None
  /\ App.token (App.initial_ui (Api.setToken (Some t) storage)) = Some t
  /\ App.token (App.initial_ui (Api.setToken None storage)) = None
  /\ (forall v k, k <> "adminToken" -> Api.setToken v storage !! k = storage !! k).
Proof.
  intros Ht. pose proof (truthy_string_nonempty t Ht) as Htruthy.
  split; [|split; [|split; [|split; [|split]]]].
  - by apply getToken_setToken_some.
  - by apply (getToken_setToken_falsy storage None).
  - by apply (getToken_setToken_falsy storage (Some "")).
  - by apply getToken_setToken_some.
  - by apply (getToken_setToken_falsy storage None).
  - intros v k Hk. by apply setToken_other_keys.
Qed.

Lemma session_read_after_write_witness :
  "tok" <> ""
  /\ Api.getToken (Api.setToken (Some "tok") (<["theme" := "dark"]> ∅)) = Some "tok".
Proof.
  split; [discriminate|].
  exact (proj1 (session_read_after_write (<["theme" := "dark"]> ∅) "tok"
                  ltac:(discriminate))).
Defined.

(** C7 as stated fails for the empty token: after [setToken("")] the slot is
    removed and [getToken()] returns [null], not [""]. *)
Lemma session_empty_token_not_read_back :
  Api.getToken (Api.setToken (Some "") (<["adminToken" := "old"]> ∅)) = None
  /\ Api.getToken (Api.setToken (Some "") (<["adminToken" := "old"]> ∅)) <> Some "".
Proof. split; [reflexivity | discriminate]. Qed.

(** ** Effects run only when their dependencies change *)

Lemma commit_unchanged (prev : App.Ui) (s : App.State) :
  App.deps prev = App.deps (App.ui s) -> App.commit prev s = s.
Proof.
  unfold App.deps. intros H. injection H as Ha Hq Hs.
  unfold App.commit. rewrite !bool_decide_true by congruence. reflexivity.
Qed.

Lemma ui_fire (due : list App.Timer) (s : App.State) :
  App.ui (fold_left App.fire due s) = App.ui s.
Proof.
  revert s. induction due as [|tm due IH]; intros s; [reflexivity|].
  simpl. by rewrite IH.
Qed.

Lemma ui_elapse (ms : nat) (s : App.State) : App.ui (App.elapse ms s) = App.ui s.
Proof. unfold App.elapse. by rewrite ui_fire. Qed.

Lemma deps_settle (id : nat) (r : App.Reply) (s : App.State) :
  App.deps (App.ui (App.settle id r s)) = App.deps (App.ui s).
Proof.
  unfold App.settle.
  destruct (App.task_of id s) as [k|]; [|reflexivity].
  destruct k as [o q0 since0 until0|o|], r as [v|ds|logs|name message];
    simpl; try reflexivity.
  - unfold App.load_summarized.
    iso_cases since0 until0; destruct o; reflexivity.
  - destruct o; reflexivity.
  - destruct o; reflexivity.
  - destruct logs; reflexivity.
Qed.

Lemma step_settle (s : App.State) (id : nat) (r : App.Reply) :
  App.step s (App.Settle id r) = App.settle id r s.
Proof. unfold App.step. simpl. apply commit_unchanged. by rewrite deps_settle. Qed.

Lemma step_elapse (s : App.State) (ms : nat) :
  App.step s (App.Elapse ms) = App.elapse ms s.
Proof. unfold App.step. simpl. apply commit_unchanged. by rewrite ui_elapse. Qed.

(** ** Logout *)

(** C9.  [logout], together with the effects of the render it causes, is one
    step: afterwards the stored token, the token state, the device list,
    the selection, the location logs and the selected location are all
    empty, whatever they were; this is what a click on "Logout" does.  The
    search inputs, the summary, the timeouts and the calls in flight are
    left as they were. *)
Theorem logout_clears_session_and_selection (s : App.State) :
  let s' := App.commit (App.ui s) (App.logout s) in
  Api.getToken (App.localStorage s') = None
  /\ App.token (App.ui s') = None
  /\ App.devices (App.ui s') = []
  /\ App.selected (App.ui s') = None
  /\ App.locationLogs (App.ui s') = []
  /\ App.selectedLocation (App.ui s') = None
  /\ (App.authed (App.ui s) = true -> App.step s App.ClickLogout = s')
  /\ Burst.inputs (App.ui s') = Burst.inputs (App.ui s)
  /\ App.summary (App.ui s') = App.summary (App.ui s)
  /\ App.timers s' = App.timers s
  /\ App.pending s' = App.pending s
  /\ App.sent s' = App.sent s.
Proof.
  destruct s as [u storage now timers cleanup pending sent next legacy].
  destruct u as [tok err sm q since until ds sel logs active loading].
  unfold App.commit, App.logout. simpl.
  rewrite (bool_decide_true ((q, since, until) = (q, since, until))) by reflexivity.
  assert (Hstored : Api.getToken (Api.setToken None storage) = None)
    by apply lookup_delete_eq.
  repeat case_bool_decide; simpl; repeat split; try assumption;
    intros Hauthed; unfold App.step; simpl in *; rewrite Hauthed;
    unfold App.commit, App.logout; simpl;
    rewrite (bool_decide_true ((q, since, until) = (q, since, until))) by reflexivity;
    repeat case_bool_decide; simpl; try reflexivity; congruence.
Qed.

(** ** The location shown on the map *)

Lemma or_else_some {A} (truthy : A -> bool) (a : A) (y : option A) :
  Js.or_else truthy (Some a) y = if truthy a then Some a else y.
Proof. reflexivity. Qed.

Lemma zero_is_falsy (x : float) : PrimFloat.is_zero x = true -> Js.truthy_number x = false.
Proof. intros H. unfold Js.truthy_number. by rewrite H. Qed.

(** C10.  With a log entry selected, each of the four map properties is
    the entry's field when that field is truthy and the field of the
    device's [lastLocation] otherwise, each on its own.  A latitude or
    longitude of zero is falsy, so it is replaced by the one of
    [lastLocation], and the marker can stand at a latitude from one source
    and a longitude from the other. *)
Theorem active_location_field_by_field
    (u : App.Ui) (d : App.Device) (l : App.LocationLog) :
  App.selectedLocation u = Some l ->
  let p := App.props u d in
  MapPreview.lat p
    = (if Js.truthy_number (App.lat l) then Some (App.lat l)
       else App.loc_lat <$> App.lastLocation d)
  /\ MapPreview.lng p
    = (if Js.truthy_number (App.lng l) then Some (App.lng l)
       else App.loc_lng <$> App.lastLocation d)
  /\ MapPreview.timestamp p
    = (if Js.truthy_string (App.timestamp l) then Some (App.timestamp l)
       else App.lastLocation d ≫= App.loc_timestamp)
  /\ MapPreview.address p
    = (if Js.truthy_opt Js.truthy_string (App.address l) then App.address l
       else App.lastLocation d ≫= App.loc_address)
  /\ (PrimFloat.is_zero (App.lat l) = true ->
      MapPreview.lat p = App.loc_lat <$> App.lastLocation d)
  /\ (PrimFloat.is_zero (App.lng l) = true ->
      MapPreview.lng p = App.loc_lng <$> App.lastLocation d)
  /\ (forall last,
        App.lastLocation d = Some last ->
        PrimFloat.is_zero (App.lat l) = true ->
        Js.truthy_number (App.lng l) = true ->
        MapPreview.marker (MapPreview.MapPreview p) = (App.loc_lat last, App.lng l)).
Proof.
  intros Hsel. unfold App.props. rewrite Hsel. simpl.
  rewrite !or_else_some.
  split; [reflexivity|]. split; [reflexivity|].
  split; [reflexivity|]. split; [reflexivity|].
  split; [|split].
  - intros Hz. by rewrite (zero_is_falsy _ Hz).
  - intros Hz. by rewrite (zero_is_falsy _ Hz).
  - intros last Hlast Hz Hlng.
    unfold MapPreview.MapPreview. simpl.
    rewrite (zero_is_falsy _ Hz), Hlng, Hlast. reflexivity.
Qed.

Lemma active_location_field_by_field_witness :
  App.selectedLocation
    (App.ui (App.setSelectedLocation (Some Sample.L0) Sample.phone_open))
  = Some Sample.L0
  /\ MapPreview.marker
       (MapPreview.MapPreview
          (App.props
             (App.ui (App.setSelectedLocation (Some Sample.L0) Sample.phone_open))
             Sample.phone))
     = (1%float, 20%float).
Proof.
  split; [reflexivity|].
  exact (proj2 (proj2 (proj2 (proj2 (proj2 (proj2
           (active_location_field_by_field
              (App.ui (App.setSelectedLocation (Some Sample.L0) Sample.phone_open))
              Sample.phone Sample.L0 eq_refl))))))
           Sample.home eq_refl eq_refl eq_refl).
Defined.

(** ** Loading the location logs *)

(** C4, as the code has it.  When the pending [getLocationLogs] call of
    [loadLocationLogs] resolves with a non-empty list, the list is stored as
    received, its first entry becomes the selected entry, the loading flag is
    dropped, and the history box shows the rows in that order.  When the
    latitude and the longitude of that entry are truthy, the map of the
    selected device is centred on them, at zoom 15 with the marker there,
    and its popup gives them with the entry's timestamp and address, each of
    the two replaced by that of the device's [lastLocation] when the entry's
    is empty or missing. *)
Theorem logs_loaded_first_entry_active
    (s : App.State) (id : nat) (first : App.LocationLog) (rest : list App.LocationLog) :
  App.task_of id s = Some App.AwaitLogs ->
  let s' := App.step s (App.Settle id (App.LogList (first :: rest))) in
  App.locationLogs (App.ui s') = first :: rest
  /\ App.selectedLocation (App.ui s') = Some first
  /\ App.loadingLogs (App.ui s') = false
  /\ App.logs_body (App.ui s') = App.Rows (first :: rest)
  /\ (forall d,
        App.authed (App.ui s) = true -> App.selected (App.ui s) = Some d ->
        App.render (App.ui s')
        = Some (App.mkDetail d (App.props (App.ui s') d) (S (length rest))
                  (App.Rows (first :: rest))))
  /\ (forall d,
        Js.truthy_number (App.lat first) = true ->
        Js.truthy_number (App.lng first) = true ->
        MapPreview.MapPreview (App.props (App.ui s') d)
        = MapPreview.mkLeaflet (App.lat first, App.lng first) 15
            (App.lat first, App.lng first)
            (Some (MapPreview.mkPopup (App.lat first) (App.lng first)
                     (if Js.truthy_string (App.timestamp first)
                      then Some (App.timestamp first)
                      else MapPreview.truthy_or_none
                             (App.lastLocation d ≫= App.loc_timestamp))
                     (if Js.truthy_opt Js.truthy_string (App.address first)
                      then App.address first
                      else MapPreview.truthy_or_none
                             (App.lastLocation d ≫= App.loc_address))))).
Proof.
  intros Htask. rewrite step_settle. unfold App.settle. rewrite Htask.
  cbn [App.resume].
  split; [reflexivity|]. split; [reflexivity|]. split; [reflexivity|].
  split; [reflexivity|]. split.
  - intros d Hauthed Hsel. unfold App.render.
    change (App.authed (App.ui (App.loadLocationLogs_resolved (first :: rest)
                                  (App.forget id s))))
      with (App.authed (App.ui s)).
    change (App.selected (App.ui (App.loadLocationLogs_resolved (first :: rest)
                                    (App.forget id s))))
      with (App.selected (App.ui s)).
    by rewrite Hauthed, Hsel.
  - intros d Hlat Hlng. unfold MapPreview.MapPreview, App.props.
    change (App.selectedLocation (App.ui (App.loadLocationLogs_resolved (first :: rest)
                                            (App.forget id s))))
      with (Some first).
    cbn [fmap option_fmap option_map mbind option_bind
         MapPreview.lat MapPreview.lng MapPreview.timestamp MapPreview.address].
    rewrite !or_else_some, Hlat, Hlng.
    unfold MapPreview.truthy_or_none.
    destruct (Js.truthy_string (App.timestamp first)) eqn:Hts;
      destruct (App.address first) as [a|]; cbn [Js.truthy_opt];
      rewrite ?Hts; try reflexivity.
    + unfold Js.or_else. cbn [Js.truthy_opt].
      destruct (Js.truthy_string a) eqn:Ha; cbn [Js.truthy_opt]; by rewrite ?Ha.
    + unfold Js.or_else. cbn [Js.truthy_opt].
      destruct (Js.truthy_string a) eqn:Ha; cbn [Js.truthy_opt]; by rewrite ?Ha.
Qed.

Lemma logs_loaded_first_entry_active_witness :
  let s := App.step Sample.signed_in (App.ClickDevice 0) in
  let s' := App.step s (App.Settle 5 (App.LogList [Sample.L1; Sample.L2])) in
  App.task_of 5 s = Some App.AwaitLogs
  /\ Js.truthy_number (App.lat Sample.L1) = true
  /\ Js.truthy_number (App.lng Sample.L1) = true
  /\ App.selectedLocation (App.ui s') = Some Sample.L1
  /\ MapPreview.marker (MapPreview.MapPreview (App.props (App.ui s') Sample.phone))
     = (App.lat Sample.L1, App.lng Sample.L1).
Proof.
  cbv zeta.
  assert (Htask : App.task_of 5 (App.step Sample.signed_in (App.ClickDevice 0))
                  = Some App.AwaitLogs) by (vm_compute; reflexivity).
  assert (Hlat : Js.truthy_number (App.lat Sample.L1) = true) by (vm_compute; reflexivity).
  assert (Hlng : Js.truthy_number (App.lng Sample.L1) = true) by (vm_compute; reflexivity).
  pose proof (logs_loaded_first_entry_active
                (App.step Sample.signed_in (App.ClickDevice 0)) 5
                Sample.L1 [Sample.L2] Htask) as H.
  cbv zeta in H.
  split; [exact Htask|]. split; [exact Hlat|]. split; [exact Hlng|].
  split; [exact (proj1 (proj2 H))|].
  rewrite (proj2 (proj2 (proj2 (proj2 (proj2 H)))) Sample.phone Hlat Hlng).
  reflexivity.
Defined.

(** C4 as stated fails for what the map shows.  With the entry on the
    equator first in the list, that entry is selected but the marker stands
    at the latitude of the phone's [lastLocation], a place that is neither
    the entry's nor the device's.  With the first entry of the claim's own
    list, which has no address, loaded for a device whose [lastLocation] has
    one, the popup shows the entry's position under that other address. *)
Lemma first_entry_is_not_what_the_map_shows :
  let equator := App.run Sample.signed_in
                   [App.ClickDevice 0; App.Settle 5 (App.LogList [Sample.L0; Sample.L2])] in
  let office := App.run (App.setDevices [Sample.laptop] Sample.signed_in)
                  [App.ClickDevice 0; App.Settle 5 (App.LogList [Sample.L1; Sample.L2])] in
  let map_of s :=
    (fun shown => MapPreview.MapPreview (App.map_props shown)) <$> App.render (App.ui s) in
  App.selectedLocation (App.ui equator) = Some Sample.L0
  /\ (App.lat Sample.L0, App.lng Sample.L0) = (0%float, 20%float)
  /\ App.lastLocation Sample.phone = Some (App.mkLastLocation 1 2 None None)
  /\ MapPreview.marker <$> map_of equator = Some (1%float, 20%float)
  /\ App.selectedLocation (App.ui office) = Some Sample.L1
  /\ App.address Sample.L1 = None
  /\ MapPreview.popup <$> map_of office
     = Some (Some (MapPreview.mkPopup 10 20 (Some "2024-01-02T00:00:00Z")
                     (Some "Office"))).
Proof. vm_compute. repeat split. Qed.

Lemma props_without_selection (u : App.Ui) (d : App.Device) :
  App.selectedLocation u = None -> App.props u d = App.last_known d.
Proof. intros H. unfold App.props. rewrite H. reflexivity. Qed.

Lemma last_known_marker (d : App.Device) (last : App.LastLocation) :
  App.lastLocation d = Some last ->
  MapPreview.marker (MapPreview.MapPreview (App.last_known d))
  = (App.loc_lat last, App.loc_lng last).
Proof. intros H. unfold MapPreview.MapPreview, App.last_known. rewrite H. reflexivity. Qed.

(** C5, as the code has it.  When the pending [getLocationLogs] call
    resolves with an empty list or is rejected, and no log entry has been
    selected since [loadLocationLogs] cleared the selection, the log list
    ends up empty, the loading flag is dropped, a rejection leaves an error
    message, and the map is given the device's own [lastLocation]: the
    detail column of the selected device shows that map, a count of zero
    and the line for an empty history. *)
Theorem logs_empty_or_failed_fall_back
    (s : App.State) (id : nat) (d : App.Device) (r : App.Reply) :
  App.task_of id s = Some App.AwaitLogs ->
  App.selectedLocation (App.ui s) = None ->
  r = App.LogList [] \/ (exists name message, r = App.Rejected name message) ->
  let s' := App.step s (App.Settle id r) in
  App.locationLogs (App.ui s') = []
  /\ App.loadingLogs (App.ui s') = false
  /\ App.logs_body (App.ui s') = App.NoLogs
  /\ App.props (App.ui s') d = App.last_known d
  /\ (forall last, App.lastLocation d = Some last ->
        MapPreview.marker (MapPreview.MapPreview (App.props (App.ui s') d))
        = (App.loc_lat last, App.loc_lng last))
  /\ (forall name message, r = App.Rejected name message ->
        exists text, App.error (App.ui s') = Some text /\ text <> "")
  /\ (App.authed (App.ui s) = true -> App.selected (App.ui s) = Some d ->
      App.render (App.ui s') = Some (App.mkDetail d (App.last_known d) 0 App.NoLogs)).
Proof.
  intros Htask Hnone Hr. rewrite step_settle. unfold App.settle. rewrite Htask.
  assert (Hprops : forall u, App.selectedLocation u = None ->
            App.props u d = App.last_known d
            /\ (forall last, App.lastLocation d = Some last ->
                  MapPreview.marker (MapPreview.MapPreview (App.props u d))
                  = (App.loc_lat last, App.loc_lng last))).
  { intros u Hu. rewrite (props_without_selection u d Hu).
    split; [reflexivity | apply last_known_marker]. }
  assert (Hrender : forall u, App.selectedLocation u = None ->
            App.locationLogs u = [] -> App.loadingLogs u = false ->
            App.authed u = true -> App.selected u = Some d ->
            App.render u = Some (App.mkDetail d (App.last_known d) 0 App.NoLogs)).
  { intros u Hu Hlogs Hloading Hauthed Hsel. unfold App.render, App.logs_body.
    rewrite Hauthed, Hsel, Hlogs, Hloading, (props_without_selection u d Hu).
    reflexivity. }
  destruct Hr as [-> | (name & message & ->)]; cbn [App.resume].
  - destruct (Hprops (App.ui (App.loadLocationLogs_resolved [] (App.forget id s))) Hnone)
      as [Hp Hm].
    split; [reflexivity|]. split; [reflexivity|]. split; [reflexivity|].
    split; [exact Hp|]. split; [exact Hm|]. split; [intros ? ? [=]|].
    intros Hauthed Hsel. by apply Hrender.
  - destruct (Hprops (App.ui (App.loadLocationLogs_rejected message (App.forget id s)))
                Hnone) as [Hp Hm].
    split; [reflexivity|]. split; [reflexivity|]. split; [reflexivity|].
    split; [exact Hp|]. split; [exact Hm|]. split.
    + intros name' message' _.
      destruct message as [|c message]; eexists; (split; [reflexivity | discriminate]).
    + intros Hauthed Hsel. by apply Hrender.
Qed.

Lemma logs_empty_or_failed_fall_back_witness :
  App.task_of 5 (App.step Sample.signed_in (App.ClickDevice 1)) = Some App.AwaitLogs
  /\ App.selectedLocation (App.ui (App.step Sample.signed_in (App.ClickDevice 1))) = None
  /\ MapPreview.marker
       (MapPreview.MapPreview
          (App.props
             (App.ui (App.step (App.step Sample.signed_in (App.ClickDevice 1))
                        (App.Settle 5 (App.LogList []))))
             Sample.tablet))
     = (1%float, 2%float).
Proof.
  split; [reflexivity|]. split; [reflexivity|].
  exact (proj1 (proj2 (proj2 (proj2 (proj2
           (logs_empty_or_failed_fall_back
              (App.step Sample.signed_in (App.ClickDevice 1)) 5 Sample.tablet
              (App.LogList []) eq_refl eq_refl (or_introl eq_refl))))))
           Sample.home eq_refl).
Defined.

(** C5 as stated fails when two selections overlap: the phone is selected,
    then the tablet, the phone's logs arrive and select their first entry,
    and the tablet's empty list leaves that entry selected; the map of the
    tablet is then given the phone entry's latitude 10, not the latitude 1
    of the tablet's [lastLocation]. *)
Lemma overlapping_selection_keeps_other_entry :
  let s := App.run Sample.signed_in
             [ App.ClickDevice 0; App.ClickDevice 1;
               App.Settle 5 (App.LogList [Sample.L1; Sample.L2]);
               App.Settle 6 (App.LogList []) ] in
  App.selected (App.ui s) = Some Sample.tablet
  /\ App.pending s = []
  /\ App.locationLogs (App.ui s) = []
  /\ App.selectedLocation (App.ui s) = Some Sample.L1
  /\ MapPreview.lat (App.props (App.ui s) Sample.tablet) = Some 10%float
  /\ App.loc_lat <$> App.lastLocation Sample.tablet = Some 1%float
  /\ MapPreview.marker (MapPreview.MapPreview (App.props (App.ui s) Sample.tablet))
     = (10%float, 20%float).
Proof. vm_compute. repeat split. Qed.

(** ** Changing the selected device *)

Lemma commit_selected_only (prev : App.Ui) (s : App.State) :
  App.authed prev = App.authed (App.ui s) ->
  (App.q prev, App.since prev, App.until prev)
  = (App.q (App.ui s), App.since (App.ui s), App.until (App.ui s)) ->
  App.selected_id prev <> App.selected_id (App.ui s) ->
  App.commit prev s = App.effect_selected (App.ui s) s.
Proof.
  intros Ha Hq Hs. unfold App.commit.
  rewrite (bool_decide_true _ Ha), (bool_decide_true _ Hq), (bool_decide_false _ Hs).
  reflexivity.
Qed.











(** ** Device lists arriving out of order *)

Lemma find_other_id (id other : nat) (l : list (nat * App.Task)) :
  id <> other ->
  find (fun p => Nat.eqb (fst p) id)
       (List.filter (fun p => negb (Nat.eqb (fst p) other)) l)
  = find (fun p => Nat.eqb (fst p) id) l.
Proof.
  intros Hne. induction l as [|[n k] l IH]; [reflexivity|].
  simpl. destruct (Nat.eqb_spec n other) as [->|Hn]; simpl.
  - destruct (Nat.eqb_spec other id) as [Heq|_]; [congruence | exact IH].
  - destruct (Nat.eqb n id); [reflexivity | exact IH].
Qed.

Lemma settle_devices (s : App.State) (id : nat) (o : App.Origin) (ds : list App.Device) :
  App.task_of id s = Some (App.AwaitDevices o) ->
  App.settle id (App.DeviceList ds) s = App.setDevices ds (App.forget id s).
Proof. intros H. unfold App.settle. rewrite H. reflexivity. Qed.

Lemma task_of_after_devices (s : App.State) (id other : nat) (ds : list App.Device) :
  id <> other ->
  App.task_of id (App.setDevices ds (App.forget other s)) = App.task_of id s.
Proof.
  intros Hne. unfold App.task_of. simpl. by rewrite find_other_id.
Qed.

(** C8, as the code has it.  Two [listDevices] calls in flight are both
    written to the device list when they resolve, in the order in which
    they resolve: the list is the result that arrived last, whichever call
    was issued first. *)
Theorem device_list_last_arrival_wins
    (s : App.State) (older newer : nat) (o o' : App.Origin)
    (stale fresh : list App.Device) :
  older <> newer ->
  App.task_of older s = Some (App.AwaitDevices o) ->
  App.task_of newer s = Some (App.AwaitDevices o') ->
  App.devices (App.ui (App.run s [ App.Settle newer (App.DeviceList fresh);
                                   App.Settle older (App.DeviceList stale) ]))
  = stale
  /\ App.devices (App.ui (App.run s [ App.Settle older (App.DeviceList stale);
                                      App.Settle newer (App.DeviceList fresh) ]))
     = fresh.
Proof.
  intros Hne Holder Hnewer. unfold App.run. simpl. rewrite !step_settle.
  split.
  - rewrite (settle_devices s newer o') by assumption.
    rewrite (settle_devices _ older o); [reflexivity|].
    by rewrite task_of_after_devices.
  - rewrite (settle_devices s older o) by assumption.
    rewrite (settle_devices _ newer o'); [reflexivity|].
    by rewrite task_of_after_devices.
Qed.

Lemma device_list_last_arrival_wins_witness :
  7 <> 10
  /\ App.task_of 7 Sample.two_searches = Some (App.AwaitDevices App.FromDebounce)
  /\ App.task_of 10 Sample.two_searches = Some (App.AwaitDevices App.FromDebounce)
  /\ App.devices
       (App.ui (App.run Sample.two_searches
                  [ App.Settle 7 (App.DeviceList [Sample.phone]);
                    App.Settle 10 (App.DeviceList [Sample.tablet]) ]))
     = [Sample.tablet].
Proof.
  split; [discriminate|]. split; [vm_compute; reflexivity|].
  split; [vm_compute; reflexivity|].
  exact (proj2 (device_list_last_arrival_wins Sample.two_searches 7 10
                  App.FromDebounce App.FromDebounce [Sample.phone] [Sample.tablet]
                  ltac:(discriminate) ltac:(vm_compute; reflexivity)
                  ltac:(vm_compute; reflexivity))).
Defined.

(** C8 as stated fails: the list for "Tab" arrives first and is shown,
    then the list of the older call for "Pho" arrives and replaces it,
    while the search box still reads "Tab". *)
Lemma stale_device_list_overwrites :
  App.listDevices_calls Sample.two_searches
  = [ [("q", "")]; [("q", "")]; [("q", "Pho")]; [("q", "Tab")] ]
  /\ App.pending Sample.two_searches
     = [ (7, App.AwaitDevices App.FromDebounce); (10, App.AwaitDevices App.FromDebounce) ]
  /\ App.devices
       (App.ui (App.run Sample.two_searches [App.Settle 10 (App.DeviceList [Sample.tablet])]))
     = [Sample.tablet]
  /\ App.devices
       (App.ui (App.run Sample.two_searches
                  [ App.Settle 10 (App.DeviceList [Sample.tablet]);
                    App.Settle 7 (App.DeviceList [Sample.phone]) ]))
     = [Sample.phone]
  /\ App.q (App.ui (App.run Sample.two_searches
                      [ App.Settle 10 (App.DeviceList [Sample.tablet]);
                        App.Settle 7 (App.DeviceList [Sample.phone]) ]))
     = "Tab".
Proof. vm_compute. repeat split. Qed.

(** ** Failed requests *)

Lemma body_data_nonempty (text : string) :
  text <> "" -> Api.body_data text = Json.parse text.
Proof. intros H. unfold Api.body_data. by rewrite truthy_string_nonempty. Qed.

(** C2, as the code has it.  For a response whose status is not a success
    status: an empty body, or a body that parses to a value without a
    truthy [error] member, fails the call with [Error("HTTP <status>")]; a
    body that parses to an object with a truthy [error] member fails it
    with [Error] of that member, so with the member itself as message when
    it is a non-empty string; a non-empty body that is not JSON fails it
    with the [SyntaxError] of [JSON.parse]. *)
Theorem request_failure_message (res : Api.Response) :
  Api.ok res = false ->
  let generic := Json.Str ("HTTP " ++ Js.decimal (Api.status res)) in
  (Api.text res = "" -> Api.request res = Api.Throw (Api.Error generic))
  /\ (forall data e,
        Api.text res <> "" -> Json.parse (Api.text res) = Some data ->
        Api.error_of data = Some e -> Json.truthy e = true ->
        Api.request res = Api.Throw (Api.Error e))
  /\ (forall fields message,
        Api.text res <> "" -> Json.parse (Api.text res) = Some (Json.Object fields) ->
        Json.member "error" fields = Some (Json.Str message) -> message <> "" ->
        Api.request res = Api.Throw (Api.Error (Json.Str message)))
  /\ (forall data,
        Api.text res <> "" -> Json.parse (Api.text res) = Some data ->
        Js.truthy_opt Json.truthy (Api.error_of data) = false ->
        Api.request res = Api.Throw (Api.Error generic))
  /\ (Api.text res <> "" -> Json.parse (Api.text res) = None ->
      Api.request res = Api.Throw Api.SyntaxError).
Proof.
  intros Hok generic. unfold Api.request. rewrite Hok. simpl.
  split; [|split; [|split; [|split]]].
  - intros ->. reflexivity.
  - intros data e Htext Hparse He Htruthy.
    rewrite (body_data_nonempty _ Htext), Hparse, He. simpl. by rewrite Htruthy.
  - intros fields message Htext Hparse Hmember Hmessage.
    rewrite (body_data_nonempty _ Htext), Hparse. simpl. rewrite Hmember. simpl.
    by rewrite (truthy_string_nonempty _ Hmessage).
  - intros data Htext Hparse Hfalsy.
    rewrite (body_data_nonempty _ Htext), Hparse.
    destruct (Api.error_of data) as [e|]; simpl in *; [by rewrite Hfalsy | reflexivity].
  - intros Htext Hparse. by rewrite (body_data_nonempty _ Htext), Hparse.
Qed.

Lemma request_failure_message_witness :
  Api.ok (Api.mkResponse 401 (Sample.object_with "error" "bad password")) = false
  /\ Api.request (Api.mkResponse 401 (Sample.object_with "error" "bad password"))
     = Api.Throw (Api.Error (Json.Str "bad password")).
Proof.
  split; [reflexivity|].
  exact (proj1 (proj2 (proj2
           (request_failure_message
              (Api.mkResponse 401 (Sample.object_with "error" "bad password"))
              eq_refl)))
           [("error", Json.Str "bad password")] "bad password"
           ltac:(discriminate) ltac:(vm_compute; reflexivity)
           ltac:(vm_compute; reflexivity) ltac:(discriminate)).
Defined.

(** C2 as stated fails for a body that is not JSON: a 502 with an HTML
    page fails with the [SyntaxError] of [JSON.parse], not with
    [Error("HTTP 502")].  An [error] member that is present but empty is
    not used as the message either. *)
Lemma request_unparseable_body_throws_syntax_error :
  Api.ok (Api.mkResponse 502 "<html>Bad Gateway</html>") = false
  /\ Api.request (Api.mkResponse 502 "<html>Bad Gateway</html>")
     = Api.Throw Api.SyntaxError
  /\ Api.request (Api.mkResponse 500 (Sample.object_with "error" ""))
     = Api.Throw (Api.Error (Json.Str "HTTP 500")).
Proof. vm_compute. repeat split. Qed.

(** ** The fingerprint *)

Lemma append_cons (c : ascii) (a b : string) : String c a ++ b = String c (a ++ b).
Proof. reflexivity. Qed.

Lemma append_empty_r (a : string) : a ++ "" = a.
Proof. induction a as [|c a IH]; [reflexivity | by rewrite append_cons, IH]. Qed.

Lemma length_app (a b : string) :
  String.length (a ++ b) = String.length a + String.length b.
Proof.
  induction a as [|c a IH]; [reflexivity|].
  rewrite append_cons. cbn [String.length]. by rewrite IH.
Qed.

Lemma list_ascii_app (a b : string) :
  list_ascii_of_string (a ++ b) = (list_ascii_of_string a ++ list_ascii_of_string b)%list.
Proof.
  induction a as [|c a IH]; [reflexivity|].
  rewrite append_cons. cbn [list_ascii_of_string]. by rewrite IH.
Qed.

Lemma concat_empty_cons (x : string) (xs : list string) :
  String.concat "" (x :: xs) = x ++ String.concat "" xs.
Proof.
  destruct xs as [|y ys]; [|reflexivity].
  cbn [String.concat]. by rewrite append_empty_r.
Qed.

(** Joining two-character pieces without a separator. *)
Lemma join_pairs (f : Z -> string) (bytes : list Z) :
  Forall (fun b => String.length (f b) = 2
                   /\ forallb Fingerprint.is_lower_hex (list_ascii_of_string (f b)) = true)
         bytes ->
  String.length (Js.join "" (map f bytes)) = 2 * length bytes
  /\ forallb Fingerprint.is_lower_hex (list_ascii_of_string (Js.join "" (map f bytes))) = true.
Proof.
  unfold Js.join. induction 1 as [|b bytes [Hlen Hhex] _ [IHlen IHhex]].
  - split; reflexivity.
  - cbn [map]. rewrite concat_empty_cons. split.
    + rewrite length_app, Hlen, IHlen. cbn [length]. lia.
    + rewrite list_ascii_app, forallb_app, Hhex, IHhex. reflexivity.
Qed.

Lemma hex_pair_of_byte (b : Z) :
  (0 <= b < 256)%Z -> Fingerprint.hex_pair_ok b = true.
Proof.
  intros Hb.
  assert (Hall : forallb Fingerprint.hex_pair_ok (map Z.of_nat (seq 0 256)) = true)
    by (vm_compute; reflexivity).
  rewrite forallb_forall in Hall. apply Hall.
  apply in_map_iff. exists (Z.to_nat b). split; [lia|].
  apply in_seq. lia.
Qed.

Lemma big_endian_bytes (x : Z) :
  Forall (fun b => (0 <= b < 256)%Z) (SHA256.big_endian 4 x).
Proof.
  unfold SHA256.big_endian. apply List.Forall_forall. intros b Hin.
  apply in_map_iff in Hin. destruct Hin as (i & <- & _).
  change 255%Z with (Z.ones 8). rewrite Z.land_ones by lia.
  apply Z.mod_pos_bound. lia.
Qed.

Lemma digest_bytes (msg : list Z) :
  length (SHA256.digest msg) = 32
  /\ Forall (fun b => (0 <= b < 256)%Z) (SHA256.digest msg).
Proof.
  unfold SHA256.digest.
  generalize (SHA256.process
                (length (SHA256.words_of_bytes (SHA256.pad msg)) / 16)
                (SHA256.words_of_bytes (SHA256.pad msg)) SHA256.initial_hash).
  intros h. split; [reflexivity|].
  unfold SHA256.hash_words. cbn [flat_map].
  repeat (apply Forall_app; split; [apply big_endian_bytes|]).
  constructor.
Qed.

Lemma sha256Hex_shape (input : string) :
  String.length (Fingerprint.sha256Hex input) = 64
  /\ forallb Fingerprint.is_lower_hex
       (list_ascii_of_string (Fingerprint.sha256Hex input)) = true.
Proof.
  unfold Fingerprint.sha256Hex.
  destruct (digest_bytes (Fingerprint.encode input)) as [Hlen Hbytes].
  destruct (join_pairs (fun b => Js.padStart 2 "0" (Fingerprint.toString16 b))
              (SHA256.digest (Fingerprint.encode input))) as [Hl Hh].
  - eapply Forall_impl; [exact Hbytes|].
    intros b Hb. pose proof (hex_pair_of_byte b Hb) as Hok.
    unfold Fingerprint.hex_pair_ok in Hok. apply andb_prop in Hok. destruct Hok as [H2 Hhex].
    split; [by apply Nat.eqb_eq | exact Hhex].
  - split; [rewrite Hl, Hlen; reflexivity | exact Hh].
Qed.

Lemma hex_pair_spelled (b : Z) :
  (0 <= b < 256)%Z ->
  Js.padStart 2 "0" (Fingerprint.toString16 b)
  = String (Fingerprint.hex_digit (b / 16)) (String (Fingerprint.hex_digit (b mod 16)) "").
Proof.
  intros Hb.
  assert (Hall : forallb
                   (fun b => String.eqb
                               (Js.padStart 2 "0" (Fingerprint.toString16 b))
                               (String (Fingerprint.hex_digit (b / 16))
                                  (String (Fingerprint.hex_digit (b mod 16)) "")))
                   (map Z.of_nat (seq 0 256)) = true)
    by (vm_compute; reflexivity).
  rewrite forallb_forall in Hall. apply String.eqb_eq, Hall.
  apply in_map_iff. exists (Z.to_nat b). split; [lia|].
  apply in_seq. lia.
Qed.

Lemma or_default_text (x : option string) :
  Js.or_default Js.truthy_string x "" = match x with Some s => s | None => "" end.
Proof. by destruct x as [[|c s]|]. Qed.

(** C6.  The fingerprint is a function of the six signals: the text that
    is hashed is the user agent, the language, the number of logical
    processors, the device memory, the screen size and the time zone, in
    that order with a bar between them, an absent signal (for the two
    numbers also zero or not-a-number) giving the empty string; what is
    returned are the 32 bytes of the SHA-256 digest of the UTF-8 bytes of
    that text, two lowercase hexadecimal digits each, so 64 characters from
    [0-9a-f].  The digest is that of the standard: it is checked on three
    of its test vectors and, through the whole function, on the signals of
    two browsers. *)
Theorem fingerprint_deterministic_hex
    (Number_toString : float -> string) (sig : Fingerprint.Signals) :
  let text (x : option string) := match x with Some s => s | None => "" end in
  let number (x : option float) :=
    match x with
    | Some v => if (PrimFloat.is_zero v || PrimFloat.is_nan v)%bool then ""
                else Number_toString v
    | None => ""
    end in
  let message :=
    text (Fingerprint.userAgent sig) ++ "|"
    ++ text (Fingerprint.language sig) ++ "|"
    ++ number (Fingerprint.hardwareConcurrency sig) ++ "|"
    ++ number (Fingerprint.deviceMemory sig) ++ "|"
    ++ (Number_toString (Fingerprint.screen_width sig) ++ "x"
        ++ Number_toString (Fingerprint.screen_height sig)) ++ "|"
    ++ text (Fingerprint.timeZone sig) in
  let two_hex (b : Z) :=
    String (Fingerprint.hex_digit (b / 16)) (String (Fingerprint.hex_digit (b mod 16)) "") in
  let fp := Fingerprint.getDeviceFingerprint Number_toString sig in
  fp = String.concat "" (map two_hex (SHA256.digest (Fingerprint.encode message)))
  /\ length (SHA256.digest (Fingerprint.encode message)) = 32
  /\ String.length fp = 64
  /\ forallb Fingerprint.is_lower_hex (list_ascii_of_string fp) = true
  /\ String.concat "" (map two_hex (SHA256.digest (Fingerprint.encode "abc")))
     = "ba7816bf8f01cfea414140de5dae2223b00361a396177a9cb410ff61f20015ad"
  /\ String.concat "" (map two_hex (SHA256.digest (Fingerprint.encode "")))
     = "e3b0c44298fc1c149afbf4c8996fb92427ae41e4649b934ca495991b7852b855"
  /\ String.concat "" (map two_hex
       (SHA256.digest
          (Fingerprint.encode "abcdbcdecdefdefgefghfghighijhijkijkljklmklmnlmnomnopnopq")))
     = "248d6a61d20638b8e5c026930c3e6039a33ce45964ff2167f6ecedd419db06c1"
  /\ (Number_toString 8%float = "8" -> Number_toString 4%float = "4" ->
      Number_toString 1920%float = "1920" -> Number_toString 1080%float = "1080" ->
      Fingerprint.getDeviceFingerprint Number_toString
        (Fingerprint.Build_Signals (Some "Mozilla/5.0") (Some "en-US") (Some 8%float)
           (Some 4%float) 1920%float 1080%float (Some "Europe/Paris"))
      = "3fdc31b9a7f5cd84f01139e96d58661a26947a38cfe83100b63b8839013c842b"
      /\ Fingerprint.getDeviceFingerprint Number_toString
           (Fingerprint.Build_Signals (Some "Mozilla/5.0") (Some "en-US") None
              (Some 0%float) 1920%float 1080%float None)
         = "b3c570f9d84bdbf258ac0a10459082317393b2594f00d98fa37f6bcfc98b1b31").
Proof.
  intros text number message two_hex fp.
  assert (Hspelled : forall input,
            Fingerprint.sha256Hex input
            = String.concat "" (map two_hex (SHA256.digest (Fingerprint.encode input)))).
  { intros input. unfold Fingerprint.sha256Hex, Js.join. f_equal.
    destruct (digest_bytes (Fingerprint.encode input)) as [_ Hbytes].
    induction Hbytes as [|b bytes Hb _ IH]; [reflexivity|].
    cbn [map]. by rewrite IH, (hex_pair_spelled b Hb). }
  assert (Hmessage : Js.join "|" (Fingerprint.parts Number_toString sig) = message).
  { unfold Fingerprint.parts, Js.join. cbn [String.concat].
    rewrite !or_default_text. subst message text number. cbv beta.
    assert (Hnumber : forall x,
              Fingerprint.number_or_empty Number_toString x
              = match x with
                | Some v => if (PrimFloat.is_zero v || PrimFloat.is_nan v)%bool then ""
                            else Number_toString v
                | None => ""
                end).
    { intros [v|]; [|reflexivity]. unfold Fingerprint.number_or_empty, Js.truthy_number.
      by destruct (PrimFloat.is_zero v || PrimFloat.is_nan v)%bool. }
    by rewrite !Hnumber. }
  assert (Hfp : fp = Fingerprint.sha256Hex message)
    by (subst fp; unfold Fingerprint.getDeviceFingerprint; by rewrite Hmessage).
  destruct (sha256Hex_shape message) as [Hlen Hhex].
  split; [by rewrite Hfp, Hspelled|].
  split; [apply digest_bytes|].
  split; [by rewrite Hfp|]. split; [by rewrite Hfp|].
  split; [rewrite <- Hspelled; vm_compute; reflexivity|].
  split; [rewrite <- Hspelled; vm_compute; reflexivity|].
  split; [rewrite <- Hspelled; vm_compute; reflexivity|].
  intros H8 H4 H1920 H1080.
  unfold Fingerprint.getDeviceFingerprint, Fingerprint.parts, Fingerprint.number_or_empty.
  cbn [Fingerprint.userAgent Fingerprint.language Fingerprint.hardwareConcurrency
       Fingerprint.deviceMemory Fingerprint.screen_width Fingerprint.screen_height
       Fingerprint.timeZone Js.or_default Js.truthy_string].
  replace (Js.truthy_number 8%float) with true by (vm_compute; reflexivity).
  replace (Js.truthy_number 4%float) with true by (vm_compute; reflexivity).
  replace (Js.truthy_number 0%float) with false by (vm_compute; reflexivity).
  rewrite H8, H4, H1920, H1080.
  split; vm_compute; reflexivity.
Qed.

(** ** Debounced search *)

Lemma clear_own_timer (t : nat) (timers : list App.Timer) :
  Forall (fun tm => Some t = Some (App.timer_id tm)) timers ->
  List.filter (fun tm => negb (Nat.eqb (App.timer_id tm) t)) timers = [].
Proof.
  induction 1 as [|tm timers Hid _ IH]; [reflexivity|].
  simpl. injection Hid as ->. by rewrite Nat.eqb_refl.
Qed.

Lemma no_cleanup_no_timer (timers : list App.Timer) :
  Forall (fun tm => @None nat = Some (App.timer_id tm)) timers -> timers = [].
Proof. destruct 1 as [|tm timers Hid _]; [reflexivity | discriminate]. Qed.

Lemma commit_inputs_only (prev : App.Ui) (s : App.State) :
  App.authed prev = App.authed (App.ui s) ->
  Burst.inputs prev <> Burst.inputs (App.ui s) ->
  App.selected_id prev = App.selected_id (App.ui s) ->
  App.commit prev s = App.effect_debounce (App.ui s) s.
Proof.
  intros Ha Hq Hs. unfold App.commit.
  rewrite (bool_decide_true _ Ha), (bool_decide_false _ Hq), (bool_decide_true _ Hs).
  reflexivity.
Qed.

Lemma inputs_set_inputs (c : Burst.Change) (s : App.State) :
  Burst.inputs (App.ui (Burst.set_inputs c s)) = Burst.changed c (Burst.inputs (App.ui s)).
Proof. destruct c; reflexivity. Qed.

Lemma ui_set_inputs (c : Burst.Change) (s : App.State) :
  App.ui (Burst.set_inputs c s)
  = Burst.with_inputs (Burst.changed c (Burst.inputs (App.ui s))) (App.ui s).
Proof. destruct c; reflexivity. Qed.

Lemma handle_change (c : Burst.Change) (s : App.State) :
  App.authed (App.ui s) = true ->
  App.handle (Burst.event_of c) s = Burst.set_inputs c s.
Proof. intros H. destruct c; cbn [App.handle Burst.event_of]; by rewrite H. Qed.

(** A change of an input clears the pending timeout and sets a new one. *)
Lemma change_rearms (s : App.State) (c : Burst.Change) :
  App.authed (App.ui s) = true ->
  Burst.own_timer s ->
  Burst.changed c (Burst.inputs (App.ui s)) <> Burst.inputs (App.ui s) ->
  App.step s (Burst.event_of c)
  = Burst.armed s (Burst.with_inputs (Burst.changed c (Burst.inputs (App.ui s))) (App.ui s))
      (App.now s)
      (Burst.timer_for (App.next_id s) (App.now s) (Burst.changed c (Burst.inputs (App.ui s))))
      (S (App.next_id s)).
Proof.
  intros Hauthed Hown Hchanged.
  unfold App.step. rewrite (handle_change c s Hauthed).
  rewrite commit_inputs_only.
  - unfold App.effect_debounce.
    assert (Ha : App.authed (App.ui (Burst.set_inputs c s)) = true)
      by (rewrite <- Hauthed; destruct c; reflexivity).
    rewrite Ha. cbn [negb].
    rewrite ui_set_inputs.
    assert (Hs : Burst.set_inputs c s
                 = App.mkState (Burst.with_inputs (Burst.changed c (Burst.inputs (App.ui s)))
                                  (App.ui s))
                     (App.localStorage s) (App.now s) (App.timers s) (App.cleanup s)
                     (App.pending s) (App.sent s) (App.next_id s) (App.legacy_date s))
      by (destruct c; reflexivity).
    rewrite Hs. cbn [App.cleanup].
    unfold Burst.own_timer in Hown.
    destruct (App.cleanup s) as [t|].
    + unfold App.clearTimeout. cbn [App.timers]. rewrite (clear_own_timer t _ Hown).
      reflexivity.
    + rewrite (no_cleanup_no_timer _ Hown). reflexivity.
  - destruct c; reflexivity.
  - rewrite inputs_set_inputs. congruence.
  - destruct c; reflexivity.
Qed.

Lemma armed_authed_own (s : App.State) (u : App.Ui) (t : nat) (tm : App.Timer) (next : nat) :
  Burst.own_timer (Burst.armed s u t tm next).
Proof. unfold Burst.own_timer, Burst.armed. cbn. by constructor. Qed.

(** Before its deadline the timeout stays pending. *)
Lemma elapse_short (s : App.State) (u : App.Ui) (t gap next : nat) (tm : App.Timer) :
  t + gap < App.deadline tm ->
  App.elapse gap (Burst.armed s u t tm next) = Burst.armed s u (t + gap) tm next.
Proof.
  intros Hlt. unfold App.elapse, Burst.armed. cbn.
  assert (Hleb : Nat.leb (App.deadline tm) (t + gap) = false) by (apply Nat.leb_gt; lia).
  rewrite Hleb. reflexivity.
Qed.

(** At its deadline the timeout runs [load]: one [summary] call is issued. *)
Lemma elapse_long (s : App.State) (u : App.Ui) (t quiet next : nat) (tm : App.Timer) :
  App.deadline tm <= t + quiet ->
  App.elapse quiet (Burst.armed s u t tm next)
  = App.mkState u (App.localStorage s) (t + quiet) [] (Some (App.timer_id tm))
      (App.pending s
       ++ [(next, App.AwaitSummary App.FromDebounce
                    (App.t_q tm) (App.t_since tm) (App.t_until tm))])%list
      (App.sent s
       ++ [App.mkRequest next Api.Summary
             (Api.headers (App.localStorage s) ∅ !! "authorization")])%list
      (S next) (App.legacy_date s).
Proof.
  intros Hle. unfold App.elapse, Burst.armed. cbn.
  assert (Hleb : Nat.leb (App.deadline tm) (t + quiet) = true) by (apply Nat.leb_le; lia).
  rewrite Hleb. reflexivity.
Qed.

Lemma inputs_with_inputs (i : string * string * string) (u : App.Ui) :
  Burst.inputs (Burst.with_inputs i u) = i.
Proof. destruct i as [[a b] c]. reflexivity. Qed.

(** From an Burst.armed state, a rapid burst followed by a quiet period ends
    with no timeout pending and exactly one more call, the [summary] of the
    [load] that reads the last inputs. *)
Lemma burst_from_armed (s : App.State) (quiet : nat) (rest : list (nat * Burst.Change)) :
  350 <= quiet ->
  forall (u : App.Ui) (t id next : nat),
  App.authed u = true ->
  Burst.rapid (Burst.inputs u) rest ->
  id < next ->
  exists t' id' id'',
    next <= id''
    /\ App.run (Burst.armed s u t (Burst.timer_for id t (Burst.inputs u)) next)
               (Burst.events rest ++ [App.Elapse quiet])
       = App.mkState (Burst.with_inputs (Burst.final (Burst.inputs u) rest) u)
           (App.localStorage s) t' [] (Some id')
           (App.pending s ++ [Burst.load_started id'' (Burst.final (Burst.inputs u) rest)])%list
           (App.sent s
            ++ [App.mkRequest id'' Api.Summary
                  (Api.headers (App.localStorage s) ∅ !! "authorization")])%list
           (S id'') (App.legacy_date s).
Proof.
  intros Hquiet. induction rest as [|[gap c] rest IH]; intros u t id next Hauthed Hrapid Hid.
  - exists (t + quiet), id, next. split; [lia|].
    cbn [Burst.events app App.run fold_left]. rewrite step_elapse.
    rewrite elapse_long by (cbn; lia).
    destruct u; reflexivity.
  - destruct Hrapid as (Hgap & Hchanged & Hrapid).
    cbn [Burst.events app App.run fold_left]. rewrite step_elapse.
    rewrite elapse_short by (cbn; lia).
    rewrite change_rearms; [| exact Hauthed | apply armed_authed_own | exact Hchanged].
    cbn [App.ui App.now App.next_id Burst.armed].
    specialize (IH (Burst.with_inputs (Burst.changed c (Burst.inputs u)) u) (t + gap) next (S next)).
    rewrite inputs_with_inputs in IH.
    destruct IH as (t' & id' & id'' & Hnext & Hrun); [exact Hauthed | exact Hrapid | lia |].
    exists t', id', id''. split; [lia|].
    cbn [Burst.final]. fold (App.run
      (Burst.armed s (Burst.with_inputs (Burst.changed c (Burst.inputs u)) u) (t + gap)
         (Burst.timer_for next (t + gap) (Burst.changed c (Burst.inputs u))) (S next))
      (Burst.events rest ++ [App.Elapse quiet])).
    exact Hrun.
Qed.

Lemma find_fresh (id : nat) (k : App.Task) (l : list (nat * App.Task)) (n : nat) :
  Forall (fun p => fst p < n) l -> n <= id ->
  find (fun p => Nat.eqb (fst p) id) (l ++ [(id, k)]) = Some (id, k).
Proof.
  intros Hall Hle. induction Hall as [|[m k'] l Hm _ IH].
  - simpl. by rewrite Nat.eqb_refl.
  - simpl in *. destruct (Nat.eqb_spec m id); [lia | exact IH].
Qed.

Lemma filter_fresh (id : nat) (k : App.Task) (l : list (nat * App.Task)) (n : nat) :
  Forall (fun p => fst p < n) l -> n <= id ->
  List.filter (fun p => negb (Nat.eqb (fst p) id)) (l ++ [(id, k)]) = l.
Proof.
  intros Hall Hle. induction Hall as [|[m k'] l Hm _ IH].
  - simpl. by rewrite Nat.eqb_refl.
  - simpl in *. destruct (Nat.eqb_spec m id); [lia|]. simpl. by rewrite IH.
Qed.

Lemma listDevices_calls_app (s : App.State) (u : App.Ui) (storage : gmap string string)
    (t : nat) (timers : list App.Timer) (cl : option nat) (pending : list (nat * App.Task))
    (more : list App.Request) (next : nat) (legacy : string -> option string) :
  App.listDevices_calls
    (App.mkState u storage t timers cl pending (App.sent s ++ more) next legacy)
  = (App.listDevices_calls s
     ++ flat_map (fun r => match App.call r with
                           | Api.ListDevices query => [query]
                           | _ => []
                           end) more)%list.
Proof. unfold App.listDevices_calls. cbn [App.sent]. apply flat_map_app. Qed.

(** C3, as the code has it.  In a signed-in dashboard, a burst of changes
    to the search inputs whose gaps are all shorter than 350 ms, followed by
    350 ms or more without a change, leaves no timeout pending and starts
    exactly one [load()]: one [summary] call is issued and no [listDevices]
    call yet.  That [load()] issues its one [listDevices] call, with the
    text of the last change and its dates as [new Date(...).toISOString()]
    gives them, if and when its [summary] call succeeds; if the [summary]
    call is rejected, or [toISOString] throws for a date, no [listDevices]
    call is issued at all.  A date of the 29th to the 31st that its month
    does not have is sent as the day of the next month it rolls over to.
    The two conditions on the numbering of timeouts and calls hold in every
    state the dashboard can reach ([reachable_numbering] below). *)
Theorem debounce_burst_loads_once
    (s : App.State) (c : Burst.Change) (rest : list (nat * Burst.Change)) (quiet : nat) :
  App.authed (App.ui s) = true ->
  Burst.own_timer s ->
  Burst.fresh_ids s ->
  Burst.changed c (Burst.inputs (App.ui s)) <> Burst.inputs (App.ui s) ->
  Burst.rapid (Burst.changed c (Burst.inputs (App.ui s))) rest ->
  350 <= quiet ->
  let last := Burst.final (Burst.changed c (Burst.inputs (App.ui s))) rest in
  let s' := App.run s (Burst.event_of c :: Burst.events rest ++ [App.Elapse quiet]) in
  Burst.inputs (App.ui s') = last
  /\ App.timers s' = []
  /\ App.call <$> App.sent s' = ((App.call <$> App.sent s) ++ [Api.Summary])%list
  /\ App.listDevices_calls s' = App.listDevices_calls s
  /\ exists id,
       App.pending s' = (App.pending s ++ [Burst.load_started id last])%list
       /\ (forall v sinceIso untilIso,
             App.iso (App.legacy_date s) (snd (fst last)) = Some sinceIso ->
             App.iso (App.legacy_date s) (snd last) = Some untilIso ->
             App.listDevices_calls (App.step s' (App.Settle id (App.Summarized v)))
             = (App.listDevices_calls s
                ++ [ [("q", fst (fst last))] ++ Api.set_if "since" sinceIso
                     ++ Api.set_if "until" untilIso ])%list)
       /\ (forall v,
             App.iso (App.legacy_date s) (snd (fst last)) = None
             \/ App.iso (App.legacy_date s) (snd last) = None ->
             App.listDevices_calls (App.step s' (App.Settle id (App.Summarized v)))
             = App.listDevices_calls s)
       /\ (forall name message,
             App.listDevices_calls (App.step s' (App.Settle id (App.Rejected name message)))
             = App.listDevices_calls s).
Proof.
  intros Hauthed Hown Hfresh Hchanged Hrapid Hquiet last s'.
  set (first := Burst.changed c (Burst.inputs (App.ui s))) in *.
  assert (Hrun : exists t' id' id'',
             S (App.next_id s) <= id''
             /\ s' = App.mkState (Burst.with_inputs last (App.ui s))
                      (App.localStorage s) t' [] (Some id')
                      (App.pending s ++ [Burst.load_started id'' last])%list
                      (App.sent s
                       ++ [App.mkRequest id'' Api.Summary
                             (Api.headers (App.localStorage s) ∅ !! "authorization")])%list
                      (S id'') (App.legacy_date s)).
  { subst s'. cbn [App.run fold_left].
    rewrite change_rearms by assumption. fold first.
    destruct (burst_from_armed s quiet rest Hquiet (Burst.with_inputs first (App.ui s))
                (App.now s) (App.next_id s) (S (App.next_id s)))
      as (t' & id' & id'' & Hnext & Heq).
    - exact Hauthed.
    - by rewrite inputs_with_inputs.
    - lia.
    - rewrite inputs_with_inputs in Heq. exists t', id', id''. split; [exact Hnext|].
      exact Heq. }
  destruct Hrun as (t' & id' & id'' & Hnext & ->).
  split; [apply inputs_with_inputs|]. split; [reflexivity|].
  split; [cbn [App.sent]; by rewrite fmap_app|].
  split; [rewrite listDevices_calls_app; cbn; by rewrite app_nil_r|].
  exists id''.
  split; [reflexivity|].
  assert (Htask : forall r k,
            App.resume (snd (Burst.load_started id'' last)) r = Some k ->
            App.step (App.mkState (Burst.with_inputs last (App.ui s))
                        (App.localStorage s) t' [] (Some id')
                        (App.pending s ++ [Burst.load_started id'' last])%list
                        (App.sent s
                         ++ [App.mkRequest id'' Api.Summary
                               (Api.headers (App.localStorage s) ∅ !! "authorization")])%list
                        (S id'') (App.legacy_date s)) (App.Settle id'' r)
            = k (App.mkState (Burst.with_inputs last (App.ui s))
                   (App.localStorage s) t' [] (Some id') (App.pending s)
                   (App.sent s
                    ++ [App.mkRequest id'' Api.Summary
                          (Api.headers (App.localStorage s) ∅ !! "authorization")])%list
                   (S id'') (App.legacy_date s))).
  { intros r k Hk. rewrite step_settle. unfold App.settle, App.task_of, App.forget.
    cbn [App.pending App.ui App.localStorage App.now App.timers App.cleanup App.sent
         App.next_id].
    unfold Burst.load_started in *.
    rewrite (find_fresh id'' _ _ (App.next_id s)) by (assumption || lia).
    cbn [fmap option_fmap option_map snd] in *. rewrite Hk.
    rewrite (filter_fresh id'' _ _ (App.next_id s)) by (assumption || lia).
    reflexivity. }
  split; [|split].
  - intros v sinceIso untilIso Hsince Huntil.
    rewrite (Htask _ (App.load_summarized App.FromDebounce
                        (fst (fst last)) (snd (fst last)) (snd last) v)) by reflexivity.
    unfold App.load_summarized, App.setSummary, App.with_ui.
    cbn [App.legacy_date]. rewrite Hsince, Huntil.
    unfold App.issue.
    cbn [App.ui App.localStorage App.now App.timers App.cleanup App.pending App.sent
         App.next_id].
    rewrite <- app_assoc. rewrite listDevices_calls_app. reflexivity.
  - intros v Hbad.
    rewrite (Htask _ (App.load_summarized App.FromDebounce
                        (fst (fst last)) (snd (fst last)) (snd last) v)) by reflexivity.
    unfold App.load_summarized, App.setSummary, App.with_ui.
    cbn [App.legacy_date].
    assert (Hnone : match App.iso (App.legacy_date s) (snd (fst last)),
                          App.iso (App.legacy_date s) (snd last) with
                    | Some _, Some _ => false
                    | _, _ => true
                    end = true).
    { destruct Hbad as [-> | ->]; [reflexivity|].
      by destruct (App.iso (App.legacy_date s) (snd (fst last))). }
    destruct (App.iso (App.legacy_date s) (snd (fst last))),
             (App.iso (App.legacy_date s) (snd last)); try discriminate;
      cbn [App.load_rejected];
      cbn [App.ui App.localStorage App.now App.timers App.cleanup App.pending App.sent
           App.next_id];
      rewrite listDevices_calls_app; cbn; by rewrite app_nil_r.
  - intros name message.
    rewrite (Htask _ (App.load_rejected App.FromDebounce name message)) by reflexivity.
    cbn [App.load_rejected]. rewrite listDevices_calls_app. cbn. by rewrite app_nil_r.
Qed.

Lemma debounce_burst_loads_once_witness :
  let burst := [(50, Burst.NewQ "ab"); (50, Burst.NewQ "abc");
                (50, Burst.NewSince "2023-02-29"); (50, Burst.NewUntil "12345-01-01")] in
  let s' := App.run Sample.signed_in
              (Burst.event_of (Burst.NewQ "a") :: Burst.events burst ++ [App.Elapse 350]) in
  App.authed (App.ui Sample.signed_in) = true
  /\ 50 < 350
  /\ Burst.inputs (App.ui s') = ("abc", "2023-02-29", "12345-01-01")
  /\ App.timers s' = []
  /\ exists id,
       forall v,
         App.listDevices_calls (App.step s' (App.Settle id (App.Summarized v)))
         = [ [("q", "")]; [("q", "")];
             [("q", "abc"); ("since", "2023-03-01T00:00:00.000Z");
              ("until", "+012345-01-01T00:00:00.000Z")] ].
Proof.
  cbv zeta.
  split; [vm_compute; reflexivity|]. split; [lia|].
  destruct (debounce_burst_loads_once Sample.signed_in (Burst.NewQ "a")
              [(50, Burst.NewQ "ab"); (50, Burst.NewQ "abc");
               (50, Burst.NewSince "2023-02-29"); (50, Burst.NewUntil "12345-01-01")] 350
              ltac:(vm_compute; reflexivity)
              ltac:(unfold Burst.own_timer; vm_compute; constructor)
              ltac:(unfold Burst.fresh_ids; vm_compute; constructor)
              ltac:(intros H; vm_compute in H; discriminate H)
              ltac:(repeat split; try lia; intros H; vm_compute in H; discriminate H)
              ltac:(lia))
    as (Hinputs & Htimers & _ & _ & id & _ & Hlist & _).
  split; [exact Hinputs|]. split; [exact Htimers|].
  exists id. intros v.
  exact (Hlist v (Some "2023-03-01T00:00:00.000Z") (Some "+012345-01-01T00:00:00.000Z")
           ltac:(vm_compute; reflexivity) ltac:(vm_compute; reflexivity)).
Defined.

(** C3 as stated fails when the [summary] call of the debounced [load()]
    is rejected: after "a", "ab", "abc" typed 50 ms apart and a quiet
    period, the one call issued is [summary] (request 8); once it is rejected
    nothing is pending and no [listDevices] call has been or will be issued
    for the burst, the two calls on record being those of the first loads. *)
Lemma debounce_no_list_call_when_summary_fails :
  let s := App.run Sample.signed_in
             [ App.ChangeQ "a"; App.Elapse 50; App.ChangeQ "ab"; App.Elapse 50;
               App.ChangeQ "abc"; App.Elapse 350 ] in
  let s' := App.run s [App.Settle 8 (App.Rejected "Error" "HTTP 500"); App.Elapse 1000] in
  App.listDevices_calls Sample.signed_in = [ [("q", "")]; [("q", "")] ]
  /\ App.pending s = [(8, App.AwaitSummary App.FromDebounce "abc" "" "")]
  /\ App.call <$> last (App.sent s) = Some Api.Summary
  /\ App.listDevices_calls s' = [ [("q", "")]; [("q", "")] ]
  /\ App.pending s' = []
  /\ App.timers s' = [].
Proof. vm_compute. repeat split. Qed.

(** ** Every reachable state has at most its own timeout pending *)

Lemma numbering_same (s s' : App.State) :
  App.timers s' = App.timers s -> App.cleanup s' = App.cleanup s ->
  App.pending s' = App.pending s -> App.next_id s' = App.next_id s ->
  Burst.numbering_ok s -> Burst.numbering_ok s'.
Proof.
  unfold Burst.numbering_ok, Burst.own_timer, Burst.fresh_ids.
  intros -> -> -> ->. tauto.
Qed.

Lemma numbering_with_ui (f : App.Ui -> App.Ui) (s : App.State) :
  Burst.numbering_ok s -> Burst.numbering_ok (App.with_ui f s).
Proof. by apply numbering_same. Qed.

Lemma numbering_issue (c : Api.Call) (k : App.Task) (s : App.State) :
  Burst.numbering_ok s -> Burst.numbering_ok (App.issue c k s).
Proof.
  unfold Burst.numbering_ok, Burst.own_timer, Burst.fresh_ids, App.issue. cbn.
  intros [Hown Hfresh]. split; [exact Hown|].
  apply Forall_app. split.
  - eapply Forall_impl; [exact Hfresh|]. cbn. lia.
  - repeat constructor.
Qed.

Lemma numbering_forget (id : nat) (s : App.State) :
  Burst.numbering_ok s -> Burst.numbering_ok (App.forget id s).
Proof.
  unfold Burst.numbering_ok, Burst.own_timer, Burst.fresh_ids, App.forget. cbn.
  intros [Hown Hfresh]. split; [exact Hown|].
  apply List.Forall_forall. intros p Hin. apply filter_In in Hin.
  rewrite List.Forall_forall in Hfresh. apply Hfresh. tauto.
Qed.

Lemma numbering_load_rejected (o : App.Origin) (name message : string) (s : App.State) :
  Burst.numbering_ok s -> Burst.numbering_ok (App.load_rejected o name message s).
Proof. destruct o; [apply numbering_with_ui | done]. Qed.

Lemma numbering_settle (id : nat) (r : App.Reply) (s : App.State) :
  Burst.numbering_ok s -> Burst.numbering_ok (App.settle id r s).
Proof.
  intros Hs. unfold App.settle.
  destruct (App.task_of id s) as [k|]; [|exact Hs].
  pose proof (numbering_forget id s Hs) as Hf.
  destruct k as [o q0 since0 until0|o|], r as [v|ds|logs|name message];
    cbn [App.resume]; try exact Hs.
  - unfold App.load_summarized.
    iso_cases since0 until0;
      auto using numbering_issue, numbering_load_rejected, numbering_with_ui.
  - by apply numbering_load_rejected.
  - by apply numbering_with_ui.
  - by apply numbering_load_rejected.
  - unfold App.loadLocationLogs_resolved.
    destruct logs; auto using numbering_with_ui.
  - unfold App.loadLocationLogs_rejected. auto using numbering_with_ui.
Qed.

Lemma numbering_fire (due : list App.Timer) (s : App.State) :
  Burst.numbering_ok s -> Burst.numbering_ok (fold_left App.fire due s).
Proof.
  revert s. induction due as [|tm due IH]; intros s Hs; [exact Hs|].
  cbn [fold_left]. apply IH. by apply numbering_issue.
Qed.

Lemma numbering_elapse (ms : nat) (s : App.State) :
  Burst.numbering_ok s -> Burst.numbering_ok (App.elapse ms s).
Proof.
  intros [Hown Hfresh]. unfold App.elapse. apply numbering_fire.
  split; [|exact Hfresh].
  unfold Burst.own_timer in *. cbn.
  apply List.Forall_forall. intros tm Hin. apply filter_In in Hin.
  rewrite List.Forall_forall in Hown. apply Hown. tauto.
Qed.

Lemma numbering_effect_debounce (r : App.Ui) (s : App.State) :
  Burst.numbering_ok s -> Burst.numbering_ok (App.effect_debounce r s).
Proof.
  intros [Hown Hfresh]. unfold Burst.numbering_ok, Burst.own_timer, Burst.fresh_ids in *.
  unfold App.effect_debounce.
  destruct (App.cleanup s) as [t|] eqn:Hcl.
  - pose proof (clear_own_timer t _ Hown) as Hclear.
    destruct (negb (App.authed r)); cbn; rewrite Hclear; cbn.
    + split; [constructor | exact Hfresh].
    + split; [by repeat constructor|].
      eapply Forall_impl; [exact Hfresh|]. cbn. lia.
  - pose proof (no_cleanup_no_timer _ Hown) as Hnone.
    destruct (negb (App.authed r)); cbn; rewrite Hnone; cbn.
    + split; [constructor | exact Hfresh].
    + split; [by repeat constructor|].
      eapply Forall_impl; [exact Hfresh|]. cbn. lia.
Qed.

Lemma numbering_effect_authed (r : App.Ui) (s : App.State) :
  Burst.numbering_ok s -> Burst.numbering_ok (App.effect_authed r s).
Proof.
  intros Hs. unfold App.effect_authed.
  destruct (negb (App.authed r)); [exact Hs | by apply numbering_issue].
Qed.

Lemma numbering_effect_selected (r : App.Ui) (s : App.State) :
  Burst.numbering_ok s -> Burst.numbering_ok (App.effect_selected r s).
Proof.
  intros Hs. unfold App.effect_selected, App.loadLocationLogs.
  destruct (App.selected_id r) as [id|]; [destruct (Js.truthy_string id)|];
    auto using numbering_issue, numbering_with_ui.
Qed.

Lemma numbering_commit (prev : App.Ui) (s : App.State) :
  Burst.numbering_ok s -> Burst.numbering_ok (App.commit prev s).
Proof.
  intros Hs. unfold App.commit.
  repeat case_bool_decide;
    auto using numbering_effect_authed, numbering_effect_debounce,
               numbering_effect_selected.
Qed.

Lemma numbering_handle (e : App.Event) (s : App.State) :
  Burst.numbering_ok s -> Burst.numbering_ok (App.handle e s).
Proof.
  intros Hs. destruct e as [v|v|v|i|i| |ms|id r]; cbn [App.handle].
  - destruct (App.authed (App.ui s)); [by apply numbering_with_ui | exact Hs].
  - destruct (App.authed (App.ui s)); [by apply numbering_with_ui | exact Hs].
  - destruct (App.authed (App.ui s)); [by apply numbering_with_ui | exact Hs].
  - destruct (App.devices (App.ui s) !! i); [|exact Hs].
    destruct (App.authed (App.ui s)); [by apply numbering_with_ui | exact Hs].
  - destruct (App.render (App.ui s)) as [[d p n [| |rows]]|]; try exact Hs.
    destruct (rows !! i); [by apply numbering_with_ui | exact Hs].
  - destruct (App.authed (App.ui s)); [|exact Hs].
    unfold App.logout. repeat apply numbering_with_ui.
    by apply (numbering_same s).
  - by apply numbering_elapse.
  - by apply numbering_settle.
Qed.

Lemma numbering_mount (legacy : string -> option string) (storage : gmap string string) :
  Burst.numbering_ok (App.mount legacy storage).
Proof.
  unfold App.mount.
  apply numbering_effect_selected, numbering_effect_debounce, numbering_effect_authed.
  split; constructor.
Qed.

(** In every reachable state the pending timeout, if any, is the one the
    debounce effect is going to clear, and the calls in flight carry ids
    below the next one. *)
Lemma reachable_numbering (s : App.State) :
  Burst.reachable s -> Burst.own_timer s /\ Burst.fresh_ids s.
Proof.
  induction 1 as [legacy storage|s e _ IH].
  - apply numbering_mount.
  - unfold App.step. by apply numbering_commit, numbering_handle.
Qed.


(** * Further properties of the code *)

(** ** Invariants of the running dashboard *)

Lemma reachable_run (s : App.State) (es : list App.Event) :
  Burst.reachable s -> Burst.reachable (App.run s es).
Proof.
  revert s. induction es as [|e es IH]; intros s Hs; [exact Hs|].
  cbn [App.run fold_left]. apply IH. by constructor.
Qed.

Lemma one_timer_same (s s' : App.State) :
  App.timers s' = App.timers s -> App.cleanup s' = App.cleanup s ->
  Watch.one_timer s -> Watch.one_timer s'.
Proof. unfold Watch.one_timer. intros -> ->. tauto. Qed.

Lemma one_timer_fire (due : list App.Timer) (s : App.State) :
  Watch.one_timer s -> Watch.one_timer (fold_left App.fire due s).
Proof.
  revert s. induction due as [|tm due IH]; intros s Hs; [exact Hs|].
  cbn [fold_left]. apply IH. by apply (one_timer_same s).
Qed.

Lemma one_timer_elapse (ms : nat) (s : App.State) :
  Watch.one_timer s -> Watch.one_timer (App.elapse ms s).
Proof.
  intros Hs. unfold App.elapse. apply one_timer_fire.
  unfold Watch.one_timer in *. cbn.
  destruct Hs as [-> | (tm & -> & Hcl)]; [by left|].
  cbn. destruct (Nat.leb (App.deadline tm) (App.now s + ms)); cbn; [by left|].
  right. by exists tm.
Qed.

Lemma one_timer_settle (id : nat) (r : App.Reply) (s : App.State) :
  Watch.one_timer s -> Watch.one_timer (App.settle id r s).
Proof.
  intros Hs. unfold App.settle.
  destruct (App.task_of id s) as [k|]; [|exact Hs].
  destruct k as [o q0 since0 until0|o|], r as [v|ds|logs|name message];
    cbn [App.resume]; try exact Hs; apply (one_timer_same s); try reflexivity;
    try exact Hs.
  - unfold App.load_summarized. by (iso_cases since0 until0; destruct o).
  - unfold App.load_summarized. by (iso_cases since0 until0; destruct o).
  - by destruct o.
  - by destruct o.
  - by destruct o.
  - by destruct o.
  - by destruct logs.
  - by destruct logs.
Qed.

Lemma one_timer_effect_debounce (r : App.Ui) (s : App.State) :
  Watch.one_timer s -> Watch.one_timer (App.effect_debounce r s).
Proof.
  intros Hs. unfold App.effect_debounce.
  assert (Hclear : App.timers (match App.cleanup s with
                               | Some t => App.clearTimeout t s
                               | None => s
                               end) = []).
  { destruct Hs as [Hnil | (tm & Htm & Hcl)].
    - destruct (App.cleanup s); cbn; by rewrite Hnil.
    - rewrite Hcl. cbn. rewrite Htm. cbn. by rewrite Nat.eqb_refl. }
  revert Hclear.
  generalize (match App.cleanup s with
              | Some t => App.clearTimeout t s
              | None => s
              end).
  intros s1 Hclear. unfold Watch.one_timer.
  destruct (negb (App.authed r)); cbn; rewrite Hclear; [by left|].
  right. eexists. split; reflexivity.
Qed.

Lemma one_timer_commit (prev : App.Ui) (s : App.State) :
  Watch.one_timer s -> Watch.one_timer (App.commit prev s).
Proof.
  intros Hs. unfold App.commit.
  assert (Ha : forall s0, Watch.one_timer s0 ->
                 Watch.one_timer (App.effect_authed (App.ui s) s0)).
  { intros s0 H0. unfold App.effect_authed.
    destruct (negb (App.authed (App.ui s))); [exact H0 | by apply (one_timer_same s0)]. }
  assert (Hsel : forall r s0, Watch.one_timer s0 ->
                   Watch.one_timer (App.effect_selected r s0)).
  { intros r s0 H0. unfold App.effect_selected.
    destruct (App.selected_id r) as [id|]; [destruct (Js.truthy_string id)|];
      by apply (one_timer_same s0). }
  repeat case_bool_decide; auto using one_timer_effect_debounce.
Qed.

Lemma one_timer_handle (e : App.Event) (s : App.State) :
  Watch.one_timer s -> Watch.one_timer (App.handle e s).
Proof.
  intros Hs. destruct e as [v|v|v|i|i| |ms|id r]; cbn [App.handle].
  - destruct (App.authed (App.ui s)); [by apply (one_timer_same s) | exact Hs].
  - destruct (App.authed (App.ui s)); [by apply (one_timer_same s) | exact Hs].
  - destruct (App.authed (App.ui s)); [by apply (one_timer_same s) | exact Hs].
  - destruct (App.devices (App.ui s) !! i); [|exact Hs].
    destruct (App.authed (App.ui s)); [by apply (one_timer_same s) | exact Hs].
  - destruct (App.render (App.ui s)) as [[d p n [| |rows]]|]; try exact Hs.
    destruct (rows !! i); [by apply (one_timer_same s) | exact Hs].
  - destruct (App.authed (App.ui s)); [by apply (one_timer_same s) | exact Hs].
  - by apply one_timer_elapse.
  - by apply one_timer_settle.
Qed.

(** X1.  However the inputs are edited and whatever else happens, the
    dashboard never has more than one debounce timeout pending. *)
Theorem at_most_one_timeout_pending (s : App.State) :
  Burst.reachable s -> length (App.timers s) <= 1.
Proof.
  intros Hs.
  assert (Hone : Watch.one_timer s).
  { induction Hs as [legacy storage|s e _ IH].
    - unfold App.mount.
      set (r := App.initial_ui storage).
      assert (H0 : Watch.one_timer (App.mkState r storage 0 [] None [] [] 0 legacy)) by (by left).
      assert (H1 : Watch.one_timer
                     (App.effect_authed r (App.mkState r storage 0 [] None [] [] 0 legacy))).
      { unfold App.effect_authed. destruct (negb (App.authed r)); [exact H0|].
        by apply (one_timer_same (App.mkState r storage 0 [] None [] [] 0 legacy)). }
      apply (one_timer_effect_debounce r) in H1.
      unfold App.effect_selected.
      destruct (App.selected_id r) as [id|]; [destruct (Js.truthy_string id)|];
        eapply one_timer_same; try exact H1; reflexivity.
    - unfold App.step. by apply one_timer_commit, one_timer_handle. }
  destruct Hone as [-> | (tm & -> & _)]; cbn; lia.
Qed.

Lemma at_most_one_timeout_pending_witness :
  Burst.reachable (App.run Sample.signed_in [App.ChangeQ "a"; App.Elapse 10; App.ChangeQ "ab"])
  /\ length (App.timers
               (App.run Sample.signed_in [App.ChangeQ "a"; App.Elapse 10; App.ChangeQ "ab"]))
     <= 1.
Proof.
  assert (Hr : Burst.reachable
                 (App.run Sample.signed_in
                    [App.ChangeQ "a"; App.Elapse 10; App.ChangeQ "ab"])).
  { apply reachable_run. unfold Sample.signed_in. apply reachable_run.
    apply Burst.reachable_mount. }
  split; [exact Hr|].
  exact (at_most_one_timeout_pending _ Hr).
Defined.

Lemma backed_same (s s' : App.State) :
  App.pending s' = App.pending s -> App.next_id s <= App.next_id s' ->
  (App.loadingLogs (App.ui s') = true -> App.loadingLogs (App.ui s) = true) ->
  Watch.loading_backed s -> Watch.loading_backed s'.
Proof.
  unfold Watch.loading_backed. intros -> Hnext Hload (Hdup & Hfresh & Hback).
  split; [exact Hdup|]. split; [|auto].
  eapply Forall_impl; [exact Hfresh|]. cbn. lia.
Qed.

Lemma backed_issue (c : Api.Call) (k : App.Task) (s : App.State) :
  Watch.loading_backed s -> Watch.loading_backed (App.issue c k s).
Proof.
  unfold Watch.loading_backed, App.issue. cbn. intros (Hdup & Hfresh & Hback).
  split; [|split].
  - rewrite map_app. cbn. apply NoDup_app. split; [exact Hdup|]. split.
    + intros n Hn [Heq|[]]%list_elem_of_In. subst n.
      apply list_elem_of_In, in_map_iff in Hn. destruct Hn as ([m k'] & Hm & Hin).
      rewrite List.Forall_forall in Hfresh. specialize (Hfresh _ Hin). cbn in *. lia.
    + apply NoDup_singleton.
  - apply Forall_app. split; [|by repeat constructor].
    eapply Forall_impl; [exact Hfresh|]. cbn. lia.
  - intros Hl. destruct (Hback Hl) as [id Hin]. exists id. apply in_or_app. by left.
Qed.

Lemma backed_loadLocationLogs (deviceId : string) (s : App.State) :
  Watch.loading_backed s -> Watch.loading_backed (App.loadLocationLogs deviceId s).
Proof.
  intros Hs. unfold App.loadLocationLogs.
  assert (Hi : Watch.loading_backed
                 (App.issue (Api.getLocationLogs deviceId None None) App.AwaitLogs s))
    by (by apply backed_issue).
  destruct Hi as (Hdup & Hfresh & _).
  split; [exact Hdup|]. split; [exact Hfresh|].
  intros _. exists (App.next_id s). cbn. apply in_or_app. right. by left.
Qed.

Lemma other_task_other_id (l : list (nat * App.Task)) (id id' : nat) (k k' : App.Task) :
  NoDup (map fst l) ->
  snd <$> find (fun p => Nat.eqb (fst p) id) l = Some k ->
  In (id', k') l -> k' <> k -> id' <> id.
Proof.
  intros Hdup Hfind Hin Hne ->.
  induction l as [|[n k0] l IH]; [done|].
  cbn in *. apply NoDup_cons in Hdup. destruct Hdup as [Hn Hdup].
  destruct (Nat.eqb_spec n id) as [->|Hnid].
  - cbn in Hfind. injection Hfind as ->.
    destruct Hin as [[= ->] | Hin]; [done|].
    apply Hn, list_elem_of_In, in_map_iff. by exists (id, k').
  - destruct Hin as [[= -> ->] | Hin]; [done|]. by apply IH.
Qed.

Lemma backed_forget (id : nat) (k : App.Task) (s : App.State) :
  App.task_of id s = Some k -> k <> App.AwaitLogs ->
  Watch.loading_backed s -> Watch.loading_backed (App.forget id s).
Proof.
  unfold Watch.loading_backed, App.forget, App.task_of. cbn.
  intros Htask Hk (Hdup & Hfresh & Hback). split; [|split].
  - clear -Hdup. induction (App.pending s) as [|[n k0] l IH]; [constructor|].
    cbn in *. apply NoDup_cons in Hdup. destruct Hdup as [Hn Hdup].
    destruct (negb (Nat.eqb n id)); [|by apply IH]. cbn. apply NoDup_cons. split; [|by apply IH].
    intros Hin. apply Hn. apply list_elem_of_In, in_map_iff in Hin.
    destruct Hin as (p & Hp & Hin). apply filter_In in Hin.
    apply list_elem_of_In, in_map_iff. exists p. tauto.
  - apply List.Forall_forall. intros p Hin. apply filter_In in Hin.
    rewrite List.Forall_forall in Hfresh. apply Hfresh. tauto.
  - intros Hl. destruct (Hback Hl) as [id' Hin]. exists id'.
    apply filter_In. split; [exact Hin|]. cbn.
    apply negb_true_iff, Nat.eqb_neq.
    eapply other_task_other_id; eauto.
Qed.

Lemma backed_forget_logs (id : nat) (s s' : App.State) :
  Watch.loading_backed s ->
  App.pending s' = App.pending (App.forget id s) -> App.next_id s <= App.next_id s' ->
  App.loadingLogs (App.ui s') = false ->
  Watch.loading_backed s'.
Proof.
  unfold Watch.loading_backed, App.forget. cbn.
  intros (Hdup & Hfresh & _) -> Hnext Hfalse. split; [|split].
  - clear -Hdup. induction (App.pending s) as [|[n k0] l IH]; [constructor|].
    cbn in *. apply NoDup_cons in Hdup. destruct Hdup as [Hn Hdup].
    destruct (negb (Nat.eqb n id)); [|by apply IH]. cbn. apply NoDup_cons. split; [|by apply IH].
    intros Hin. apply Hn. apply list_elem_of_In, in_map_iff in Hin.
    destruct Hin as (p & Hp & Hin). apply filter_In in Hin.
    apply list_elem_of_In, in_map_iff. exists p. tauto.
  - apply List.Forall_forall. intros p Hin. apply filter_In in Hin.
    rewrite List.Forall_forall in Hfresh. specialize (Hfresh p). cbn in *.
    assert (fst p < App.next_id s) by tauto. lia.
  - rewrite Hfalse. discriminate.
Qed.

Lemma backed_settle (id : nat) (r : App.Reply) (s : App.State) :
  Watch.loading_backed s -> Watch.loading_backed (App.settle id r s).
Proof.
  intros Hs. unfold App.settle.
  destruct (App.task_of id s) as [k|] eqn:Htask; [|exact Hs].
  destruct k as [o q0 since0 until0|o|], r as [v|ds|logs|name message];
    cbn [App.resume]; try exact Hs.
  - assert (Hf : Watch.loading_backed (App.forget id s))
      by (eapply backed_forget; eauto; discriminate).
    unfold App.load_summarized.
    iso_cases since0 until0;
      try (destruct o; by apply (backed_same (App.forget id s))).
    apply backed_issue. by apply (backed_same (App.forget id s)).
  - assert (Hf : Watch.loading_backed (App.forget id s))
      by (eapply backed_forget; eauto; discriminate).
    destruct o; [by apply (backed_same (App.forget id s)) | exact Hf].
  - assert (Hf : Watch.loading_backed (App.forget id s))
      by (eapply backed_forget; eauto; discriminate).
    by apply (backed_same (App.forget id s)).
  - assert (Hf : Watch.loading_backed (App.forget id s))
      by (eapply backed_forget; eauto; discriminate).
    destruct o; [by apply (backed_same (App.forget id s)) | exact Hf].
  - apply (backed_forget_logs id s); [exact Hs | by destruct logs | by destruct logs
                                      | by destruct logs].
  - by apply (backed_forget_logs id s).
Qed.

Lemma backed_fire (due : list App.Timer) (s : App.State) :
  Watch.loading_backed s -> Watch.loading_backed (fold_left App.fire due s).
Proof.
  revert s. induction due as [|tm due IH]; intros s Hs; [exact Hs|].
  cbn [fold_left]. apply IH. by apply backed_issue.
Qed.

Lemma backed_effect_debounce (r : App.Ui) (s : App.State) :
  Watch.loading_backed s -> Watch.loading_backed (App.effect_debounce r s).
Proof.
  intros Hs. unfold App.effect_debounce.
  assert (H1 : Watch.loading_backed (match App.cleanup s with
                                     | Some t => App.clearTimeout t s
                                     | None => s
                                     end))
    by (destruct (App.cleanup s); [by apply (backed_same s) | exact Hs]).
  revert H1.
  generalize (match App.cleanup s with
              | Some t => App.clearTimeout t s
              | None => s
              end).
  intros s1 H1.
  destruct (negb (App.authed r)); apply (backed_same s1); cbn; auto.
Qed.

Lemma backed_commit (prev : App.Ui) (s : App.State) :
  Watch.loading_backed s -> Watch.loading_backed (App.commit prev s).
Proof.
  intros Hs. unfold App.commit.
  assert (Ha : forall r s0, Watch.loading_backed s0 ->
                 Watch.loading_backed (App.effect_authed r s0)).
  { intros r s0 H0. unfold App.effect_authed.
    destruct (negb (App.authed r)); [exact H0 | by apply backed_issue]. }
  assert (Hsel : forall r s0, Watch.loading_backed s0 ->
                   Watch.loading_backed (App.effect_selected r s0)).
  { intros r s0 H0. unfold App.effect_selected.
    destruct (App.selected_id r) as [id|]; [destruct (Js.truthy_string id)|];
      [by apply backed_loadLocationLogs | by apply (backed_same s0)
       | by apply (backed_same s0)]. }
  repeat case_bool_decide; auto using backed_effect_debounce.
Qed.

Lemma backed_handle (e : App.Event) (s : App.State) :
  Watch.loading_backed s -> Watch.loading_backed (App.handle e s).
Proof.
  intros Hs. destruct e as [v|v|v|i|i| |ms|id r]; cbn [App.handle].
  - destruct (App.authed (App.ui s)); [by apply (backed_same s) | exact Hs].
  - destruct (App.authed (App.ui s)); [by apply (backed_same s) | exact Hs].
  - destruct (App.authed (App.ui s)); [by apply (backed_same s) | exact Hs].
  - destruct (App.devices (App.ui s) !! i); [|exact Hs].
    destruct (App.authed (App.ui s)); [by apply (backed_same s) | exact Hs].
  - destruct (App.render (App.ui s)) as [[d p n [| |rows]]|]; try exact Hs.
    destruct (rows !! i); [by apply (backed_same s) | exact Hs].
  - destruct (App.authed (App.ui s)); [by apply (backed_same s) | exact Hs].
  - unfold App.elapse. apply backed_fire. by apply (backed_same s).
  - by apply backed_settle.
Qed.

(** X2.  The loading line of the location history is never shown without
    a [getLocationLogs] call in flight: in every state the dashboard can
    reach, a raised loading flag is backed by a pending call, whose reply or
    rejection drops the flag. *)
Theorem loading_only_while_fetching (s : App.State) :
  Burst.reachable s ->
  App.loadingLogs (App.ui s) = true ->
  exists id,
    In (id, App.AwaitLogs) (App.pending s)
    /\ (forall logs,
          App.loadingLogs (App.ui (App.step s (App.Settle id (App.LogList logs)))) = false)
    /\ (forall name message,
          App.loadingLogs
            (App.ui (App.step s (App.Settle id (App.Rejected name message)))) = false).
Proof.
  intros Hs Hloading.
  assert (Hb : Watch.loading_backed s).
  { clear Hloading. induction Hs as [legacy storage|s e _ IH].
    - unfold App.mount.
      set (r := App.initial_ui storage).
      assert (H0 : Watch.loading_backed (App.mkState r storage 0 [] None [] [] 0 legacy)).
      { split; [constructor|]. split; [constructor|]. discriminate. }
      assert (H1 : Watch.loading_backed
                     (App.effect_authed r (App.mkState r storage 0 [] None [] [] 0 legacy))).
      { unfold App.effect_authed. destruct (negb (App.authed r)); [exact H0|].
        by apply backed_issue. }
      apply (backed_effect_debounce r) in H1.
      unfold App.effect_selected. cbn. by apply (backed_same _ _ eq_refl).
    - unfold App.step. by apply backed_commit, backed_handle. }
  destruct Hb as (Hdup & _ & Hback). destruct (Hback Hloading) as [id Hin].
  exists id. split; [exact Hin|].
  assert (Htask : App.task_of id s = Some App.AwaitLogs).
  { unfold App.task_of. clear -Hdup Hin.
    induction (App.pending s) as [|[n k] l IH]; [done|].
    cbn in *. apply NoDup_cons in Hdup. destruct Hdup as [Hn Hdup].
    destruct Hin as [[= -> ->] | Hin]; [by rewrite Nat.eqb_refl|].
    destruct (Nat.eqb_spec n id) as [->|_]; [|by apply IH].
    exfalso. apply Hn, list_elem_of_In, in_map_iff. by exists (id, App.AwaitLogs). }
  split; intros; rewrite step_settle; unfold App.settle; rewrite Htask; reflexivity.
Qed.

Lemma loading_only_while_fetching_witness :
  Burst.reachable (App.step Sample.signed_in (App.ClickDevice 0))
  /\ App.loadingLogs (App.ui (App.step Sample.signed_in (App.ClickDevice 0))) = true
  /\ exists id,
       In (id, App.AwaitLogs) (App.pending (App.step Sample.signed_in (App.ClickDevice 0)))
       /\ (forall logs,
             App.loadingLogs
               (App.ui (App.step (App.step Sample.signed_in (App.ClickDevice 0))
                          (App.Settle id (App.LogList logs)))) = false)
       /\ (forall name message,
             App.loadingLogs
               (App.ui (App.step (App.step Sample.signed_in (App.ClickDevice 0))
                          (App.Settle id (App.Rejected name message)))) = false).
Proof.
  assert (Hr : Burst.reachable (App.step Sample.signed_in (App.ClickDevice 0))).
  { apply Burst.reachable_step. unfold Sample.signed_in. apply reachable_run.
    apply Burst.reachable_mount. }
  split; [exact Hr|]. split; [vm_compute; reflexivity|].
  exact (loading_only_while_fetching _ Hr ltac:(vm_compute; reflexivity)).
Defined.

(** ** The request headers *)

Lemma headers_authorization (storage options : gmap string string) :
  Api.headers storage options !! "authorization"
  = match Api.getToken storage with
    | Some t => if Js.truthy_string t then Some ("Bearer " ++ t)
                else options !! "authorization"
    | None => options !! "authorization"
    end.
Proof.
  unfold Api.headers.
  assert (Hbase : (options ∪ {["content-type" := "application/json"]})
                    !! "authorization" = options !! "authorization").
  { rewrite lookup_union, lookup_singleton_ne by done.
    by destruct (options !! "authorization"). }
  destruct (Api.getToken storage) as [t|]; [|exact Hbase].
  destruct (Js.truthy_string t); [apply lookup_insert_eq | exact Hbase].
Qed.

(** X3.  Every request carries [authorization: Bearer <token>] once a
    non-empty token has been stored, whatever headers the caller passes;
    after [setToken(null)] no such header is added; the content type is
    [application/json] unless the caller overrides it. *)
Theorem bearer_header_follows_stored_token
    (storage options : gmap string string) (t : string) :
  t <> "" ->
  Api.headers (Api.setToken (Some t) storage) options !! "authorization"
  = Some ("Bearer " ++ t)
  /\ Api.headers (Api.setToken None storage) options !! "authorization"
     = options !! "authorization"
  /\ Api.headers (Api.setToken None storage) ∅ !! "authorization" = None
  /\ Api.headers storage ∅ !! "content-type" = Some "application/json"
  /\ (forall v, options !! "content-type" = Some v ->
        Api.headers storage options !! "content-type" = Some v).
Proof.
  intros Ht. pose proof (truthy_string_nonempty t Ht) as Htruthy.
  split; [|split; [|split; [|split]]].
  - rewrite headers_authorization, getToken_setToken_some by exact Htruthy.
    by rewrite Htruthy.
  - rewrite headers_authorization.
    by rewrite (getToken_setToken_falsy storage None).
  - rewrite headers_authorization.
    by rewrite (getToken_setToken_falsy storage None).
  - unfold Api.headers.
    assert (Hb : ((∅ : gmap string string) ∪ {["content-type" := "application/json"]})
                   !! "content-type" = Some "application/json").
    { rewrite lookup_union_r by apply lookup_empty. apply lookup_singleton_eq. }
    destruct (Api.getToken storage) as [t'|]; [|exact Hb].
    destruct (Js.truthy_string t'); [|exact Hb].
    by rewrite lookup_insert_ne.
  - intros v Hv. unfold Api.headers.
    assert (Hb : (options ∪ {["content-type" := "application/json"]})
                   !! "content-type" = Some v).
    { by apply lookup_union_Some_l. }
    destruct (Api.getToken storage) as [t'|]; [|exact Hb].
    destruct (Js.truthy_string t'); [|exact Hb].
    by rewrite lookup_insert_ne.
Qed.

Lemma bearer_header_follows_stored_token_witness :
  "tok" <> ""
  /\ Api.headers (Api.setToken (Some "tok") ∅) ∅ !! "authorization" = Some "Bearer tok".
Proof.
  split; [discriminate|].
  exact (proj1 (bearer_header_follows_stored_token ∅ ∅ "tok" ltac:(discriminate))).
Defined.

(** ** Mounting *)

(** X4.  Without a token in storage the dashboard is inert: whatever the
    search, selection and logout events and however much time passes, it
    issues no request, sets no timeout and keeps its initial state. *)
Theorem logged_out_dashboard_is_inert
    (legacy : string -> option string) (storage : gmap string string)
    (es : list App.Event) :
  App.authed (App.initial_ui storage) = false ->
  let s := App.run (App.mount legacy storage) es in
  App.ui s = App.initial_ui storage
  /\ App.sent s = [] /\ App.pending s = [] /\ App.timers s = []
  /\ App.localStorage s = storage.
Proof.
  intros Hout.
  assert (Hgen : forall s,
            App.ui s = App.initial_ui storage ->
            App.sent s = [] -> App.pending s = [] -> App.timers s = [] ->
            App.localStorage s = storage ->
            let s' := App.run s es in
            App.ui s' = App.initial_ui storage
            /\ App.sent s' = [] /\ App.pending s' = [] /\ App.timers s' = []
            /\ App.localStorage s' = storage).
  { induction es as [|e es IH]; intros s Hui Hsent Hpend Htimers Hstore; [by cbn|].
    cbn [App.run fold_left].
    assert (Hstep : App.ui (App.step s e) = App.ui s
                    /\ App.sent (App.step s e) = App.sent s
                    /\ App.pending (App.step s e) = App.pending s
                    /\ App.timers (App.step s e) = App.timers s
                    /\ App.localStorage (App.step s e) = App.localStorage s).
    { assert (Hauth : App.authed (App.ui s) = false) by (by rewrite Hui).
      destruct e as [v|v|v|i|i| |ms|id r].
      - unfold App.step. cbn [App.handle]. rewrite Hauth.
        by rewrite commit_unchanged.
      - unfold App.step. cbn [App.handle]. rewrite Hauth.
        by rewrite commit_unchanged.
      - unfold App.step. cbn [App.handle]. rewrite Hauth.
        by rewrite commit_unchanged.
      - unfold App.step. cbn [App.handle].
        assert (Hdev : App.devices (App.ui s) !! i = None)
          by (rewrite Hui; apply lookup_nil).
        rewrite Hdev. by rewrite commit_unchanged.
      - unfold App.step. cbn [App.handle]. unfold App.render. rewrite Hauth.
        by rewrite commit_unchanged.
      - unfold App.step. cbn [App.handle]. rewrite Hauth.
        by rewrite commit_unchanged.
      - rewrite step_elapse. unfold App.elapse. rewrite Htimers. by cbn.
      - rewrite step_settle. unfold App.settle, App.task_of. rewrite Hpend. by cbn. }
    destruct Hstep as (H1 & H2 & H3 & H4 & H5).
    apply IH; congruence. }
  apply Hgen; unfold App.mount, App.effect_authed, App.effect_debounce,
    App.effect_selected; rewrite Hout; reflexivity.
Qed.

Lemma logged_out_dashboard_is_inert_witness :
  App.authed (App.initial_ui (<["theme" := "dark"]> ∅)) = false
  /\ App.sent (App.run (App.mount Sample.browser (<["theme" := "dark"]> ∅))
                 [ App.ChangeQ "a"; App.Elapse 400; App.ClickDevice 0; App.ClickLogout ])
     = [].
Proof.
  assert (Hout : App.authed (App.initial_ui (<["theme" := "dark"]> ∅)) = false)
    by (vm_compute; reflexivity).
  split; [exact Hout|].
  exact (proj1 (proj2
           (logged_out_dashboard_is_inert Sample.browser (<["theme" := "dark"]> ∅)
              [ App.ChangeQ "a"; App.Elapse 400; App.ClickDevice 0; App.ClickLogout ]
              Hout))).
Defined.

(** X5.  A dashboard mounted with a stored token loads twice: it issues
    the [summary] call of a first [load()] at once and, the debounce effect
    having also run on the first render, that of a second [load()] 350 ms
    later; both carry the bearer token. *)
Theorem mount_loads_twice
    (legacy : string -> option string) (storage : gmap string string)
    (t : string) (ms : nat) :
  Api.getToken storage = Some t -> t <> "" ->
  let first := App.mkRequest 0 Api.Summary (Some ("Bearer " ++ t)) in
  App.sent (App.mount legacy storage) = [first]
  /\ (ms < 350 -> App.sent (App.run (App.mount legacy storage) [App.Elapse ms]) = [first])
  /\ (350 <= ms ->
      App.sent (App.run (App.mount legacy storage) [App.Elapse ms])
      = [first; App.mkRequest 2 Api.Summary (Some ("Bearer " ++ t))]).
Proof.
  intros Htok Ht. pose proof (truthy_string_nonempty t Ht) as Htruthy.
  assert (Hauthed : App.authed (App.initial_ui storage) = true).
  { unfold App.authed, App.initial_ui. cbn. by rewrite Htok. }
  assert (Hhdr : Api.headers storage ∅ !! "authorization" = Some ("Bearer " ++ t)).
  { rewrite headers_authorization, Htok, Htruthy. reflexivity. }
  assert (Hmount : App.mount legacy storage
                   = App.mkState (App.initial_ui storage) storage 0
                       [App.mkTimer 1 350 "" "" ""] (Some 1)
                       [(0, App.AwaitSummary App.FromAuthEffect "" "" "")]
                       [App.mkRequest 0 Api.Summary (Some ("Bearer " ++ t))] 2 legacy).
  { unfold App.mount, App.effect_authed, App.effect_debounce, App.effect_selected.
    rewrite Hauthed. cbn -[Api.headers lookup].
    unfold App.load, App.issue, App.setTimeout.
    cbn [App.ui App.localStorage App.now App.timers App.cleanup App.pending App.sent
         App.next_id app].
    rewrite Hhdr. reflexivity. }
  rewrite Hmount. cbn [App.run fold_left]. rewrite step_elapse.
  split; [reflexivity|]. split; intros Hms; unfold App.elapse;
    cbn [App.timers App.now App.ui App.localStorage App.cleanup App.pending App.sent
         App.next_id List.filter App.deadline Nat.add].
  - assert (Hleb : Nat.leb 350 ms = false) by (apply Nat.leb_gt; lia).
    rewrite Hleb. reflexivity.
  - assert (Hleb : Nat.leb 350 ms = true) by (apply Nat.leb_le; lia).
    rewrite Hleb. cbn [fold_left negb].
    unfold App.fire, App.load, App.issue.
    cbn [App.ui App.localStorage App.now App.timers App.cleanup App.pending App.sent
         App.next_id app].
    rewrite Hhdr. reflexivity.
Qed.

Lemma mount_loads_twice_witness :
  Api.getToken (<["adminToken" := "tok"]> ∅) = Some "tok" /\ "tok" <> ""
  /\ App.sent (App.mount Sample.browser (<["adminToken" := "tok"]> ∅))
     = [App.mkRequest 0 Api.Summary (Some "Bearer tok")].
Proof.
  split; [reflexivity|]. split; [discriminate|].
  exact (proj1 (mount_loads_twice Sample.browser (<["adminToken" := "tok"]> ∅) "tok" 0
                  eq_refl ltac:(discriminate))).
Defined.

(** ** Selecting devices and log entries *)

(** X6.  A click on the device that is already selected (same id) fetches
    nothing: the effect on [selected?.deviceId] does not run, so no call is
    issued and the logs, the selected location and the loading flag stay
    as they are; only the stored snapshot of the device is replaced. *)
Theorem reselecting_same_device_fetches_nothing
    (s : App.State) (i : nat) (d : App.Device) :
  App.authed (App.ui s) = true ->
  App.devices (App.ui s) !! i = Some d ->
  App.selected_id (App.ui s) = Some (App.deviceId d) ->
  App.step s (App.ClickDevice i) = App.setSelected (Some d) s
  /\ App.sent (App.step s (App.ClickDevice i)) = App.sent s
  /\ App.pending (App.step s (App.ClickDevice i)) = App.pending s
  /\ App.locationLogs (App.ui (App.step s (App.ClickDevice i))) = App.locationLogs (App.ui s)
  /\ App.selectedLocation (App.ui (App.step s (App.ClickDevice i)))
     = App.selectedLocation (App.ui s)
  /\ App.loadingLogs (App.ui (App.step s (App.ClickDevice i))) = App.loadingLogs (App.ui s).
Proof.
  intros Hauthed Hrow Hsame.
  assert (Hstep : App.step s (App.ClickDevice i) = App.setSelected (Some d) s).
  { unfold App.step. cbn [App.handle]. rewrite Hrow, Hauthed.
    apply commit_unchanged. unfold App.deps. rewrite Hsame. reflexivity. }
  rewrite Hstep. repeat split.
Qed.

Lemma reselecting_same_device_fetches_nothing_witness :
  App.authed (App.ui Sample.phone_open) = true
  /\ App.devices (App.ui Sample.phone_open) !! 0 = Some Sample.phone
  /\ App.selected_id (App.ui Sample.phone_open) = Some (App.deviceId Sample.phone)
  /\ App.sent (App.step Sample.phone_open (App.ClickDevice 0)) = App.sent Sample.phone_open.
Proof.
  split; [vm_compute; reflexivity|]. split; [vm_compute; reflexivity|].
  split; [vm_compute; reflexivity|].
  exact (proj1 (proj2
           (reselecting_same_device_fetches_nothing Sample.phone_open 0 Sample.phone
              ltac:(vm_compute; reflexivity) ltac:(vm_compute; reflexivity)
              ltac:(vm_compute; reflexivity)))).
Defined.

(** X7.  A click on a device whose id is the empty string selects it but
    fetches nothing: the effect takes its other branch, empties the log
    list and the selected location, and issues no call. *)
Theorem device_without_id_fetches_nothing
    (s : App.State) (i : nat) (d : App.Device) :
  App.authed (App.ui s) = true ->
  App.devices (App.ui s) !! i = Some d ->
  App.deviceId d = "" ->
  App.selected_id (App.ui s) <> Some "" ->
  let s' := App.step s (App.ClickDevice i) in
  App.selected (App.ui s') = Some d
  /\ App.locationLogs (App.ui s') = []
  /\ App.selectedLocation (App.ui s') = None
  /\ App.loadingLogs (App.ui s') = App.loadingLogs (App.ui s)
  /\ App.sent s' = App.sent s
  /\ App.pending s' = App.pending s.
Proof.
  intros Hauthed Hrow Hid Hother s'.
  assert (Hs' : s' = App.setSelectedLocation None
                       (App.setLocationLogs [] (App.setSelected (Some d) s))).
  { subst s'. unfold App.step. cbn [App.handle]. rewrite Hrow, Hauthed.
    rewrite commit_selected_only; [| reflexivity | reflexivity |].
    - assert (Hsel : App.selected_id (App.ui (App.setSelected (Some d) s)) = Some "")
        by (by cbn; rewrite Hid).
      unfold App.effect_selected. rewrite Hsel. reflexivity.
    - cbn. by rewrite Hid. }
  rewrite Hs'. repeat split.
Qed.

Lemma device_without_id_fetches_nothing_witness :
  let nameless := App.mkDevice "" "Unnamed" "?" "?" "" None App.REINSTALLED None in
  let s0 := App.setDevices [nameless] Sample.phone_open in
  App.authed (App.ui s0) = true
  /\ App.devices (App.ui s0) !! 0 = Some nameless
  /\ App.locationLogs (App.ui s0) = [Sample.L1; Sample.L2]
  /\ App.locationLogs (App.ui (App.step s0 (App.ClickDevice 0))) = [].
Proof.
  cbv zeta.
  split; [vm_compute; reflexivity|]. split; [vm_compute; reflexivity|].
  split; [vm_compute; reflexivity|].
  exact (proj1 (proj2
           (device_without_id_fetches_nothing
              (App.setDevices
                 [App.mkDevice "" "Unnamed" "?" "?" "" None App.REINSTALLED None]
                 Sample.phone_open) 0
              (App.mkDevice "" "Unnamed" "?" "?" "" None App.REINSTALLED None)
              ltac:(vm_compute; reflexivity) ltac:(vm_compute; reflexivity)
              eq_refl ltac:(intros H; vm_compute in H; discriminate H)))).
Defined.

(** X8.  A click on a row of the location history.  The rows are shown
    when the dashboard is, a device is selected, the logs are not loading
    and the list is not empty; a click on row [i] then sets the selected
    location to the entry of that row and changes nothing else: no call is
    issued, no timer set, and the device, the logs, the device list and the
    loading flag are untouched.  When the row is not there the click
    cannot happen and the state stays as it is. *)
Theorem log_click_changes_only_selected_location (s : App.State) (i : nat) :
  let s' := App.step s (App.ClickLog i) in
  (forall d l,
      App.authed (App.ui s) = true ->
      App.selected (App.ui s) = Some d ->
      App.loadingLogs (App.ui s) = false ->
      App.locationLogs (App.ui s) !! i = Some l ->
      s' = App.setSelectedLocation (Some l) s
      /\ App.selectedLocation (App.ui s') = Some l
      /\ App.selected (App.ui s') = Some d
      /\ App.locationLogs (App.ui s') = App.locationLogs (App.ui s)
      /\ App.loadingLogs (App.ui s') = false
      /\ App.devices (App.ui s') = App.devices (App.ui s)
      /\ App.summary (App.ui s') = App.summary (App.ui s)
      /\ App.error (App.ui s') = App.error (App.ui s)
      /\ Watch.session s' = Watch.session s
      /\ App.sent s' = App.sent s
      /\ App.pending s' = App.pending s
      /\ App.timers s' = App.timers s)
  /\ (App.authed (App.ui s) = false \/ App.selected (App.ui s) = None
      \/ App.loadingLogs (App.ui s) = true
      \/ App.locationLogs (App.ui s) !! i = None ->
      s' = s).
Proof.
  cbv zeta. unfold App.step. cbn [App.handle]. unfold App.render, App.logs_body.
  split.
  - intros d l Hauthed Hselected Hloading Hrow.
    rewrite Hauthed, Hselected, Hloading.
    destruct (App.locationLogs (App.ui s)) as [|first rest] eqn:Hlogs;
      [by rewrite lookup_nil in Hrow|].
    rewrite Hrow.
    assert (Hstep : App.commit (App.ui s) (App.setSelectedLocation (Some l) s)
                    = App.setSelectedLocation (Some l) s)
      by (by apply commit_unchanged).
    rewrite Hstep. cbn.
    by rewrite Hselected, Hloading, Hlogs.
  - intros Hnone.
    destruct (App.authed (App.ui s)); [|by apply commit_unchanged].
    destruct (App.selected (App.ui s)) as [d|]; [|by apply commit_unchanged].
    destruct (App.loadingLogs (App.ui s)); [by apply commit_unchanged|].
    destruct (App.locationLogs (App.ui s)) as [|first rest];
      [by apply commit_unchanged|].
    destruct ((first :: rest) !! i) as [l|]; [|by apply commit_unchanged].
    by destruct Hnone as [H | [H | [H | H]]].
Qed.

Lemma logs_calls_same (s s' : App.State) :
  App.sent s' = App.sent s -> Watch.logs_calls s' = Watch.logs_calls s.
Proof. unfold Watch.logs_calls. by intros ->. Qed.

Lemma logs_calls_issue (c : Api.Call) (k : App.Task) (s : App.State) :
  Watch.logs_calls (App.issue c k s)
  = (Watch.logs_calls s
     ++ match c with
        | Api.GetLocationLogs _ _ =>
            [App.mkRequest (App.next_id s) c
               (Api.headers (App.localStorage s) ∅ !! "authorization")]
        | _ => []
        end)%list.
Proof.
  unfold Watch.logs_calls, App.issue. cbn [App.sent]. rewrite List.filter_app.
  f_equal. by destruct c.
Qed.

Lemma logs_calls_fire (due : list App.Timer) (s : App.State) :
  Watch.logs_calls (fold_left App.fire due s) = Watch.logs_calls s.
Proof.
  revert s. induction due as [|tm due IH]; intros s; [reflexivity|].
  cbn [fold_left]. rewrite IH. unfold App.fire, App.load.
  rewrite logs_calls_issue. apply app_nil_r.
Qed.

Lemma logs_calls_settle (id : nat) (r : App.Reply) (s : App.State) :
  Watch.logs_calls (App.settle id r s) = Watch.logs_calls s.
Proof.
  unfold App.settle.
  destruct (App.task_of id s) as [k|]; [|reflexivity].
  destruct k as [o q0 since0 until0|o|], r as [v|ds|logs|name message];
    cbn [App.resume]; try reflexivity.
  - unfold App.load_summarized.
    iso_cases since0 until0; try (by destruct o).
    rewrite logs_calls_issue. apply app_nil_r.
  - by destruct o.
  - by destruct o.
  - by destruct logs.
Qed.

Lemma logs_calls_effect_debounce (r : App.Ui) (s : App.State) :
  Watch.logs_calls (App.effect_debounce r s) = Watch.logs_calls s.
Proof.
  unfold App.effect_debounce.
  destruct (App.cleanup s), (negb (App.authed r)); reflexivity.
Qed.

Lemma logs_calls_effect_authed (r : App.Ui) (s : App.State) :
  Watch.logs_calls (App.effect_authed r s) = Watch.logs_calls s.
Proof.
  unfold App.effect_authed. destruct (negb (App.authed r)); [reflexivity|].
  unfold App.load. rewrite logs_calls_issue. apply app_nil_r.
Qed.

(** What the effects of a render add to the log fetches: nothing, or one
    call for the newly selected device. *)
Lemma logs_calls_commit (prev : App.Ui) (s : App.State) :
  Watch.logs_calls (App.commit prev s) = Watch.logs_calls s
  \/ exists id rq,
       App.selected_id (App.ui s) = Some id /\ App.selected_id prev <> Some id
       /\ App.call rq = Api.GetLocationLogs id []
       /\ Watch.logs_calls (App.commit prev s) = (Watch.logs_calls s ++ [rq])%list.
Proof.
  unfold App.commit.
  set (s1 := if bool_decide (App.authed prev = App.authed (App.ui s)) then s
             else App.effect_authed (App.ui s) s).
  assert (H1 : Watch.logs_calls s1 = Watch.logs_calls s).
  { subst s1. case_bool_decide; [reflexivity | apply logs_calls_effect_authed]. }
  set (s2 := if bool_decide ((App.q prev, App.since prev, App.until prev)
                             = (App.q (App.ui s), App.since (App.ui s), App.until (App.ui s)))
             then s1 else App.effect_debounce (App.ui s) s1).
  assert (H2 : Watch.logs_calls s2 = Watch.logs_calls s).
  { subst s2. case_bool_decide; [exact H1 | by rewrite logs_calls_effect_debounce]. }
  clearbody s2. clear s1 H1.
  case_bool_decide as Hsel; [by left|].
  unfold App.effect_selected.
  destruct (App.selected_id (App.ui s)) as [id|] eqn:Hid; [|left; exact H2].
  destruct (Js.truthy_string id); [|left; exact H2].
  right. eexists id, _. split; [reflexivity|]. split; [congruence|].
  split; [|unfold App.loadLocationLogs; rewrite logs_calls_issue;
           cbn [Api.getLocationLogs]; rewrite <- H2; reflexivity].
  reflexivity.
Qed.

(** X9.  Log entries are fetched for a clicked device only: an event adds
    at most one [getLocationLogs] call to those issued, and when it adds one
    the event is a click on a row of the device list and the call names that
    device, with no date filter.  Typing, timers, replies, clicks on log
    rows and logout never fetch logs. *)
Theorem logs_fetched_only_on_device_click (s : App.State) (e : App.Event) :
  Watch.logs_calls (App.step s e) = Watch.logs_calls s
  \/ exists i d rq,
       e = App.ClickDevice i
       /\ App.devices (App.ui s) !! i = Some d
       /\ App.call rq = Api.GetLocationLogs (App.deviceId d) []
       /\ Watch.logs_calls (App.step s e) = (Watch.logs_calls s ++ [rq])%list.
Proof.
  assert (Hkeep : forall s',
            Watch.logs_calls s' = Watch.logs_calls s ->
            App.selected_id (App.ui s') = App.selected_id (App.ui s)
            \/ App.selected_id (App.ui s') = None ->
            Watch.logs_calls (App.commit (App.ui s) s') = Watch.logs_calls s).
  { intros s' Hcalls Hsel.
    destruct (logs_calls_commit (App.ui s) s') as [H | (id & rq & Hid & Hne & _)];
      [congruence|].
    destruct Hsel as [Hsel | Hsel]; congruence. }
  destruct e as [v|v|v|i|i| |ms|id r].
  - left. unfold App.step. cbn [App.handle].
    destruct (App.authed (App.ui s)); apply Hkeep; auto.
  - left. unfold App.step. cbn [App.handle].
    destruct (App.authed (App.ui s)); apply Hkeep; auto.
  - left. unfold App.step. cbn [App.handle].
    destruct (App.authed (App.ui s)); apply Hkeep; auto.
  - unfold App.step. cbn [App.handle].
    destruct (App.devices (App.ui s) !! i) as [d|] eqn:Hrow; [|left; apply Hkeep; auto].
    destruct (App.authed (App.ui s)); [|left; apply Hkeep; auto].
    destruct (logs_calls_commit (App.ui s) (App.setSelected (Some d) s))
      as [H | (id & rq & Hid & Hne & Hcall & H)]; [by left|].
    right. exists i, d, rq. cbn in Hid. injection Hid as <-. auto.
  - left. unfold App.step. cbn [App.handle].
    destruct (App.render (App.ui s)) as [[d p n [| |rows]]|]; try (apply Hkeep; by auto).
    destruct (rows !! i); apply Hkeep; auto.
  - left. unfold App.step. cbn [App.handle].
    destruct (App.authed (App.ui s)); apply Hkeep; auto.
  - left. rewrite step_elapse. unfold App.elapse. by rewrite logs_calls_fire.
  - left. rewrite step_settle. apply logs_calls_settle.
Qed.

(** ** Replies to [load] *)

Lemma settle_task (s : App.State) (id : nat) (k : App.Task) (r : App.Reply)
    (continue : App.State -> App.State) :
  App.task_of id s = Some k -> App.resume k r = Some continue ->
  App.step s (App.Settle id r) = continue (App.forget id s).
Proof.
  intros Htask Hk. rewrite step_settle. unfold App.settle. by rewrite Htask, Hk.
Qed.

(** X10.  A refreshed device list replaces the list and nothing else: the
    selection keeps the snapshot of the device that was clicked, its logs
    and selected location stay, and nothing is fetched again, whether or
    not the new list still contains that device. *)
Theorem device_refresh_keeps_selection
    (s : App.State) (id : nat) (o : App.Origin) (ds : list App.Device) :
  App.task_of id s = Some (App.AwaitDevices o) ->
  let s' := App.step s (App.Settle id (App.DeviceList ds)) in
  App.devices (App.ui s') = ds
  /\ App.selected (App.ui s') = App.selected (App.ui s)
  /\ App.locationLogs (App.ui s') = App.locationLogs (App.ui s)
  /\ App.selectedLocation (App.ui s') = App.selectedLocation (App.ui s)
  /\ App.sent s' = App.sent s
  /\ App.render (App.ui s') = App.render (App.ui s).
Proof.
  intros Htask s'. subst s'.
  rewrite (settle_task s id _ (App.DeviceList ds) (App.load_listed ds) Htask eq_refl).
  repeat split.
Qed.

Lemma device_refresh_keeps_selection_witness :
  let s := App.run Sample.phone_open [App.ChangeQ "zzz"; App.Elapse 350;
                                      App.Settle 7 (App.Summarized Sample.counts)] in
  App.task_of 8 s = Some (App.AwaitDevices App.FromDebounce)
  /\ App.devices (App.ui (App.step s (App.Settle 8 (App.DeviceList [])))) = []
  /\ App.selected (App.ui (App.step s (App.Settle 8 (App.DeviceList []))))
     = App.selected (App.ui s).
Proof.
  cbv zeta.
  assert (Htask : App.task_of 8
            (App.run Sample.phone_open [App.ChangeQ "zzz"; App.Elapse 350;
                                        App.Settle 7 (App.Summarized Sample.counts)])
          = Some (App.AwaitDevices App.FromDebounce)) by (vm_compute; reflexivity).
  split; [exact Htask|].
  pose proof (device_refresh_keeps_selection _ 8 App.FromDebounce [] Htask) as H.
  cbv zeta in H. split; [exact (proj1 H) | exact (proj1 (proj2 H))].
Defined.

(** X11.  A rejected call of [load()] is never retried.  When the
    [load()] was started by the debounce timer the rejection is swallowed:
    no state variable changes, so no error is shown and the old list stays.
    When it was started by the effect on [[authed]] the banner shows the
    error's message, or its name when the message is empty. *)
Theorem load_rejection_shown_or_swallowed
    (s : App.State) (id : nat) (k : App.Task) (name message : string) :
  App.task_of id s = Some k ->
  let s' := App.step s (App.Settle id (App.Rejected name message)) in
  (forall q since until,
      k = App.AwaitSummary App.FromDebounce q since until
      \/ k = App.AwaitDevices App.FromDebounce ->
      App.ui s' = App.ui s /\ App.sent s' = App.sent s)
  /\ (forall q since until,
        k = App.AwaitSummary App.FromAuthEffect q since until
        \/ k = App.AwaitDevices App.FromAuthEffect ->
        App.error (App.ui s') = Some (if Js.truthy_string message then message else name)
        /\ App.devices (App.ui s') = App.devices (App.ui s)
        /\ App.summary (App.ui s') = App.summary (App.ui s)
        /\ App.sent s' = App.sent s).
Proof.
  intros Htask s'. subst s'. split; intros q since until [-> | ->].
  - by rewrite (settle_task s id _ (App.Rejected name message)
                  (App.load_rejected App.FromDebounce name message) Htask eq_refl).
  - by rewrite (settle_task s id _ (App.Rejected name message)
                  (App.load_rejected App.FromDebounce name message) Htask eq_refl).
  - by rewrite (settle_task s id _ (App.Rejected name message)
                  (App.load_rejected App.FromAuthEffect name message) Htask eq_refl).
  - by rewrite (settle_task s id _ (App.Rejected name message)
                  (App.load_rejected App.FromAuthEffect name message) Htask eq_refl).
Qed.

Lemma load_rejection_shown_or_swallowed_witness :
  App.task_of 0 (App.mount Sample.browser (<["adminToken" := "tok"]> ∅))
  = Some (App.AwaitSummary App.FromAuthEffect "" "" "")
  /\ App.error (App.ui (App.step (App.mount Sample.browser (<["adminToken" := "tok"]> ∅))
                          (App.Settle 0 (App.Rejected "TypeError" ""))))
     = Some "TypeError".
Proof.
  assert (Htask : App.task_of 0 (App.mount Sample.browser (<["adminToken" := "tok"]> ∅))
                  = Some (App.AwaitSummary App.FromAuthEffect "" "" ""))
    by (vm_compute; reflexivity).
  split; [exact Htask|].
  exact (proj1 (proj2 (load_rejection_shown_or_swallowed _ 0 _ "TypeError" "" Htask)
                  "" "" "" (or_introl eq_refl))).
Defined.

Lemma iso_date_box (legacy : string -> option string) (value : string) :
  Filter.date_box value = true ->
  exists sent, App.iso legacy value = Some sent
               /\ forall name, Api.set_if name sent = Filter.date_param name value.
Proof.
  unfold Filter.date_box, App.iso, Filter.date_param.
  destruct value as [|c value]; [exists None; by cbn|].
  cbn [Js.truthy_string negb orb]. intros Hvalid.
  rewrite (toISOString_valid legacy _ Hvalid).
  eexists. split; [reflexivity|]. intros name. reflexivity.
Qed.

Lemma iso_day (legacy : string -> option string) (value : string) (y m d : N) :
  DateInput.read value = DateInput.Day y m d ->
  App.iso legacy value = Some (Some (DateInput.midnight (DateInput.roll y m d)))
  /\ forall name, Api.set_if name (Some (DateInput.midnight (DateInput.roll y m d)))
                  = [(name, DateInput.midnight (DateInput.roll y m d))].
Proof.
  intros Hread. split.
  - unfold App.iso, DateInput.toISOString. rewrite Hread.
    destruct value; [discriminate Hread | reflexivity].
  - intros name. reflexivity.
Qed.

(** X12.  When the [summary] call of a [load()] succeeds, the counters are
    stored and the two dates are converted.  If each date box is empty or
    holds a day of the calendar, one [listDevices] call follows: [q] is
    always sent, even when empty, and a date is sent as the start of its day
    in UTC, for [until] as for [since].  A date-only text whose day is past
    the end of its month, up to the 31st, is no error: the day counts on
    into the next month, so [2023-02-29] is sent as the first of March.  If
    a conversion throws, no [listDevices] call is issued; the counters are
    stored all the same. *)
Theorem load_sends_dates_as_start_of_day
    (s : App.State) (id : nat) (o : App.Origin) (q since until : string)
    (v : App.Summary) :
  App.task_of id s = Some (App.AwaitSummary o q since until) ->
  let s' := App.step s (App.Settle id (App.Summarized v)) in
  App.summary (App.ui s') = Some v
  /\ (Filter.date_box since && Filter.date_box until = true ->
      App.listDevices_calls s'
      = (App.listDevices_calls s
         ++ [ [("q", q)] ++ Filter.date_param "since" since
              ++ Filter.date_param "until" until ])%list
      /\ App.devices (App.ui s') = App.devices (App.ui s))
  /\ (forall y m d,
        DateInput.read since = DateInput.Day y m d -> until = "" ->
        App.listDevices_calls s'
        = (App.listDevices_calls s
           ++ [ [("q", q); ("since", DateInput.midnight (DateInput.roll y m d))] ])%list)
  /\ (App.iso (App.legacy_date s) since = None
      \/ App.iso (App.legacy_date s) until = None ->
      App.sent s' = App.sent s
      /\ App.devices (App.ui s') = App.devices (App.ui s)).
Proof.
  intros Htask s'. subst s'.
  rewrite (settle_task s id _ (App.Summarized v) (App.load_summarized o q since until v)
             Htask eq_refl).
  unfold App.load_summarized, App.setSummary, App.with_ui, App.forget.
  cbn [App.legacy_date].
  split; [by destruct (App.iso (App.legacy_date s) since),
                      (App.iso (App.legacy_date s) until), o|].
  split; [|split].
  - intros [Hs Hu]%andb_prop.
    destruct (iso_date_box (App.legacy_date s) since Hs) as (a & -> & Ha).
    destruct (iso_date_box (App.legacy_date s) until Hu) as (b & -> & Hb).
    split; [|reflexivity].
    unfold App.issue.
    cbn [App.ui App.localStorage App.now App.timers App.cleanup App.pending App.sent
         App.next_id].
    unfold App.listDevices_calls. cbn [App.sent]. rewrite flat_map_app.
    cbn [flat_map App.call Api.listDevices]. rewrite Ha, Hb, app_nil_r. reflexivity.
  - intros y m d Hread ->.
    destruct (iso_day (App.legacy_date s) since y m d Hread) as [-> Hset].
    unfold App.issue.
    cbn [App.iso Js.truthy_string App.ui App.localStorage App.now App.timers App.cleanup
         App.pending App.sent App.next_id].
    unfold App.listDevices_calls. cbn [App.sent]. rewrite flat_map_app.
    cbn [flat_map App.call Api.listDevices]. rewrite Hset, app_nil_r. reflexivity.
  - intros Hnone.
    destruct (App.iso (App.legacy_date s) since), (App.iso (App.legacy_date s) until), o;
      destruct Hnone; try discriminate; by cbn.
Qed.

Lemma load_sends_dates_as_start_of_day_witness :
  let s := App.run Sample.signed_in [App.ChangeSince "2023-02-29"; App.Elapse 350] in
  App.task_of 6 s = Some (App.AwaitSummary App.FromDebounce "" "2023-02-29" "")
  /\ DateInput.read "2023-02-29" = DateInput.Day 2023 2 29
  /\ App.listDevices_calls (App.step s (App.Settle 6 (App.Summarized Sample.counts)))
     = (App.listDevices_calls s
        ++ [ [ ("q", ""); ("since", DateInput.midnight (DateInput.roll 2023 2 29)) ] ])%list
  /\ DateInput.midnight (DateInput.roll 2023 2 29) = "2023-03-01T00:00:00.000Z".
Proof.
  cbv zeta.
  assert (Htask : App.task_of 6
            (App.run Sample.signed_in [App.ChangeSince "2023-02-29"; App.Elapse 350])
          = Some (App.AwaitSummary App.FromDebounce "" "2023-02-29" ""))
    by (vm_compute; reflexivity).
  assert (Hread : DateInput.read "2023-02-29" = DateInput.Day 2023 2 29)
    by (vm_compute; reflexivity).
  split; [exact Htask|]. split; [exact Hread|].
  split; [|vm_compute; reflexivity].
  exact (proj1 (proj2 (proj2
           (load_sends_dates_as_start_of_day _ 6 _ _ _ _ Sample.counts Htask)))
           2023%N 2%N 29%N Hread eq_refl).
Defined.

(** ** What [logout] leaves running *)

Lemma step_logout (s : App.State) :
  App.authed (App.ui s) = true ->
  App.step s App.ClickLogout
  = App.mkState
      (App.mkUi None (App.error (App.ui s)) (App.summary (App.ui s))
                (App.q (App.ui s)) (App.since (App.ui s)) (App.until (App.ui s))
                [] None [] None (App.loadingLogs (App.ui s)))
      (Api.setToken None (App.localStorage s)) (App.now s) (App.timers s)
      (App.cleanup s) (App.pending s) (App.sent s) (App.next_id s) (App.legacy_date s).
Proof.
  destruct s as [u storage now timers cleanup pending sent next legacy].
  destruct u as [tok err sm q since until ds sel logs active loading].
  intros Hauthed. unfold App.step. simpl in *. rewrite Hauthed.
  unfold App.commit, App.logout. simpl.
  rewrite (bool_decide_true ((q, since, until) = (q, since, until))) by reflexivity.
  repeat case_bool_decide; simpl; try reflexivity; congruence.
Qed.

(** X13.  [logout] cancels nothing.  A device list that arrives after the
    logout is stored in the state of the logged-out page, a log list that
    arrives is stored and its first entry selected although no device is
    selected, and a debounce timeout that was pending still fires and
    issues a [summary] call, now without an [Authorization] header. *)
Theorem logout_cancels_nothing (s : App.State) :
  App.authed (App.ui s) = true ->
  let s1 := App.step s App.ClickLogout in
  (forall id o ds,
      App.task_of id s = Some (App.AwaitDevices o) ->
      let s2 := App.step s1 (App.Settle id (App.DeviceList ds)) in
      App.devices (App.ui s2) = ds /\ App.authed (App.ui s2) = false)
  /\ (forall id first rest,
        App.task_of id s = Some App.AwaitLogs ->
        let s2 := App.step s1 (App.Settle id (App.LogList (first :: rest))) in
        App.locationLogs (App.ui s2) = first :: rest
        /\ App.selectedLocation (App.ui s2) = Some first
        /\ App.selected (App.ui s2) = None)
  /\ (forall tm ms,
        App.timers s = [tm] -> App.deadline tm <= App.now s + ms ->
        App.sent (App.step s1 (App.Elapse ms))
        = (App.sent s ++ [App.mkRequest (App.next_id s) Api.summary None])%list).
Proof.
  intros Hauthed s1. subst s1. rewrite (step_logout s Hauthed).
  set (s1 := App.mkState _ _ _ _ _ _ _ _ _).
  assert (Htasks : forall id, App.task_of id s1 = App.task_of id s) by reflexivity.
  split; [|split].
  - intros id o ds Htask s2. subst s2. rewrite <- Htasks in Htask.
    rewrite (settle_task s1 id _ (App.DeviceList ds) (App.load_listed ds) Htask eq_refl).
    split; reflexivity.
  - intros id first rest Htask s2. subst s2. rewrite <- Htasks in Htask.
    rewrite (settle_task s1 id _ (App.LogList (first :: rest))
               (App.loadLocationLogs_resolved (first :: rest)) Htask eq_refl).
    repeat split.
  - intros tm ms Htimers Hdue. subst s1. rewrite step_elapse. unfold App.elapse.
    cbn [App.ui App.localStorage App.now App.timers App.cleanup App.pending App.sent
         App.next_id].
    rewrite Htimers. cbn [List.filter].
    assert (Hleb : Nat.leb (App.deadline tm) (App.now s + ms) = true)
      by (apply Nat.leb_le; exact Hdue).
    rewrite Hleb. cbn [negb fold_left]. unfold App.fire, App.load, App.issue.
    cbn [App.ui App.localStorage App.now App.timers App.cleanup App.pending App.sent
         App.next_id].
    rewrite headers_authorization.
    rewrite (getToken_setToken_falsy (App.localStorage s) None eq_refl).
    by rewrite lookup_empty.
Qed.

Lemma logout_cancels_nothing_witness :
  App.authed (App.ui Sample.two_searches) = true
  /\ App.task_of 7 Sample.two_searches = Some (App.AwaitDevices App.FromDebounce)
  /\ App.devices (App.ui (App.step (App.step Sample.two_searches App.ClickLogout)
                                   (App.Settle 7 (App.DeviceList [Sample.phone]))))
     = [Sample.phone].
Proof.
  assert (Hauthed : App.authed (App.ui Sample.two_searches) = true)
    by (vm_compute; reflexivity).
  assert (Htask : App.task_of 7 Sample.two_searches
                  = Some (App.AwaitDevices App.FromDebounce))
    by (vm_compute; reflexivity).
  split; [exact Hauthed|]. split; [exact Htask|].
  exact (proj1 (proj1 (logout_cancels_nothing Sample.two_searches Hauthed)
                  7 App.FromDebounce [Sample.phone] Htask)).
Defined.

(** ** Overlapping fetches of location logs *)

Lemma task_of_after_logs (s : App.State) (id other : nat) (logs : list App.LocationLog) :
  id <> other ->
  App.task_of id (App.loadLocationLogs_resolved logs (App.forget other s))
  = App.task_of id s.
Proof.
  intros Hne. unfold App.task_of.
  assert (Hpending : App.pending (App.loadLocationLogs_resolved logs (App.forget other s))
                     = App.pending (App.forget other s)) by (by destruct logs).
  rewrite Hpending. simpl. by rewrite find_other_id.
Qed.

(** X14.  With two [getLocationLogs] calls in flight, the first reply to
    arrive drops the loading flag although the other call is still pending,
    and the reply that arrives last decides the list and the selected
    location, whichever device is selected by then: [loadLocationLogs]
    never compares a reply with the current selection. *)
Theorem overlapping_log_fetches_last_reply_wins
    (s : App.State) (early late : nat)
    (logs : list App.LocationLog) (first : App.LocationLog) (rest : list App.LocationLog) :
  early <> late ->
  App.task_of early s = Some App.AwaitLogs ->
  App.task_of late s = Some App.AwaitLogs ->
  let s1 := App.step s (App.Settle early (App.LogList logs)) in
  let s2 := App.step s1 (App.Settle late (App.LogList (first :: rest))) in
  App.loadingLogs (App.ui s1) = false
  /\ App.task_of late s1 = Some App.AwaitLogs
  /\ App.locationLogs (App.ui s2) = first :: rest
  /\ App.selectedLocation (App.ui s2) = Some first
  /\ App.selected (App.ui s2) = App.selected (App.ui s).
Proof.
  intros Hne Hearly Hlate s1 s2. subst s2 s1.
  rewrite (settle_task s early _ (App.LogList logs)
             (App.loadLocationLogs_resolved logs) Hearly eq_refl).
  assert (Hstill : App.task_of late
                     (App.loadLocationLogs_resolved logs (App.forget early s))
                   = Some App.AwaitLogs)
    by (rewrite task_of_after_logs by congruence; exact Hlate).
  rewrite (settle_task _ late _ (App.LogList (first :: rest))
             (App.loadLocationLogs_resolved (first :: rest)) Hstill eq_refl).
  split; [by destruct logs|]. split; [exact Hstill|].
  split; [reflexivity|]. split; [reflexivity|]. by destruct logs.
Qed.

Lemma overlapping_log_fetches_last_reply_wins_witness :
  let s := App.run Sample.signed_in [App.ClickDevice 0; App.ClickDevice 1] in
  6 <> 5
  /\ App.task_of 6 s = Some App.AwaitLogs
  /\ App.task_of 5 s = Some App.AwaitLogs
  /\ App.shown <$> App.render (App.ui s) = Some Sample.tablet
  /\ App.locationLogs
       (App.ui (App.step (App.step s (App.Settle 6 (App.LogList [])))
                         (App.Settle 5 (App.LogList [Sample.L1; Sample.L2]))))
     = [Sample.L1; Sample.L2].
Proof.
  cbv zeta.
  assert (Hne : 6 <> 5) by lia.
  assert (H6 : App.task_of 6 (App.run Sample.signed_in [App.ClickDevice 0; App.ClickDevice 1])
               = Some App.AwaitLogs) by (vm_compute; reflexivity).
  assert (H5 : App.task_of 5 (App.run Sample.signed_in [App.ClickDevice 0; App.ClickDevice 1])
               = Some App.AwaitLogs) by (vm_compute; reflexivity).
  assert (Hshown : App.shown <$> App.render
                     (App.ui (App.run Sample.signed_in [App.ClickDevice 0; App.ClickDevice 1]))
                   = Some Sample.tablet) by (vm_compute; reflexivity).
  split; [exact Hne|]. split; [exact H6|]. split; [exact H5|]. split; [exact Hshown|].
  exact (proj1 (proj2 (proj2
           (overlapping_log_fetches_last_reply_wins _ 6 5 [] Sample.L1 [Sample.L2]
              Hne H6 H5)))).
Defined.

(** ** The error banner *)

Lemma session_fire (due : list App.Timer) (s : App.State) :
  Watch.session (fold_left App.fire due s) = Watch.session s.
Proof.
  revert s. induction due as [|tm due IH]; intros s; [reflexivity|].
  simpl. by rewrite IH.
Qed.

Lemma session_elapse (ms : nat) (s : App.State) :
  Watch.session (App.elapse ms s) = Watch.session s.
Proof. unfold App.elapse. by rewrite session_fire. Qed.

Lemma session_settle (id : nat) (r : App.Reply) (s : App.State) :
  Watch.session (App.settle id r s) = Watch.session s.
Proof.
  unfold App.settle.
  destruct (App.task_of id s) as [k|]; [|reflexivity].
  destruct k as [o q0 since0 until0|o|], r as [v|ds|logs|name message];
    cbn [App.resume]; try reflexivity.
  - unfold App.load_summarized.
    iso_cases since0 until0; destruct o; reflexivity.
  - by destruct o.
  - by destruct o.
  - by destruct logs.
Qed.

Lemma session_effect_debounce (r : App.Ui) (s : App.State) :
  Watch.session (App.effect_debounce r s) = Watch.session s
  /\ App.error (App.ui (App.effect_debounce r s)) = App.error (App.ui s).
Proof.
  unfold App.effect_debounce. by destruct (App.cleanup s), (negb (App.authed r)).
Qed.

Lemma session_effect_authed (r : App.Ui) (s : App.State) :
  Watch.session (App.effect_authed r s) = Watch.session s
  /\ App.error (App.ui (App.effect_authed r s)) = App.error (App.ui s).
Proof. unfold App.effect_authed. by destruct (negb (App.authed r)). Qed.

Lemma session_effect_selected (r : App.Ui) (s : App.State) :
  Watch.session (App.effect_selected r s) = Watch.session s
  /\ App.error (App.ui (App.effect_selected r s)) = App.error (App.ui s).
Proof.
  unfold App.effect_selected.
  destruct (App.selected_id r) as [id|]; [|by split].
  by destruct (Js.truthy_string id).
Qed.

Lemma session_commit (prev : App.Ui) (s : App.State) :
  Watch.session (App.commit prev s) = Watch.session s
  /\ App.error (App.ui (App.commit prev s)) = App.error (App.ui s).
Proof.
  unfold App.commit.
  set (r := App.ui s).
  set (s1 := if bool_decide (App.authed prev = App.authed r) then s
             else App.effect_authed r s).
  set (s2 := if bool_decide ((App.q prev, App.since prev, App.until prev)
                             = (App.q r, App.since r, App.until r)) then s1
             else App.effect_debounce r s1).
  assert (H1 : Watch.session s1 = Watch.session s
               /\ App.error (App.ui s1) = App.error (App.ui s)).
  { subst s1. case_bool_decide; [by split | apply session_effect_authed]. }
  assert (H2 : Watch.session s2 = Watch.session s
               /\ App.error (App.ui s2) = App.error (App.ui s)).
  { subst s2. case_bool_decide; [exact H1|].
    destruct (session_effect_debounce r s1) as [-> ->]. exact H1. }
  case_bool_decide; [exact H2|].
  destruct (session_effect_selected r s2) as [-> ->]. exact H2.
Qed.

Lemma error_settle (id : nat) (r : App.Reply) (s : App.State) :
  App.error (App.ui (App.settle id r s)) = App.error (App.ui s)
  \/ exists text, App.error (App.ui (App.settle id r s)) = Some text.
Proof.
  unfold App.settle.
  destruct (App.task_of id s) as [k|]; [|by left].
  destruct k as [o q0 since0 until0|o|], r as [v|ds|logs|name message];
    cbn [App.resume]; try (by left).
  - unfold App.load_summarized.
    iso_cases since0 until0; destruct o; try (by left); right; by eexists.
  - destruct o; [right; by eexists | by left].
  - destruct o; [right; by eexists | by left].
  - left. by destruct logs.
  - right. by eexists.
Qed.

Lemma error_handle (e : App.Event) (s : App.State) :
  App.error (App.ui (App.handle e s)) = App.error (App.ui s)
  \/ exists id r text,
       e = App.Settle id r /\ App.error (App.ui (App.handle e s)) = Some text.
Proof.
  destruct e as [v|v|v|i|i| |ms|id r]; cbn [App.handle].
  - left. by destruct (App.authed (App.ui s)).
  - left. by destruct (App.authed (App.ui s)).
  - left. by destruct (App.authed (App.ui s)).
  - left. destruct (App.devices (App.ui s) !! i); [|reflexivity].
    by destruct (App.authed (App.ui s)).
  - left. destruct (App.render (App.ui s)) as [[d p n [| |rows]]|]; try reflexivity.
    by destruct (rows !! i).
  - left. by destruct (App.authed (App.ui s)).
  - left. by rewrite ui_elapse.
  - destruct (error_settle id r s) as [H | [text H]]; [by left|].
    right. by exists id, r, text.
Qed.

Lemma error_forms_settle (id : nat) (a : Forms.Answer) (p : Forms.Page) :
  App.error (App.ui (Forms.app (Forms.settle id a p)))
  = App.error (App.ui (Forms.app p))
  \/ exists text, App.error (App.ui (Forms.app (Forms.settle id a p))) = Some text.
Proof.
  unfold Forms.settle.
  destruct (Forms.task_of id p) as [k|]; [|by left].
  destruct k as [e w q0 since0 until0|q0 since0 until0|q0 since0 until0| |],
           a as [hex|t|v|ds|name message];
    cbn [Forms.resume]; try (by left); try (right; by eexists).
  unfold Forms.onLogin_summarized.
  iso_cases since0 until0; try (by left); right; by eexists.
Qed.

Lemma error_forms_handle (e : Forms.Event) (p : Forms.Page) :
  let error p := App.error (App.ui (Forms.app p)) in
  error (Forms.handle e p) = error p
  \/ (exists text, error (Forms.handle e p) = Some text
      /\ ((exists id a, e = Forms.Settled id a)
          \/ exists id r, e = Forms.Dashboard (App.Settle id r)))
  \/ ((e = Forms.SubmitLogin /\ App.authed (App.ui (Forms.app p)) = false
       \/ e = Forms.SubmitChangePassword /\ App.authed (App.ui (Forms.app p)) = true)
      /\ error (Forms.handle e p) = None).
Proof.
  cbv zeta.
  destruct e as [e|v|v|v|v| | |id a]; cbn [Forms.handle];
    try (left; by destruct (App.authed (App.ui (Forms.app p)))).
  - cbn [Forms.with_app Forms.app].
    destruct (error_handle e (Forms.app p)) as [H | (id & r & text & -> & H)];
      [by left|].
    right; left. exists text. split; [exact H|]. right. by exists id, r.
  - destruct (App.authed (App.ui (Forms.app p))) eqn:Hauthed; [by left|].
    right; right. split; [by left | reflexivity].
  - destruct (App.authed (App.ui (Forms.app p))) eqn:Hauthed; [|by left].
    right; right. split; [by right | reflexivity].
  - destruct (error_forms_settle id a p) as [H | [text H]]; [by left|].
    right; left. exists text. split; [exact H|]. left. by exists id, a.
Qed.

(** X15.  What clears the error banner.  Both submit handlers start with
    [setError(null)], so submitting the login form (shown when logged out)
    or the password form (shown when logged in) clears it; nothing else
    does.  Every other event leaves [error] as it is, unless it is the
    arrival of a reply, which may set it.  So an error, once shown, stays
    shown through every later search, selection, reply and logout, also
    after a [load()] that succeeds, until a form is submitted. *)
Theorem error_banner_cleared_only_by_submit (p : Forms.Page) :
  let error p := App.error (App.ui (Forms.app p)) in
  (App.authed (App.ui (Forms.app p)) = false ->
   error (Forms.step p Forms.SubmitLogin) = None)
  /\ (App.authed (App.ui (Forms.app p)) = true ->
      error (Forms.step p Forms.SubmitChangePassword) = None)
  /\ (forall e,
        error (Forms.step p e) = error p
        \/ (exists text, error (Forms.step p e) = Some text
            /\ ((exists id a, e = Forms.Settled id a)
                \/ exists id r, e = Forms.Dashboard (App.Settle id r)))
        \/ ((e = Forms.SubmitLogin /\ App.authed (App.ui (Forms.app p)) = false
             \/ e = Forms.SubmitChangePassword
                /\ App.authed (App.ui (Forms.app p)) = true)
            /\ error (Forms.step p e) = None))
  /\ (forall es text,
        Forall (fun e => e <> Forms.SubmitLogin /\ e <> Forms.SubmitChangePassword) es ->
        error p = Some text ->
        exists text', error (Forms.run p es) = Some text').
Proof.
  cbv zeta.
  assert (Hcommit : forall p e,
            App.error (App.ui (Forms.app (Forms.step p e)))
            = App.error (App.ui (Forms.app (Forms.handle e p)))).
  { intros p0 e. unfold Forms.step. cbn [Forms.with_app Forms.app].
    by destruct (session_commit (App.ui (Forms.app p0)) (Forms.app (Forms.handle e p0)))
      as [_ ->]. }
  split; [intros Hauthed; rewrite Hcommit; cbn [Forms.handle]; by rewrite Hauthed|].
  split; [intros Hauthed; rewrite Hcommit; cbn [Forms.handle]; by rewrite Hauthed|].
  split; [intros e; rewrite Hcommit; apply (error_forms_handle e p)|].
  intros es. revert p. induction es as [|e es IH]; intros p text Hes Htext;
    [by exists text|].
  cbn [Forms.run fold_left].
  apply List.Forall_cons_iff in Hes. destruct Hes as [[Hlogin Hpassword] Hes].
  pose proof (error_forms_handle e p) as Hhandle. cbv beta zeta in Hhandle.
  rewrite <- (Hcommit p e) in Hhandle.
  destruct Hhandle as [Hsame | [(text' & Hset & _) | [[[He _] | [He _]] _]]].
  - apply (IH (Forms.step p e) text Hes). by rewrite Hsame.
  - apply (IH (Forms.step p e) text' Hes Hset).
  - contradiction.
  - contradiction.
Qed.

(** ** The stored token and the token state *)

Lemma session_handle (e : App.Event) (s : App.State) :
  Watch.session (App.handle e s) = Watch.session s
  \/ Watch.session (App.handle e s) = (Api.setToken None (App.localStorage s), None).
Proof.
  destruct e as [v|v|v|i|i| |ms|id r]; cbn [App.handle].
  - left. by destruct (App.authed (App.ui s)).
  - left. by destruct (App.authed (App.ui s)).
  - left. by destruct (App.authed (App.ui s)).
  - left. destruct (App.devices (App.ui s) !! i); [|reflexivity].
    by destruct (App.authed (App.ui s)).
  - left. destruct (App.render (App.ui s)) as [[d p n [| |rows]]|]; try reflexivity.
    by destruct (rows !! i).
  - destruct (App.authed (App.ui s)); [by right | by left].
  - left. apply session_elapse.
  - left. apply session_settle.
Qed.

Lemma in_step_session (s s' : App.State) :
  Watch.session s' = Watch.session s -> Watch.session_in_step s -> Watch.session_in_step s'.
Proof.
  intros Hsession.
  pose proof (f_equal fst Hsession) as Hl. pose proof (f_equal snd Hsession) as Ht.
  cbn [fst snd Watch.session] in Hl, Ht.
  unfold Watch.session_in_step, App.authed. by rewrite Hl, Ht.
Qed.

Lemma in_step_mount (legacy : string -> option string) (storage : gmap string string) :
  Watch.session_in_step (App.mount legacy storage).
Proof.
  assert (Hsession : Watch.session (App.mount legacy storage)
                     = (storage, Api.getToken storage)).
  { unfold App.mount. cbv zeta.
    rewrite (proj1 (session_effect_selected _ _)).
    rewrite (proj1 (session_effect_debounce _ _)).
    rewrite (proj1 (session_effect_authed _ _)).
    reflexivity. }
  pose proof (f_equal fst Hsession) as Hl. pose proof (f_equal snd Hsession) as Ht.
  cbn [fst snd Watch.session] in Hl, Ht.
  unfold Watch.session_in_step, App.authed. rewrite Hl, Ht.
  destruct (Js.truthy_opt Js.truthy_string (Api.getToken storage)); [by left | by right].
Qed.

Lemma in_step_reachable (s : App.State) :
  Burst.reachable s -> Watch.session_in_step s.
Proof.
  induction 1 as [legacy storage | s e _ IH]; [apply in_step_mount|].
  unfold App.step.
  destruct (session_commit (App.ui s) (App.handle e s)) as [Hcommit _].
  destruct (session_handle e s) as [Hsame | Hout].
  - apply (in_step_session s); [by rewrite Hcommit | exact IH].
  - rewrite Hout in Hcommit.
    pose proof (f_equal fst Hcommit) as Hl. pose proof (f_equal snd Hcommit) as Ht.
    cbn [fst snd Watch.session] in Hl, Ht.
    right. unfold App.authed. rewrite Hl, Ht. split; [reflexivity|].
    by rewrite (getToken_setToken_falsy (App.localStorage s) None eq_refl).
Qed.

(** X16.  The token state and the stored token never part: in every
    state the dashboard can reach, a request would carry
    [authorization: Bearer <token>] with the token of the state exactly when
    the dashboard is shown, and no such header while the login form is
    shown. *)
Theorem bearer_sent_exactly_when_signed_in (s : App.State) :
  Burst.reachable s ->
  Api.headers (App.localStorage s) ∅ !! "authorization"
  = (if App.authed (App.ui s) then (fun t => "Bearer " ++ t) <$> App.token (App.ui s)
     else None).
Proof.
  intros Hs. rewrite headers_authorization, lookup_empty.
  destruct (in_step_reachable s Hs) as [[Hauthed Htoken] | [Hauthed Hfalsy]];
    rewrite Hauthed.
  - rewrite Htoken. unfold App.authed in Hauthed.
    destruct (App.token (App.ui s)) as [t|]; [|discriminate].
    cbn in Hauthed. by rewrite Hauthed.
  - destruct (Api.getToken (App.localStorage s)) as [t|]; [|reflexivity].
    cbn in Hfalsy. by rewrite Hfalsy.
Qed.

Lemma bearer_sent_exactly_when_signed_in_witness :
  Burst.reachable (App.step Sample.signed_in App.ClickLogout)
  /\ Api.headers (App.localStorage (App.step Sample.signed_in App.ClickLogout)) ∅
       !! "authorization"
     = (if App.authed (App.ui (App.step Sample.signed_in App.ClickLogout))
        then (fun t => "Bearer " ++ t)
               <$> App.token (App.ui (App.step Sample.signed_in App.ClickLogout))
        else None).
Proof.
  assert (Hs : Burst.reachable (App.step Sample.signed_in App.ClickLogout)).
  { apply Burst.reachable_step. unfold Sample.signed_in. apply reachable_run.
    apply Burst.reachable_mount. }
  split; [exact Hs|].
  exact (bearer_sent_exactly_when_signed_in _ Hs).
Defined.

(** ** [request]: what it returns, and when *)

(** X17.  [request] returns only for a success status, and then the parsed
    body as it is, [null] for an empty body (as with [204 No Content]);
    whenever it throws an [Error] the status was not a success status and
    the message it was built from is truthy, so never the empty string. *)
Theorem request_returns_only_on_success (res : Api.Response) :
  (forall data, Api.request res = Api.Return data ->
      Api.ok res = true /\ Api.body_data (Api.text res) = Some data)
  /\ (Api.ok res = true -> Api.text res = "" -> Api.request res = Api.Return Json.Null)
  /\ (forall data,
        Api.ok res = true -> Api.text res <> "" -> Json.parse (Api.text res) = Some data ->
        Api.request res = Api.Return data)
  /\ (forall msg, Api.request res = Api.Throw (Api.Error msg) ->
        Api.ok res = false /\ Json.truthy msg = true).
Proof.
  unfold Api.request. split; [|split; [|split]].
  - intros data. destruct (Api.body_data (Api.text res)) as [d|]; [|discriminate].
    destruct (Api.ok res); cbn [negb]; [|discriminate]. by intros [= ->].
  - by intros -> ->.
  - intros data -> Htext Hparse. by rewrite (body_data_nonempty _ Htext), Hparse.
  - intros msg. destruct (Api.body_data (Api.text res)) as [d|]; [|discriminate].
    destruct (Api.ok res); cbn [negb]; [discriminate|]. intros [= <-].
    split; [reflexivity|]. unfold Js.or_default.
    destruct (Api.error_of d) as [e|]; [|reflexivity].
    by destruct (Json.truthy e) eqn:He.
Qed.

(** ** Signals that share a fingerprint *)

Lemma append_assoc (a b c : string) : (a ++ b) ++ c = a ++ (b ++ c).
Proof. induction a as [|x a IH]; [reflexivity | by rewrite !append_cons, IH]. Qed.

Lemma or_default_string (x : string) : Js.or_default Js.truthy_string (Some x) "" = x.
Proof. by destruct x. Qed.

(** X18.  The six parts are joined by a bar without escaping, and an
    absent signal is treated as an empty or zero one, so different readings
    of the browser share a fingerprint: a bar can move from one text signal
    to its neighbour, and a browser that reports no [deviceMemory] or
    [hardwareConcurrency] is not told from one that reports zero. *)
Theorem fingerprint_collides_across_fields
    (Number_toString : float -> string)
    (a b c : string) (cores memory : option float) (w h : float) (zone : option string) :
  Fingerprint.getDeviceFingerprint Number_toString
    (Fingerprint.Build_Signals (Some (a ++ "|" ++ b)) (Some c) cores memory w h zone)
  = Fingerprint.getDeviceFingerprint Number_toString
      (Fingerprint.Build_Signals (Some a) (Some (b ++ "|" ++ c)) cores memory w h zone)
  /\ Fingerprint.getDeviceFingerprint Number_toString
       (Fingerprint.Build_Signals (Some a) None cores (Some 0%float) w h zone)
     = Fingerprint.getDeviceFingerprint Number_toString
         (Fingerprint.Build_Signals (Some a) (Some "") cores None w h zone)
  /\ Fingerprint.getDeviceFingerprint Number_toString
       (Fingerprint.Build_Signals None (Some c) (Some 0%float) memory w h zone)
     = Fingerprint.getDeviceFingerprint Number_toString
         (Fingerprint.Build_Signals (Some "") (Some c) None memory w h zone).
Proof.
  unfold Fingerprint.getDeviceFingerprint, Fingerprint.parts.
  cbn [Fingerprint.userAgent Fingerprint.language Fingerprint.hardwareConcurrency
       Fingerprint.deviceMemory Fingerprint.screen_width Fingerprint.screen_height
       Fingerprint.timeZone].
  split; [|split; reflexivity].
  rewrite !or_default_string. f_equal. unfold Js.join. cbn [String.concat].
  by rewrite !append_assoc.
Qed.

(** ** What the map shows for the selected device *)

Lemma or_else_falsy {A} (truthy : A -> bool) (a : A) (y : option A) :
  truthy a = false -> Js.or_else truthy (Some a) y = y.
Proof. intros H. unfold Js.or_else. cbn. by rewrite H. Qed.

(** X19.  The map shows a position only when both coordinates reach it:
    whatever is selected, the marker stands at the centre of the view, and
    a popup is bound exactly when the view is zoomed in.  For a device
    without [lastLocation], a selected log entry whose latitude or
    longitude is zero (or not a number) leaves the map on the world view at
    [0, 0] without a popup, although the entry has coordinates; so does no
    selected entry at all. *)
Theorem map_needs_both_coordinates (u : App.Ui) (d : App.Device) :
  let m := MapPreview.MapPreview (App.props u d) in
  MapPreview.marker m = MapPreview.center m
  /\ ((exists p, MapPreview.popup m = Some p
                 /\ (MapPreview.popup_lat p, MapPreview.popup_lng p) = MapPreview.marker m
                 /\ MapPreview.zoom m = 15%N)
      \/ m = MapPreview.mkLeaflet (0%float, 0%float) 2 (0%float, 0%float) None)
  /\ (App.lastLocation d = None ->
      (forall l, App.selectedLocation u = Some l ->
                 Js.truthy_number (App.lat l) = false
                 \/ Js.truthy_number (App.lng l) = false ->
                 m = MapPreview.mkLeaflet (0%float, 0%float) 2 (0%float, 0%float) None)
      /\ (App.selectedLocation u = None ->
          m = MapPreview.mkLeaflet (0%float, 0%float) 2 (0%float, 0%float) None)).
Proof.
  intros m. subst m. split; [|split].
  - unfold MapPreview.MapPreview.
    by destruct (MapPreview.lat (App.props u d)), (MapPreview.lng (App.props u d)).
  - unfold MapPreview.MapPreview.
    destruct (MapPreview.lat (App.props u d)) as [la|],
             (MapPreview.lng (App.props u d)) as [ln|]; try (by right).
    left. eexists. split; [reflexivity|]. by split.
  - intros Hnone. split.
    + intros l Hl Hzero. unfold MapPreview.MapPreview, App.props.
      rewrite Hl, Hnone. cbn [fmap option_fmap option_map MapPreview.lat MapPreview.lng].
      destruct Hzero as [Hz | Hz]; rewrite (or_else_falsy _ _ _ Hz); [reflexivity|].
      by destruct (Js.or_else Js.truthy_number (Some (App.lat l)) None).
    + intros Hl. unfold MapPreview.MapPreview, App.props. by rewrite Hl, Hnone.
Qed.

(** ** The paths of the requests *)

Lemma read_component_char (c : ascii) (rest : string) :
  Url.read_char (Url.component_char c ++ rest) = Some (c, rest).
Proof. destruct c as [[] [] [] [] [] [] [] []]; reflexivity. Qed.

Lemma component_char_not_empty (c : ascii) (rest : string) :
  Url.component_char c ++ rest <> "".
Proof.
  intros H. pose proof (read_component_char c rest) as Hread.
  rewrite H in Hread. discriminate.
Qed.

Lemma encodeURIComponent_injective (a b : string) :
  Url.encodeURIComponent a = Url.encodeURIComponent b -> a = b.
Proof.
  revert b. induction a as [|c a IH]; intros [|d b] H; cbn [Url.encodeURIComponent] in H.
  - reflexivity.
  - symmetry in H. by apply component_char_not_empty in H.
  - by apply component_char_not_empty in H.
  - pose proof (read_component_char c (Url.encodeURIComponent a)) as Hc.
    rewrite H, read_component_char in Hc. injection Hc as -> Hrest.
    f_equal. apply IH. by symmetry.
Qed.

Lemma component_char_no_delimiter (c : ascii) :
  forallb (fun x => negb (Url.delimiter x)) (list_ascii_of_string (Url.component_char c))
  = true.
Proof. destruct c as [[] [] [] [] [] [] [] []]; reflexivity. Qed.

Lemma encodeURIComponent_no_delimiter (s : string) :
  forallb (fun x => negb (Url.delimiter x)) (list_ascii_of_string (Url.encodeURIComponent s))
  = true.
Proof.
  induction s as [|c s IH]; [reflexivity|].
  cbn [Url.encodeURIComponent]. rewrite list_ascii_app, forallb_app.
  by rewrite component_char_no_delimiter, IH.
Qed.

Lemma append_injective_l (p a b : string) : p ++ a = p ++ b -> a = b.
Proof.
  induction p as [|c p IH]; [done|]. rewrite !append_cons. intros [= H]. by apply IH.
Qed.

Lemma append_injective_r (a b q : string) :
  String.length a = String.length b -> a ++ q = b ++ q -> a = b.
Proof.
  revert b. induction a as [|c a IH]; intros [|d b] Hlen H; try discriminate.
  - reflexivity.
  - rewrite !append_cons in H. injection H as -> H. f_equal.
    apply IH; [by injection Hlen | exact H].
Qed.

Lemma append_same_suffix (a b q : string) : a ++ q = b ++ q -> a = b.
Proof.
  intros H. apply (append_injective_r a b q); [|exact H].
  pose proof (f_equal String.length H) as Hlen. rewrite !length_app in Hlen. lia.
Qed.

(** X20.  A device id is one segment of the path whatever it contains:
    what [encodeURIComponent] writes holds no slash, question mark, hash,
    ampersand, equals sign, plus or space, so the path of the logs of a
    device always ends in [/logs] after one segment; and nothing is lost,
    so two devices never share a path.  The one id for which [getDevice]
    asks for the path of the summary is [summary] itself. *)
Theorem device_id_is_one_path_segment (deviceId : string) :
  Url.path (Api.getLocationLogs deviceId None None)
  = "/api/admin/devices/" ++ Url.encodeURIComponent deviceId ++ "/logs"
  /\ forallb (fun c => negb (Url.delimiter c))
       (list_ascii_of_string (Url.encodeURIComponent deviceId)) = true
  /\ (forall other,
        Url.path (Api.getLocationLogs other None None)
        = Url.path (Api.getLocationLogs deviceId None None) <-> other = deviceId)
  /\ (Url.getDevice deviceId = Url.path Api.summary <-> deviceId = "summary").
Proof.
  assert (Hpath : forall id, Url.path (Api.getLocationLogs id None None)
                             = "/api/admin/devices/" ++ Url.encodeURIComponent id ++ "/logs").
  { intros id. cbn. by rewrite append_empty_r. }
  split; [apply Hpath|]. split; [apply encodeURIComponent_no_delimiter|]. split.
  - intros other. split; [|by intros ->].
    rewrite !Hpath. intros H. apply append_injective_l in H.
    apply append_same_suffix in H. by apply encodeURIComponent_injective.
  - split; [|by intros ->].
    unfold Url.getDevice. intros H.
    change (Url.path Api.summary)
      with ("/api/admin/devices/" ++ Url.encodeURIComponent "summary") in H.
    apply append_injective_l in H. by apply encodeURIComponent_injective.
Qed.

Lemma form_char_no_delimiter (c : ascii) :
  forallb (fun x => negb (Url.one_of "/?#&= " x)) (list_ascii_of_string (Url.form_char c))
  = true.
Proof. destruct c as [[] [] [] [] [] [] [] []]; reflexivity. Qed.

Lemma form_encode_no_delimiter (s : string) :
  forallb (fun x => negb (Url.one_of "/?#&= " x)) (list_ascii_of_string (Url.form_encode s))
  = true.
Proof.
  induction s as [|c s IH]; [reflexivity|].
  cbn [Url.form_encode]. rewrite list_ascii_app, forallb_app.
  by rewrite form_char_no_delimiter, IH.
Qed.

Lemma form_encode_app (a b : string) :
  Url.form_encode (a ++ b) = Url.form_encode a ++ Url.form_encode b.
Proof.
  induction a as [|c a IH]; [reflexivity|].
  rewrite append_cons. cbn [Url.form_encode]. by rewrite IH, append_assoc.
Qed.

Lemma form_char_digit (c : ascii) (d : N) :
  DateInput.digit c = Some d -> Url.form_char c = String c "".
Proof. destruct c as [[] [] [] [] [] [] [] []]; by cbv. Qed.

Lemma form_char_dash (c : ascii) : (c =? "-")%char = true -> Url.form_char c = String c "".
Proof. intros ->%Ascii.eqb_eq. reflexivity. Qed.

Lemma number_digits (c d : ascii) (n : N) :
  DateInput.number [c; d] = Some n ->
  (exists x, DateInput.digit c = Some x) /\ (exists y, DateInput.digit d = Some y).
Proof.
  unfold DateInput.number. cbn [fold_left].
  destruct (DateInput.digit c) as [x|]; [|discriminate].
  destruct (DateInput.digit d) as [y|]; [|discriminate].
  intros _. split; by eexists.
Qed.

Lemma form_encode_date (v : string) :
  DateInput.valid v = true -> Url.form_encode v = v.
Proof.
  unfold DateInput.valid.
  destruct v as [|y1 [|y2 [|y3 [|y4 [|s1 [|m1 [|m2 [|s2 [|d1 [|d2 [|x v]]]]]]]]]]];
    cbn [list_ascii_of_string]; try discriminate.
  destruct (DateInput.number [y1; y2; y3; y4]) as [y|] eqn:Hy; [|discriminate].
  destruct (DateInput.number [m1; m2]) as [m|] eqn:Hm; [|discriminate].
  destruct (DateInput.number [d1; d2]) as [d|] eqn:Hd; [|discriminate].
  intros H. repeat (apply andb_prop in H; destruct H as [H ?]).
  destruct (number_digits _ _ _ Hm) as [[? Hm1] [? Hm2]].
  destruct (number_digits _ _ _ Hd) as [[? Hd1] [? Hd2]].
  assert (Hyear : exists a b c e, DateInput.digit y1 = Some a /\ DateInput.digit y2 = Some b
                    /\ DateInput.digit y3 = Some c /\ DateInput.digit y4 = Some e).
  { revert Hy. unfold DateInput.number. cbn [fold_left].
    destruct (DateInput.digit y1) as [a|]; [|discriminate].
    destruct (DateInput.digit y2) as [b|]; [|discriminate].
    destruct (DateInput.digit y3) as [c|]; [|discriminate].
    destruct (DateInput.digit y4) as [e|]; [|discriminate].
    intros _. by exists a, b, c, e. }
  destruct Hyear as (? & ? & ? & ? & Hy1 & Hy2 & Hy3 & Hy4).
  cbn [Url.form_encode].
  rewrite (form_char_digit _ _ Hy1), (form_char_digit _ _ Hy2), (form_char_digit _ _ Hy3),
    (form_char_digit _ _ Hy4), (form_char_digit _ _ Hm1), (form_char_digit _ _ Hm2),
    (form_char_digit _ _ Hd1), (form_char_digit _ _ Hd2),
    (form_char_dash s1), (form_char_dash s2) by assumption.
  reflexivity.
Qed.

(** X21.  The search text is one parameter whatever it contains: what the
    serializer writes for it holds no ampersand, equals sign, hash,
    question mark, slash or space, so text typed into the search box cannot
    add or change a parameter, and [q=] is sent even for an empty search.  A
    filter date reaches the server as [since=<date>T00%3A00%3A00.000Z], and
    [until] likewise. *)
Theorem search_text_is_one_parameter (q : string) :
  Url.path (Api.listDevices q None None) = "/api/admin/devices?q=" ++ Url.form_encode q
  /\ forallb (fun c => negb (Url.one_of "/?#&= " c))
       (list_ascii_of_string (Url.form_encode q)) = true
  /\ (forall since until,
        DateInput.valid since = true -> DateInput.valid until = true ->
        forall legacy sinceIso untilIso,
          App.iso legacy since = Some sinceIso -> App.iso legacy until = Some untilIso ->
          Url.path (Api.listDevices q sinceIso untilIso)
          = "/api/admin/devices?q=" ++ Url.form_encode q
            ++ "&since=" ++ since ++ "T00%3A00%3A00.000Z"
            ++ "&until=" ++ until ++ "T00%3A00%3A00.000Z").
Proof.
  split; [|split].
  - cbn. by rewrite append_empty_r.
  - apply form_encode_no_delimiter.
  - intros since until Hs Hu legacy sinceIso untilIso Hsince Huntil.
    assert (Hiso : forall v, DateInput.valid v = true ->
              App.iso legacy v = Some (Some (v ++ "T00:00:00.000Z"))).
    { intros v Hv. unfold App.iso. rewrite (toISOString_valid legacy v Hv).
      destruct v; [discriminate | reflexivity]. }
    rewrite (Hiso since Hs) in Hsince. rewrite (Hiso until Hu) in Huntil.
    injection Hsince as <-. injection Huntil as <-.
    assert (Htruthy : forall v, Js.truthy_string (v ++ "T00:00:00.000Z") = true)
      by (by intros []).
    unfold Url.path, Api.listDevices, Api.set_if, Url.toString, Js.join.
    rewrite !Htruthy. cbn [app map String.concat fst snd].
    rewrite !form_encode_app, (form_encode_date since Hs), (form_encode_date until Hu).
    change (Url.form_encode "T00:00:00.000Z") with "T00%3A00%3A00.000Z".
    change (Url.form_encode "q") with "q".
    change (Url.form_encode "since") with "since".
    change (Url.form_encode "until") with "until".
    rewrite !append_assoc. reflexivity.
Qed.

(** ** Signing in *)

Lemma settled_task (p : Forms.Page) (id : nat) (k : Forms.Step) (a : Forms.Answer)
    (continue : Forms.Page -> Forms.Page) :
  Forms.task_of id p = Some k -> Forms.resume k a = Some continue ->
  Forms.step p (Forms.Settled id a)
  = Forms.with_app (App.commit (App.ui (Forms.app p))) (continue (Forms.forget id p)).
Proof.
  intros Htask Hk. unfold Forms.step. cbn [Forms.handle]. unfold Forms.settle.
  by rewrite Htask, Hk.
Qed.

Lemma authed_token (t : string) (u : App.Ui) :
  App.token u = Some t -> App.authed u = Js.truthy_string t.
Proof. unfold App.authed. by intros ->. Qed.

Lemma headers_after_setToken (storage : gmap string string) (t : string) :
  t <> "" ->
  Api.headers (Api.setToken (Some t) storage) ∅ !! "authorization" = Some ("Bearer " ++ t).
Proof.
  intros Ht. rewrite headers_authorization.
  rewrite (getToken_setToken_some storage t (truthy_string_nonempty t Ht)).
  by rewrite (truthy_string_nonempty t Ht).
Qed.

Lemma commit_sign_in (s s1 : App.State) :
  App.authed (App.ui s) = false -> App.authed (App.ui s1) = true ->
  Burst.inputs (App.ui s1) = Burst.inputs (App.ui s) ->
  App.selected_id (App.ui s1) = App.selected_id (App.ui s) ->
  App.commit (App.ui s) s1
  = App.load App.FromAuthEffect (App.q (App.ui s1)) (App.since (App.ui s1))
      (App.until (App.ui s1)) s1.
Proof.
  intros Hout Hin Hinputs Hsel. unfold App.commit, App.effect_authed.
  rewrite Hout, Hin, Hsel. unfold Burst.inputs in Hinputs. rewrite Hinputs.
  rewrite (bool_decide_false (false = true)) by discriminate.
  rewrite !bool_decide_true by reflexivity. reflexivity.
Qed.

Lemma sign_in_then_load (s : App.State) (t : string) (o : App.Origin) (q since until : string) :
  t <> "" ->
  let s1 := Forms.send Api.summary (App.setTokenState (Some t) (App.setToken (Some t) s)) in
  let s2 := App.load o q since until s1 in
  App.ui s1 = App.mkUi (Some t) (App.error (App.ui s)) (App.summary (App.ui s))
                (App.q (App.ui s)) (App.since (App.ui s)) (App.until (App.ui s))
                (App.devices (App.ui s)) (App.selected (App.ui s))
                (App.locationLogs (App.ui s)) (App.selectedLocation (App.ui s))
                (App.loadingLogs (App.ui s))
  /\ App.ui s2 = App.ui s1
  /\ App.localStorage s2 = Api.setToken (Some t) (App.localStorage s)
  /\ App.timers s2 = App.timers s
  /\ map (fun r => (App.call r, App.authorization r)) (App.sent s2)
     = (map (fun r => (App.call r, App.authorization r)) (App.sent s)
        ++ [(Api.Summary, Some ("Bearer " ++ t)%string);
            (Api.Summary, Some ("Bearer " ++ t)%string)])%list.
Proof.
  intros Ht s1 s2. subst s2 s1.
  destruct s as [u storage now timers cleanup pending sent next legacy].
  unfold App.load, App.issue, Forms.send, App.setTokenState, App.setToken, App.with_ui.
  cbn [App.ui App.localStorage App.now App.timers App.cleanup App.pending App.sent
       App.next_id].
  rewrite (headers_after_setToken storage t Ht).
  split; [reflexivity|]. split; [reflexivity|]. split; [reflexivity|].
  split; [reflexivity|].
  rewrite !map_app. cbn [map App.call App.authorization Api.summary].
  by rewrite <- app_assoc.
Qed.

Lemma app_onLogin_answered (q since until t : string) (id : nat) (p : Forms.Page) :
  let p1 := Forms.onLogin_answered q since until t (Forms.forget id p) in
  Forms.app p1
  = Forms.send Api.summary (App.setTokenState (Some t) (App.setToken (Some t) (Forms.app p)))
  /\ Forms.email p1 = "" /\ Forms.password p1 = ""
  /\ Forms.posted p1 = Forms.posted p.
Proof. by destruct p. Qed.

(** X22.  When the login call resolves with a non-empty token, the token
    is stored and becomes the token state, the email and password boxes are
    emptied, and [load()] runs twice at once, awaited by [onLogin] and
    started by the effect on [[authed]]: two [summary] calls are issued,
    both with the new bearer token, and no debounce timeout is set. *)
Theorem login_reply_signs_in_and_loads_twice
    (p : Forms.Page) (id : nat) (q since until t : string) :
  Forms.task_of id p = Some (Forms.LoginReply q since until) ->
  App.authed (App.ui (Forms.app p)) = false ->
  t <> "" ->
  let p' := Forms.step p (Forms.Settled id (Forms.Session t)) in
  let bearer := Some ("Bearer " ++ t) in
  Api.getToken (App.localStorage (Forms.app p')) = Some t
  /\ App.token (App.ui (Forms.app p')) = Some t
  /\ App.authed (App.ui (Forms.app p')) = true
  /\ Forms.email p' = "" /\ Forms.password p' = ""
  /\ Forms.asked p'
     = (Forms.asked p ++ [(Api.Summary, bearer); (Api.Summary, bearer)])%list
  /\ Forms.posted p' = Forms.posted p
  /\ App.timers (Forms.app p') = App.timers (Forms.app p)
  /\ App.error (App.ui (Forms.app p')) = App.error (App.ui (Forms.app p)).
Proof.
  intros Htask Hout Ht p' bearer. subst p' bearer.
  rewrite (settled_task p id _ (Forms.Session t) (Forms.onLogin_answered q since until t)
             Htask eq_refl).
  destruct (app_onLogin_answered q since until t id p) as (Happ & Hemail & Hpassword & Hposted).
  set (p1 := Forms.onLogin_answered q since until t (Forms.forget id p)) in *.
  clearbody p1.
  unfold Forms.asked.
  cbn [Forms.with_app Forms.app Forms.email Forms.password Forms.posted].
  rewrite Happ, Hemail, Hpassword, Hposted.
  destruct (sign_in_then_load (Forms.app p) t App.FromAuthEffect
              (App.q (App.ui (Forms.app p))) (App.since (App.ui (Forms.app p)))
              (App.until (App.ui (Forms.app p))) Ht)
    as (Hui1 & Hui & Hstorage & Htimers & Hasked).
  cbv zeta in Hui1, Hui, Hstorage, Htimers, Hasked.
  set (s1 := Forms.send Api.summary
               (App.setTokenState (Some t) (App.setToken (Some t) (Forms.app p)))) in *.
  assert (Hin : App.authed (App.ui s1) = true)
    by (rewrite Hui1; cbn; by apply truthy_string_nonempty).
  rewrite (commit_sign_in (Forms.app p) s1 Hout Hin)
    by (by rewrite Hui1).
  assert (Hq : App.q (App.ui s1) = App.q (App.ui (Forms.app p))) by (by rewrite Hui1).
  assert (Hs : App.since (App.ui s1) = App.since (App.ui (Forms.app p)))
    by (by rewrite Hui1).
  assert (Hu : App.until (App.ui s1) = App.until (App.ui (Forms.app p)))
    by (by rewrite Hui1).
  rewrite Hq, Hs, Hu, Hui, Hstorage, Htimers, Hasked, Hui1.
  cbn [App.token App.error].
  rewrite (getToken_setToken_some _ t (truthy_string_nonempty t Ht)).
  repeat split. by apply truthy_string_nonempty.
Qed.

Lemma commit_same_deps (s s1 : App.State) :
  App.deps (App.ui s1) = App.deps (App.ui s) -> App.commit (App.ui s) s1 = s1.
Proof. intros H. apply commit_unchanged. by symmetry. Qed.

Lemma with_app_same (f : App.State -> App.State) (p : Forms.Page) :
  f (Forms.app p) = Forms.app p -> Forms.with_app f p = p.
Proof. destruct p. unfold Forms.with_app. cbn. by intros ->. Qed.

(** X23.  Whatever fails in [onLogin], the fingerprint, the login call or
    the [load()] it awaits, the banner shows the error's message, or
    [Login failed] when it has none; the token, the storage and the email
    and password boxes are left as they are and nothing is sent again.  A
    [load()] that fails after the login itself succeeded is reported in the
    same way, on a dashboard that is signed in. *)
Theorem login_failure_is_reported
    (p : Forms.Page) (id : nat) (k : Forms.Step) (name message : string) :
  Forms.task_of id p = Some k ->
  k <> Forms.PasswordReply ->
  let p' := Forms.step p (Forms.Settled id (Forms.Failure name message)) in
  App.error (App.ui (Forms.app p'))
  = Some (if Js.truthy_string message then message else "Login failed")
  /\ App.error (App.ui (Forms.app p')) <> Some ""
  /\ Watch.session (Forms.app p') = Watch.session (Forms.app p)
  /\ Forms.email p' = Forms.email p /\ Forms.password p' = Forms.password p
  /\ App.sent (Forms.app p') = App.sent (Forms.app p)
  /\ Forms.posted p' = Forms.posted p
  /\ App.devices (App.ui (Forms.app p')) = App.devices (App.ui (Forms.app p)).
Proof.
  intros Htask Hk p'. subst p'.
  assert (Hresume : Forms.resume k (Forms.Failure name message)
                    = Some (Forms.onLogin_rejected message))
    by (by destruct k).
  rewrite (settled_task p id k _ _ Htask Hresume).
  rewrite with_app_same by (by apply commit_same_deps).
  split; [reflexivity|]. split; [|by repeat split].
  cbn. by destruct message.
Qed.

Lemma login_reply_signs_in_and_loads_twice_witness :
  let p := Forms.run (Forms.mount Sample.browser ∅)
             [Forms.ChangeEmail "a@b.c"; Forms.ChangePassword "pw"; Forms.SubmitLogin;
              Forms.Settled 0 (Forms.Fingerprint "f0")] in
  Forms.task_of 1 p = Some (Forms.LoginReply "" "" "")
  /\ App.authed (App.ui (Forms.app p)) = false
  /\ "tok" <> ""
  /\ Api.getToken (App.localStorage
                     (Forms.app (Forms.step p (Forms.Settled 1 (Forms.Session "tok")))))
     = Some "tok".
Proof.
  cbv zeta.
  assert (Htask : Forms.task_of 1
            (Forms.run (Forms.mount Sample.browser ∅)
               [Forms.ChangeEmail "a@b.c"; Forms.ChangePassword "pw"; Forms.SubmitLogin;
                Forms.Settled 0 (Forms.Fingerprint "f0")])
          = Some (Forms.LoginReply "" "" "")) by (vm_compute; reflexivity).
  assert (Hout : App.authed (App.ui (Forms.app
            (Forms.run (Forms.mount Sample.browser ∅)
               [Forms.ChangeEmail "a@b.c"; Forms.ChangePassword "pw"; Forms.SubmitLogin;
                Forms.Settled 0 (Forms.Fingerprint "f0")]))) = false)
    by (vm_compute; reflexivity).
  assert (Ht : "tok" <> "") by discriminate.
  split; [exact Htask|]. split; [exact Hout|]. split; [exact Ht|].
  exact (proj1 (login_reply_signs_in_and_loads_twice _ 1 "" "" "" "tok" Htask Hout Ht)).
Defined.

Lemma login_failure_is_reported_witness :
  let p := Forms.run (Forms.mount Sample.browser ∅) [Forms.SubmitLogin] in
  Forms.task_of 0 p = Some (Forms.LoginFingerprint "" "" "" "" "")
  /\ Forms.LoginFingerprint "" "" "" "" "" <> Forms.PasswordReply
  /\ App.error (App.ui (Forms.app
                          (Forms.step p (Forms.Settled 0 (Forms.Failure "TypeError" "")))))
     = Some "Login failed".
Proof.
  cbv zeta.
  assert (Htask : Forms.task_of 0 (Forms.run (Forms.mount Sample.browser ∅) [Forms.SubmitLogin])
                  = Some (Forms.LoginFingerprint "" "" "" "" ""))
    by (vm_compute; reflexivity).
  assert (Hk : Forms.LoginFingerprint "" "" "" "" "" <> Forms.PasswordReply)
    by discriminate.
  split; [exact Htask|]. split; [exact Hk|].
  exact (proj1 (login_failure_is_reported _ 0 _ "TypeError" "" Htask Hk)).
Defined.

(** ** Submitting the login form *)

Lemma find_last_fresh {A} (id : nat) (k : A) (l : list (nat * A)) :
  Forall (fun w => fst w < id) l ->
  find (fun w => Nat.eqb (fst w) id) (l ++ [(id, k)]) = Some (id, k).
Proof.
  induction 1 as [|[m k'] l Hm _ IH].
  - simpl. by rewrite Nat.eqb_refl.
  - simpl in *. destruct (Nat.eqb_spec m id); [lia | exact IH].
Qed.

Lemma filter_last_fresh {A} (id : nat) (k : A) (l : list (nat * A)) :
  Forall (fun w => fst w < id) l ->
  List.filter (fun w => negb (Nat.eqb (fst w) id)) (l ++ [(id, k)]) = l.
Proof.
  induction 1 as [|[m k'] l Hm _ IH].
  - simpl. by rewrite Nat.eqb_refl.
  - simpl in *. destruct (Nat.eqb_spec m id); [lia|]. simpl. by rewrite IH.
Qed.

Lemma step_submit_login (p : Forms.Page) :
  App.authed (App.ui (Forms.app p)) = false ->
  Forms.step p Forms.SubmitLogin
  = Forms.mkPage (Forms.numbered (App.setError None (Forms.app p)))
      (Forms.email p) (Forms.password p) (Forms.oldPassword p) (Forms.newPassword p)
      (Forms.waiting p
       ++ [(App.next_id (Forms.app p),
            Forms.LoginFingerprint (Forms.email p) (Forms.password p)
              (App.q (App.ui (Forms.app p))) (App.since (App.ui (Forms.app p)))
              (App.until (App.ui (Forms.app p))))])%list
      (Forms.posted p).
Proof.
  intros Hout. unfold Forms.step. cbn [Forms.handle]. rewrite Hout.
  rewrite with_app_same by (by apply commit_same_deps). reflexivity.
Qed.

Lemma step_type_credentials (p : Forms.Page) (v : string) :
  App.authed (App.ui (Forms.app p)) = false ->
  Forms.step p (Forms.ChangeEmail v) = Forms.setEmail v p
  /\ Forms.step p (Forms.ChangePassword v) = Forms.setPassword v p.
Proof.
  intros Hout. unfold Forms.step. cbn [Forms.handle]. rewrite Hout.
  split; by rewrite with_app_same by (by apply commit_same_deps).
Qed.

(** X24.  The login call carries the email and the password of the
    moment the form was submitted, and the fingerprint that was computed:
    what is typed into the boxes while the fingerprint is being computed is
    not sent.  Submitting clears the banner, and nothing is checked before
    the call is made: empty boxes are sent as they are. *)
Theorem login_posts_credentials_of_submit
    (p : Forms.Page) (typed_email typed_password fingerprint : string) :
  App.authed (App.ui (Forms.app p)) = false ->
  Forall (fun w => fst w < App.next_id (Forms.app p)) (Forms.waiting p) ->
  let n := App.next_id (Forms.app p) in
  let p' := Forms.run p [Forms.SubmitLogin; Forms.ChangeEmail typed_email;
                         Forms.ChangePassword typed_password;
                         Forms.Settled n (Forms.Fingerprint fingerprint)] in
  Forms.posted p'
  = (Forms.posted p
     ++ [Forms.mkPost (S n)
           (Forms.Credentials (Forms.email p) (Forms.password p) fingerprint)
           (Api.headers (App.localStorage (Forms.app p)) ∅ !! "authorization")])%list
  /\ Forms.email p' = typed_email /\ Forms.password p' = typed_password
  /\ App.error (App.ui (Forms.app p')) = None
  /\ App.sent (Forms.app p') = App.sent (Forms.app p)
  /\ Forms.waiting p'
     = (Forms.waiting p
        ++ [(S n, Forms.LoginReply (App.q (App.ui (Forms.app p)))
                    (App.since (App.ui (Forms.app p)))
                    (App.until (App.ui (Forms.app p))))])%list.
Proof.
  intros Hout Hfresh n p'. subst p' n. cbn [Forms.run fold_left].
  rewrite (step_submit_login p Hout).
  set (p1 := Forms.mkPage _ _ _ _ _ _ _).
  assert (Hout1 : App.authed (App.ui (Forms.app p1)) = false) by exact Hout.
  rewrite (proj1 (step_type_credentials p1 typed_email Hout1)).
  set (p2 := Forms.setEmail typed_email p1).
  assert (Hout2 : App.authed (App.ui (Forms.app p2)) = false) by exact Hout.
  rewrite (proj2 (step_type_credentials p2 typed_password Hout2)).
  set (p3 := Forms.setPassword typed_password p2).
  set (k := Forms.LoginFingerprint (Forms.email p) (Forms.password p)
              (App.q (App.ui (Forms.app p))) (App.since (App.ui (Forms.app p)))
              (App.until (App.ui (Forms.app p)))).
  assert (Htask : Forms.task_of (App.next_id (Forms.app p)) p3 = Some k).
  { unfold Forms.task_of, p3, p2, p1, Forms.setPassword, Forms.setEmail.
    cbn [Forms.waiting]. by rewrite (find_last_fresh _ _ _ Hfresh). }
  rewrite (settled_task p3 _ k (Forms.Fingerprint fingerprint)
             (Forms.onLogin_fingerprinted (Forms.email p) (Forms.password p)
                (App.q (App.ui (Forms.app p))) (App.since (App.ui (Forms.app p)))
                (App.until (App.ui (Forms.app p))) fingerprint) Htask eq_refl).
  rewrite with_app_same by (by apply commit_same_deps).
  unfold Forms.onLogin_fingerprinted, Forms.post, Forms.forget, p3, p2, p1,
    Forms.setPassword, Forms.setEmail.
  cbn [Forms.app Forms.email Forms.password Forms.oldPassword Forms.newPassword
       Forms.waiting Forms.posted].
  rewrite (filter_last_fresh _ _ _ Hfresh).
  repeat split.
Qed.

Lemma login_posts_credentials_of_submit_witness :
  let p := Forms.run (Forms.mount Sample.browser ∅)
             [Forms.ChangeEmail "a@b.c"; Forms.ChangePassword "pw"] in
  App.authed (App.ui (Forms.app p)) = false
  /\ Forall (fun w => fst w < App.next_id (Forms.app p)) (Forms.waiting p)
  /\ Forms.email
       (Forms.run p [Forms.SubmitLogin; Forms.ChangeEmail "x"; Forms.ChangePassword "y";
                     Forms.Settled (App.next_id (Forms.app p)) (Forms.Fingerprint "f0")])
     = "x".
Proof.
  cbv zeta.
  assert (Hout : App.authed (App.ui (Forms.app (Forms.run (Forms.mount Sample.browser ∅)
                    [Forms.ChangeEmail "a@b.c"; Forms.ChangePassword "pw"]))) = false)
    by (vm_compute; reflexivity).
  assert (Hfresh : Forall (fun w => fst w < App.next_id (Forms.app (Forms.run (Forms.mount Sample.browser ∅)
                              [Forms.ChangeEmail "a@b.c"; Forms.ChangePassword "pw"])))
                     (Forms.waiting (Forms.run (Forms.mount Sample.browser ∅)
                        [Forms.ChangeEmail "a@b.c"; Forms.ChangePassword "pw"])))
    by (vm_compute; constructor).
  split; [exact Hout|]. split; [exact Hfresh|].
  exact (proj1 (proj2 (login_posts_credentials_of_submit
                         (Forms.run (Forms.mount Sample.browser ∅)
                            [Forms.ChangeEmail "a@b.c"; Forms.ChangePassword "pw"])
                         "x" "y" "f0" Hout Hfresh))).
Defined.

(** ** Changing the password *)

Lemma deps_new_token (s : App.State) (t : string) :
  App.authed (App.ui s) = true -> t <> "" ->
  App.deps (App.ui (App.setTokenState (Some t) (App.setToken (Some t) s)))
  = App.deps (App.ui s).
Proof.
  intros Hin Ht. unfold App.deps. rewrite Hin.
  destruct s as [u storage now timers cleanup pending sent next legacy]. cbn.
  by rewrite (truthy_string_nonempty t Ht).
Qed.

(** X25.  Submitting the password form clears the banner and posts the
    two passwords as typed, with the bearer header of the stored token.
    When the call resolves, its token replaces the stored one and the
    token state, so later requests carry the new token; the two boxes are
    emptied and nothing is loaded again, the devices and the selection
    staying as they are.  When it fails, the banner shows the message, or
    [Change password failed], and the token and the boxes are kept. *)
Theorem password_change_replaces_token (p : Forms.Page) :
  App.authed (App.ui (Forms.app p)) = true ->
  (let p' := Forms.step p Forms.SubmitChangePassword in
   Forms.posted p'
   = (Forms.posted p
      ++ [Forms.mkPost (App.next_id (Forms.app p))
            (Forms.Passwords (Forms.oldPassword p) (Forms.newPassword p))
            (Api.headers (App.localStorage (Forms.app p)) ∅ !! "authorization")])%list
   /\ App.error (App.ui (Forms.app p')) = None
   /\ App.sent (Forms.app p') = App.sent (Forms.app p))
  /\ (forall id t,
        Forms.task_of id p = Some Forms.PasswordReply -> t <> "" ->
        let p' := Forms.step p (Forms.Settled id (Forms.Session t)) in
        Api.getToken (App.localStorage (Forms.app p')) = Some t
        /\ App.token (App.ui (Forms.app p')) = Some t
        /\ Api.headers (App.localStorage (Forms.app p')) ∅ !! "authorization"
           = Some ("Bearer " ++ t)
        /\ Forms.oldPassword p' = "" /\ Forms.newPassword p' = ""
        /\ App.sent (Forms.app p') = App.sent (Forms.app p)
        /\ Forms.posted p' = Forms.posted p
        /\ App.timers (Forms.app p') = App.timers (Forms.app p)
        /\ App.devices (App.ui (Forms.app p')) = App.devices (App.ui (Forms.app p))
        /\ App.selected (App.ui (Forms.app p')) = App.selected (App.ui (Forms.app p))
        /\ App.locationLogs (App.ui (Forms.app p'))
           = App.locationLogs (App.ui (Forms.app p)))
  /\ (forall id name message,
        Forms.task_of id p = Some Forms.PasswordReply ->
        let p' := Forms.step p (Forms.Settled id (Forms.Failure name message)) in
        App.error (App.ui (Forms.app p'))
        = Some (if Js.truthy_string message then message else "Change password failed")
        /\ Watch.session (Forms.app p') = Watch.session (Forms.app p)
        /\ Forms.oldPassword p' = Forms.oldPassword p
        /\ Forms.newPassword p' = Forms.newPassword p
        /\ Forms.posted p' = Forms.posted p).
Proof.
  intros Hin. split; [|split].
  - unfold Forms.step. cbn [Forms.handle]. rewrite Hin.
    rewrite with_app_same by (by apply commit_same_deps). by repeat split.
  - intros id t Htask Ht p'. subst p'.
    rewrite (settled_task p id _ (Forms.Session t) (Forms.onChangePassword_answered t)
               Htask eq_refl).
    rewrite with_app_same
      by (apply commit_same_deps; exact (deps_new_token (Forms.app p) t Hin Ht)).
    unfold Forms.onChangePassword_answered, Forms.setNewPassword, Forms.setOldPassword.
    cbn [Forms.app Forms.oldPassword Forms.newPassword Forms.posted].
    change (Forms.app (Forms.with_app (App.setTokenState (Some t))
                         (Forms.with_app (App.setToken (Some t)) (Forms.forget id p))))
      with (App.setTokenState (Some t) (App.setToken (Some t) (Forms.app p))).
    change (App.localStorage (App.setTokenState (Some t) (App.setToken (Some t) (Forms.app p))))
      with (Api.setToken (Some t) (App.localStorage (Forms.app p))).
    rewrite (headers_after_setToken _ t Ht).
    rewrite (getToken_setToken_some _ t (truthy_string_nonempty t Ht)).
    by repeat split.
  - intros id name message Htask p'. subst p'.
    rewrite (settled_task p id _ (Forms.Failure name message)
               (Forms.onChangePassword_rejected message) Htask eq_refl).
    rewrite with_app_same by (by apply commit_same_deps).
    by repeat split.
Qed.

Lemma password_change_replaces_token_witness :
  let p := Forms.run (Forms.mount Sample.browser (<["adminToken" := "tok"]> ∅))
             [Forms.ChangeOldPassword "old"; Forms.ChangeNewPassword "new-password";
              Forms.SubmitChangePassword] in
  App.authed (App.ui (Forms.app p)) = true
  /\ Forms.task_of 2 p = Some Forms.PasswordReply
  /\ "t2" <> ""
  /\ Api.getToken
       (App.localStorage (Forms.app (Forms.step p (Forms.Settled 2 (Forms.Session "t2")))))
     = Some "t2".
Proof.
  cbv zeta.
  assert (Hin : App.authed (App.ui (Forms.app
            (Forms.run (Forms.mount Sample.browser (<["adminToken" := "tok"]> ∅))
               [Forms.ChangeOldPassword "old"; Forms.ChangeNewPassword "new-password";
                Forms.SubmitChangePassword])))
          = true) by (vm_compute; reflexivity).
  assert (Htask : Forms.task_of 2
            (Forms.run (Forms.mount Sample.browser (<["adminToken" := "tok"]> ∅))
               [Forms.ChangeOldPassword "old"; Forms.ChangeNewPassword "new-password";
                Forms.SubmitChangePassword])
          = Some Forms.PasswordReply) by (vm_compute; reflexivity).
  assert (Ht : "t2" <> "") by discriminate.
  split; [exact Hin|]. split; [exact Htask|]. split; [exact Ht|].
  exact (proj1 (proj1 (proj2 (password_change_replaces_token _ Hin)) 2 "t2" Htask Ht)).
Defined.

(** ** The token across the whole page *)

Lemma in_step_written (s : App.State) (storage : gmap string string) (v : option string) :
  Watch.session s = (Api.setToken v storage, v) -> Watch.session_in_step s.
Proof.
  intros Hsession.
  pose proof (f_equal fst Hsession) as Hl. pose proof (f_equal snd Hsession) as Ht.
  cbn [fst snd Watch.session] in Hl, Ht.
  unfold Watch.session_in_step, App.authed. rewrite Hl, Ht.
  destruct (Js.truthy_opt Js.truthy_string v) eqn:Hv.
  - left. split; [reflexivity|]. destruct v as [t|]; [|discriminate].
    by apply getToken_setToken_some.
  - right. split; [reflexivity|]. by rewrite (getToken_setToken_falsy storage v Hv).
Qed.

Lemma session_forms_settle (id : nat) (a : Forms.Answer) (p : Forms.Page) :
  Watch.session (Forms.app (Forms.settle id a p)) = Watch.session (Forms.app p)
  \/ exists v, Watch.session (Forms.app (Forms.settle id a p))
               = (Api.setToken v (App.localStorage (Forms.app p)), v).
Proof.
  unfold Forms.settle.
  destruct (Forms.task_of id p) as [k|]; [|by left].
  destruct k as [e w q0 since0 until0|q0 since0 until0|q0 since0 until0| |],
           a as [hex|t|v|ds|name message];
    cbn [Forms.resume]; try (by left); try (right; by exists (Some t)).
  unfold Forms.onLogin_summarized.
  left. by iso_cases since0 until0.
Qed.

Lemma session_forms_handle (e : Forms.Event) (p : Forms.Page) :
  Watch.session (Forms.app (Forms.handle e p)) = Watch.session (Forms.app p)
  \/ exists v, Watch.session (Forms.app (Forms.handle e p))
               = (Api.setToken v (App.localStorage (Forms.app p)), v).
Proof.
  destruct e as [e|v|v|v|v| | |id a]; cbn [Forms.handle];
    try (left; by destruct (App.authed (App.ui (Forms.app p)))).
  - destruct (session_handle e (Forms.app p)) as [H | H]; [by left|].
    right. by exists None.
  - apply session_forms_settle.
Qed.

(** X26.  Across the whole page, the two forms and the dashboard, the
    token state and the stored token never part: [onLogin],
    [onChangePassword] and [logout] write both together and nothing else
    writes either.  So in every state the page can reach a request carries
    [authorization: Bearer <token>], with the token of the state, exactly
    when the dashboard is shown. *)
Theorem page_token_follows_storage (p : Forms.Page) :
  Forms.reachable p ->
  Api.headers (App.localStorage (Forms.app p)) ∅ !! "authorization"
  = (if App.authed (App.ui (Forms.app p))
     then (fun t => "Bearer " ++ t) <$> App.token (App.ui (Forms.app p))
     else None).
Proof.
  intros Hp.
  assert (Hstep : Watch.session_in_step (Forms.app p)).
  { induction Hp as [legacy storage | p e _ IH]; [apply in_step_mount|].
    unfold Forms.step. cbn [Forms.with_app Forms.app].
    destruct (session_commit (App.ui (Forms.app p)) (Forms.app (Forms.handle e p)))
      as [Hcommit _].
    destruct (session_forms_handle e p) as [Hsame | [v Hset]].
    - apply (in_step_session (Forms.app p)); [by rewrite Hcommit | exact IH].
    - rewrite Hset in Hcommit. exact (in_step_written _ _ _ Hcommit). }
  rewrite headers_authorization, lookup_empty.
  destruct Hstep as [[Hauthed Htoken] | [Hauthed Hfalsy]]; rewrite Hauthed.
  - rewrite Htoken. unfold App.authed in Hauthed.
    destruct (App.token (App.ui (Forms.app p))) as [t|]; [|discriminate].
    cbn in Hauthed. by rewrite Hauthed.
  - destruct (Api.getToken (App.localStorage (Forms.app p))) as [t|]; [|reflexivity].
    cbn in Hfalsy. by rewrite Hfalsy.
Qed.

Lemma reachable_forms_run (p : Forms.Page) (es : list Forms.Event) :
  Forms.reachable p -> Forms.reachable (Forms.run p es).
Proof.
  revert p. induction es as [|e es IH]; intros p Hp; [exact Hp|].
  cbn [Forms.run fold_left]. apply IH. by apply Forms.reachable_step.
Qed.

Lemma page_token_follows_storage_witness :
  let p := Forms.run (Forms.mount Sample.browser ∅)
             [Forms.SubmitLogin; Forms.Settled 0 (Forms.Fingerprint "f0");
              Forms.Settled 1 (Forms.Session "tok")] in
  Forms.reachable p
  /\ Api.headers (App.localStorage (Forms.app p)) ∅ !! "authorization"
     = (if App.authed (App.ui (Forms.app p))
        then (fun t => "Bearer " ++ t) <$> App.token (App.ui (Forms.app p))
        else None).
Proof.
  cbv zeta.
  assert (Hp : Forms.reachable
                 (Forms.run (Forms.mount Sample.browser ∅)
                    [Forms.SubmitLogin; Forms.Settled 0 (Forms.Fingerprint "f0");
                     Forms.Settled 1 (Forms.Session "tok")])).
  { apply reachable_forms_run. apply Forms.reachable_mount. }
  split; [exact Hp|].
  exact (page_token_follows_storage _ Hp).
Defined.
